(** * make_reports: a shallow embedding of [scripts/make_reports.py]

    The script scans [<root>/outputs] for folders that directly hold images,
    writes one [report.html] per such folder and two index pages.

    Conventions of the embedding.
    - A Python [str] is represented by its UTF-8 encoding, a Rocq [string]
      (one [ascii] per byte).  Comparison by code point coincides with
      comparison of the UTF-8 bytes; [html.escape], [urllib.parse.quote],
      [str.split], [str.join] and [PurePath.suffix] only look at ASCII
      characters, which are single bytes that never occur inside a
      multi-byte sequence.  [str.strip] is embedded with the UTF-8
      encodings of the white-space characters of Unicode.
    - [str.lower] depends on the Unicode case tables; it is a parameter
      [lower] of the development.  Where a property needs it, the one
      assumption is that [lower ".html"] is no image suffix, which holds of
      [str.lower].  [ascii_lower] is the instance used on concrete inputs.
    - [csv.reader] (the tokenizer of the csv module) is a parameter
      [csv_reader]; the header logic of [csv.DictReader] is embedded.
    - A [pathlib.Path] is the list of its segments below the filesystem
      root; the filesystem is a tree of directories, regular files and
      other entries.  Symbolic links, permissions and decoding errors are
      outside the model.
    - A function with effects is a function from the filesystem to a
      result or an exception, the filesystem it leaves, and the log of what
      it wrote and printed.

    The first part holds the embedding and the notions the properties are
    stated with; the second part holds the properties. *)

From Stdlib Require Import String Ascii List NArith Lia Bool DecimalString DecimalNat.
From stdpp Require Import gmap strings list sorting.

Set Warnings "-register-all".

(** ** Strings *)

Module Str.

Definition DQ : ascii := "034"%char.
Definition NL : ascii := "010"%char.

Definition chr (c : ascii) : string := String c EmptyString.

(** [s.replace(c, r)] for a one-character [c]. *)
Fixpoint replace_char (c : ascii) (r : string) (s : string) : string :=
  match s with
  | EmptyString => EmptyString
  | String a s' =>
      if Ascii.eqb a c then r +:+ replace_char c r s'
      else String a (replace_char c r s')
  end.

(** [c in s] *)
Fixpoint mem (c : ascii) (s : string) : bool :=
  match s with
  | EmptyString => false
  | String a s' => Ascii.eqb a c || mem c s'
  end.

Fixpoint count (c : ascii) (s : string) : nat :=
  match s with
  | EmptyString => 0
  | String a s' => (if Ascii.eqb a c then 1 else 0) + count c s'
  end.

Fixpoint all (f : ascii -> bool) (s : string) : bool :=
  match s with
  | EmptyString => true
  | String a s' => f a && all f s'
  end.

(** [s.split(c)]: the pieces between the occurrences of [c]; never empty. *)
Fixpoint split (c : ascii) (s : string) : list string :=
  match s with
  | EmptyString => [EmptyString]
  | String a s' =>
      if Ascii.eqb a c then EmptyString :: split c s'
      else match split c s' with
           | [] => [chr a]
           | w :: ws => String a w :: ws
           end
  end.

(** [s.rfind(c)]: the index of the last occurrence of [c], if any. *)
Fixpoint rfind (c : ascii) (s : string) : option nat :=
  match s with
  | EmptyString => None
  | String a s' =>
      match rfind c s' with
      | Some i => Some (S i)
      | None => if Ascii.eqb a c then Some 0 else None
      end
  end.

(** [s[i:]] *)
Fixpoint drop (i : nat) (s : string) : string :=
  match i, s with
  | S i', String _ s' => drop i' s'
  | _, _ => s
  end.

(** [str(n)] for a natural number. *)
Definition of_nat (n : nat) : string := NilZero.string_of_uint (Nat.to_uint n).

End Str.

Definition DQ : string := Str.chr Str.DQ.
Definition NL : string := Str.chr Str.NL.

(** ** [html.escape] and [urllib.parse.quote] *)

(** [html.escape(s)] with the default [quote=True]: five successive
    [str.replace] calls, ampersand first. *)
Definition html_escape (s : string) : string :=
  let s := Str.replace_char "&" "&amp;" s in
  let s := Str.replace_char "<" "&lt;" s in
  let s := Str.replace_char ">" "&gt;" s in
  let s := Str.replace_char Str.DQ "&quot;" s in
  let s := Str.replace_char "'" "&#x27;" s in
  s.

(** The character-wise reading of [html_escape]. *)
Definition escape_char (c : ascii) : string :=
  if Ascii.eqb c "&" then "&amp;"
  else if Ascii.eqb c "<" then "&lt;"
  else if Ascii.eqb c ">" then "&gt;"
  else if Ascii.eqb c Str.DQ then "&quot;"
  else if Ascii.eqb c "'" then "&#x27;"
  else Str.chr c.

(** The characters that carry HTML markup: tag brackets and both quotes. *)
Definition is_markup (c : ascii) : bool :=
  Ascii.eqb c "<" || Ascii.eqb c ">" || Ascii.eqb c Str.DQ || Ascii.eqb c "'".

(** [_ALWAYS_SAFE] of urllib.parse: letters, digits and [_.-~]. *)
Definition always_safe (c : ascii) : bool :=
  let n := N_of_ascii c in
  ((65 <=? n) && (n <=? 90) || (97 <=? n) && (n <=? 122)
   || (48 <=? n) && (n <=? 57))%N
  || Str.mem c "_.-~".

Definition hex_digit (n : N) : ascii :=
  if (n <? 10)%N then ascii_of_N (48 + n) else ascii_of_N (55 + n).

(** ['%{:02X}'.format(b)] *)
Definition percent_hex (c : ascii) : string :=
  let n := N_of_ascii c in
  String "%" (String (hex_digit (n / 16)) (String (hex_digit (n mod 16)) "")).

(** [_Quoter.__missing__]: a safe byte stands for itself, any other byte
    becomes a percent escape. *)
Definition quoter (safe : string) (c : ascii) : string :=
  if always_safe c || Str.mem c safe then Str.chr c else percent_hex c.

Fixpoint quote_from_bytes (bs : string) (safe : string) : string :=
  match bs with
  | EmptyString => EmptyString
  | String c bs' => quoter safe c +:+ quote_from_bytes bs' safe
  end.

(** [quote(p)]: the default [safe] argument is ["/"]. *)
Definition quote (s : string) : string := quote_from_bytes s "/".

(** [url_path]: every part is quoted on its own, then joined with a slash. *)
Definition url_path (parts : list string) : string :=
  String.concat "/" (map quote parts).

(** The characters [quote] can produce. *)
Definition is_url_char (c : ascii) : bool :=
  always_safe c || Ascii.eqb c "/" || Ascii.eqb c "%".

(** ** Exceptions *)

Inductive exn : Type :=
| SystemExit (msg : string)
| OSError (p : list string)
| ValueError.

Inductive result (A : Type) : Type :=
| Ok (a : A)
| Raise (e : exn).
Arguments Ok {A} a.
Arguments Raise {A} e.

Definition bind {A B : Type} (r : result A) (k : A -> result B) : result B :=
  match r with
  | Ok a => k a
  | Raise e => Raise e
  end.

Notation "x <- r ;; k" := (bind r (fun x => k))
  (at level 100, r at next level, right associativity).

(** ** [sorted]: a stable sort *)

Section Sorted.
Context {A : Type} (leb : A -> A -> bool).

Fixpoint insort (x : A) (l : list A) : list A :=
  match l with
  | [] => [x]
  | y :: l' => if leb x y then x :: l else y :: insort x l'
  end.

(** Elements that compare equal keep their input order, as with Python's
    [sorted] and [list.sort]. *)
Fixpoint sorted (l : list A) : list A :=
  match l with
  | [] => []
  | x :: l' => insort x (sorted l')
  end.

End Sorted.

(** ** Paths and the filesystem *)

Definition path : Type := list string.

(** Order of [PurePath] objects: segment by segment, a proper prefix first. *)
Fixpoint path_leb (p q : path) : bool :=
  match p, q with
  | [], _ => true
  | _ :: _, [] => false
  | a :: p', b :: q' =>
      match String.compare a b with
      | Lt => true
      | Gt => false
      | Eq => path_leb p' q'
      end
  end.

(** [p.name] *)
Definition name (p : path) : string := List.last p EmptyString.

(** [PurePath.suffix] of a final segment: the text from the last dot on,
    unless that dot is the first or the last character. *)
Definition suffix_of (nm : string) : string :=
  match Str.rfind "." nm with
  | Some i =>
      if (0 <? i) && (i <? String.length nm - 1) then Str.drop i nm
      else EmptyString
  | None => EmptyString
  end.

Definition suffix (p : path) : string := suffix_of (name p).

(** [str(p)] for an absolute path. *)
Definition path_str (p : path) : string :=
  match p with
  | [] => "/"
  | _ => String.concat "" (map (fun s => "/" +:+ s) p)
  end.

(** A regular file with its text, a directory with its entries in the
    order the system lists them, or an entry that is neither (a socket, a
    device); reading or writing the last kind is taken to fail. *)
Inductive node : Type :=
| File (content : string)
| Dir (entries : list (string * node))
| Other.

Fixpoint find_entry (nm : string) (es : list (string * node)) : option node :=
  match es with
  | [] => None
  | (k, n) :: es' => if String.eqb k nm then Some n else find_entry nm es'
  end.

Fixpoint lookup_path (fs : node) (p : path) : option node :=
  match p with
  | [] => Some fs
  | s :: p' =>
      match fs with
      | Dir es =>
          match find_entry s es with
          | Some n => lookup_path n p'
          | None => None
          end
      | _ => None
      end
  end.

(** [p.exists()] *)
Definition exists_ (fs : node) (p : path) : bool :=
  match lookup_path fs p with Some _ => true | None => false end.

Definition is_dir (fs : node) (p : path) : bool :=
  match lookup_path fs p with Some (Dir _) => true | _ => false end.

Definition is_file (fs : node) (p : path) : bool :=
  match lookup_path fs p with Some (File _) => true | _ => false end.

(** [folder.iterdir()], in the order the directory lists its entries. *)
Definition iterdir (fs : node) (folder : path) : result (list path) :=
  match lookup_path fs folder with
  | Some (Dir es) => Ok (map (fun e => folder ++ [e.1]) es)
  | _ => Raise (OSError folder)
  end.

(** Every path strictly below [p], given the node [n] at [p]. *)
Fixpoint walk (p : path) (n : node) : list path :=
  match n with
  | Dir es =>
      (fix go (es : list (string * node)) : list path :=
         match es with
         | [] => []
         | (nm, c) :: es' => (p ++ [nm]) :: walk (p ++ [nm]) c ++ go es'
         end) es
  | _ => []
  end.

(** [p.rglob("*")]: nothing when [p] is not a directory. *)
Definition rglob (fs : node) (p : path) : list path :=
  match lookup_path fs p with
  | Some n => walk p n
  | None => []
  end.

(** ** The image lister and the folder discoverer *)

Definition IMG_EXTS : gset string :=
  {[ ".png"; ".jpg"; ".jpeg"; ".webp"; ".gif" ]}.

Section WithLower.
Variable lower : string -> string.

Definition is_image (fs : node) (p : path) : bool :=
  is_file fs p && bool_decide (lower (suffix p) ∈ IMG_EXTS).

Definition list_images (fs : node) (folder : path) : result (list path) :=
  ps <- iterdir fs folder ;;
  Ok (sorted path_leb (List.filter (is_image fs) ps)).

Fixpoint collect_report_folders (fs : node) (ds : list path) : result (list path) :=
  match ds with
  | [] => Ok []
  | d :: ds' =>
      if is_dir fs d then
        imgs <- list_images fs d ;;
        rest <- collect_report_folders fs ds' ;;
        Ok (match imgs with [] => rest | _ :: _ => d :: rest end)
      else collect_report_folders fs ds'
  end.

Definition find_report_folders (fs : node) (outputs_dir : path) : result (list path) :=
  collect_report_folders fs (sorted path_leb (rglob fs outputs_dir)).

End WithLower.

(** ASCII lower-casing, the restriction of [str.lower] to ASCII text. *)
Definition lower_char (c : ascii) : ascii :=
  let n := N_of_ascii c in
  if ((65 <=? n) && (n <=? 90))%N then ascii_of_N (n + 32) else c.

Fixpoint ascii_lower (s : string) : string :=
  match s with
  | EmptyString => EmptyString
  | String c s' => String (lower_char c) (ascii_lower s')
  end.

(** ** [str.strip] *)

Module Strip.

(** ASCII white space: TAB, LF, VT, FF, CR, FS, GS, RS, US and SPACE. *)
Definition is_ascii_space (c : ascii) : bool :=
  let n := N_of_ascii c in
  ((9 <=? n) && (n <=? 13) || (28 <=? n) && (n <=? 32))%N.

(** The two-byte white space: U+0085 and U+00A0, after the lead byte C2. *)
Definition is_space2 (b : ascii) : bool :=
  let n := N_of_ascii b in ((n =? 133) || (n =? 160))%N.

(** The three-byte white space: U+1680, U+2000 to U+200A, U+2028, U+2029,
    U+202F, U+205F and U+3000. *)
Definition is_space3 (a b c : ascii) : bool :=
  let x := N_of_ascii a in
  let y := N_of_ascii b in
  let z := N_of_ascii c in
  ((x =? 225) && (y =? 154) && (z =? 128)
   || (x =? 226) && (y =? 128)
      && ((128 <=? z) && (z <=? 138) || (z =? 168) || (z =? 169) || (z =? 175))
   || (x =? 226) && (y =? 129) && (z =? 159)
   || (x =? 227) && (y =? 128) && (z =? 128))%N.

(** The rest of [s] after one leading white-space character, if [s] starts
    with one. *)
Definition ws_head (s : string) : option string :=
  match s with
  | EmptyString => None
  | String a r =>
      if is_ascii_space a then Some r
      else if (N_of_ascii a =? 194)%N then
        match r with
        | String b r2 => if is_space2 b then Some r2 else None
        | _ => None
        end
      else if ((225 <=? N_of_ascii a) && (N_of_ascii a <=? 227))%N then
        match r with
        | String b (String c r3) => if is_space3 a b c then Some r3 else None
        | _ => None
        end
      else None
  end.

Fixpoint drop_ws (fuel : nat) (s : string) : string :=
  match fuel with
  | 0 => s
  | S fuel' =>
      match ws_head s with
      | Some r => drop_ws fuel' r
      | None => s
      end
  end.

(** [s.lstrip()]: every white-space character consumes at least one byte,
    so [length s] rounds are enough. *)
Definition lstrip (s : string) : string := drop_ws (String.length s) s.

Definition is_blank (s : string) : bool :=
  match lstrip s with EmptyString => true | _ => false end.

(** [s.rstrip()]: cut at the first position whose remainder is blank. *)
Fixpoint rstrip (s : string) : string :=
  match s with
  | EmptyString => EmptyString
  | String a r => if is_blank s then EmptyString else String a (rstrip r)
  end.

Definition strip (s : string) : string := rstrip (lstrip s).

End Strip.

(** ** The caption loader *)

Section Captions.
Variable csv_reader : string -> list (list string).

(** One row of [csv.DictReader]: [dict(zip(fieldnames, row))], then the
    field names a short row does not reach are set to [None].  The entry
    under the key [None] that collects the surplus of a long row is left
    out: no string key reads it. *)
Definition row_dict (fieldnames row : list string) : gmap string (option string) :=
  let d := fold_left (fun d kv => <[kv.1 := Some kv.2]> d) (zip fieldnames row) ∅ in
  fold_left (fun d k => <[k := None]> d) (drop (length row) fieldnames) d.

(** The rows of [csv.DictReader]: the first record is the header, empty
    records are skipped. *)
Definition dict_reader (records : list (list string)) : list (gmap string (option string)) :=
  match records with
  | [] => []
  | fieldnames :: data =>
      map (row_dict fieldnames)
          (List.filter (fun r => match r with [] => false | _ => true end) data)
  end.

(** [row.get(k) or ""] *)
Definition get_or_empty (row : gmap string (option string)) (k : string) : string :=
  match row !! k with
  | Some (Some v) => v
  | _ => EmptyString
  end.

(** The body of the loop over the rows. *)
Definition caption_step (caps : gmap string string) (row : gmap string (option string))
  : gmap string string :=
  let fn := Strip.strip (get_or_empty row "filename") in
  let cap := Strip.strip (get_or_empty row "caption") in
  match fn with
  | EmptyString => caps
  | _ => <[fn := cap]> caps
  end.

Definition read_captions (fs : node) (captions_csv : path) : result (gmap string string) :=
  match lookup_path fs captions_csv with
  | None => Ok ∅
  | Some (File content) =>
      Ok (fold_left caption_step (dict_reader (csv_reader content)) ∅)
  | Some _ => Raise (OSError captions_csv)
  end.

End Captions.

(** A reader for comma-separated text without quoting, one record per
    line-feed terminated line: what [csv.reader] returns on such text. *)
Definition csv_plain (content : string) : list (list string) :=
  let lines := Str.split Str.NL content in
  let lines := match List.last lines EmptyString with
               | EmptyString => removelast lines
               | _ => lines
               end in
  map (fun l => match l with EmptyString => [] | _ => Str.split "," l end) lines.

(** ** The report builder *)

(** The f-string of one card, before [.strip()]. *)
Definition card_template (nm caption_text : string) : string :=
  "
            <figure class=" +:+ DQ +:+ "card" +:+ DQ +:+ ">
              <a href=" +:+ DQ +:+ url_path [nm] +:+ DQ +:+ " target=" +:+ DQ +:+ "_blank" +:+ DQ +:+ " rel=" +:+ DQ +:+ "noopener" +:+ DQ +:+ ">
                <img src=" +:+ DQ +:+ url_path [nm] +:+ DQ +:+ " alt=" +:+ DQ +:+ html_escape nm +:+ DQ +:+ ">
              </a>
              <figcaption>" +:+ html_escape caption_text +:+ "</figcaption>
            </figure>
            ".

Definition card (nm caption_text : string) : string :=
  Strip.strip (card_template nm caption_text).

(** The f-string of the page: the title, the number of images and the
    cards. *)
Definition report_page (title : string) (n : nat) (cards : list string) : string :=
  "<!doctype html>
<html lang=" +:+ DQ +:+ "fa" +:+ DQ +:+ " dir=" +:+ DQ +:+ "rtl" +:+ DQ +:+ ">
<head>
  <meta charset=" +:+ DQ +:+ "utf-8" +:+ DQ +:+ " />
  <meta name=" +:+ DQ +:+ "viewport" +:+ DQ +:+ " content=" +:+ DQ +:+ "width=device-width,initial-scale=1" +:+ DQ +:+ " />
  <title>Report - " +:+ html_escape title +:+ "</title>
  <style>
    body { font-family: sans-serif; margin: 24px; line-height: 1.8; }
    header { margin-bottom: 16px; }
    .muted { color: #666; font-size: 0.95rem; }
    .grid {
      display: grid;
      grid-template-columns: repeat(auto-fit, minmax(240px, 1fr));
      gap: 16px;
    }
    .card {
      border: 1px solid #ddd;
      border-radius: 12px;
      padding: 12px;
      background: #fff;
    }
    img { width: 100%; height: auto; border-radius: 10px; }
    figcaption { margin-top: 10px; color: #333; font-size: 0.95rem; min-height: 1.2em; }
  </style>
</head>
<body>
  <header>
    <h1>گزارش: " +:+ html_escape title +:+ "</h1>
    <p class=" +:+ DQ +:+ "muted" +:+ DQ +:+ ">تعداد تصاویر: " +:+ Str.of_nat n +:+ "</p>
  </header>

  <main class=" +:+ DQ +:+ "grid" +:+ DQ +:+ ">
    " +:+ String.concat "" cards +:+ "
  </main>
</body>
</html>
".

(** ** The index builder *)

(** One list item of an index page. *)
Definition index_li (href label : string) (img_count : nat) : string :=
  "<li><a href=" +:+ DQ +:+ href +:+ DQ +:+ ">" +:+ label +:+ "</a> <span class=" +:+ DQ +:+ "muted" +:+ DQ +:+ ">(" +:+ Str.of_nat img_count +:+ " تصویر)</span></li>".

Definition no_reports_li : string := "<li>گزارشی پیدا نشد.</li>".

(** The f-string of an index page around the content of its list. *)
Definition index_page (body : string) : string :=
  "<!doctype html>
<html lang=" +:+ DQ +:+ "fa" +:+ DQ +:+ " dir=" +:+ DQ +:+ "rtl" +:+ DQ +:+ ">
<head>
  <meta charset=" +:+ DQ +:+ "utf-8" +:+ DQ +:+ " />
  <meta name=" +:+ DQ +:+ "viewport" +:+ DQ +:+ " content=" +:+ DQ +:+ "width=device-width,initial-scale=1" +:+ DQ +:+ " />
  <title>فهرست گزارش‌ها</title>
  <style>
    body { font-family: sans-serif; margin: 24px; line-height: 1.8; }
    .muted { color: #666; font-size: 0.95rem; }
    ul { padding-right: 18px; }
    li { margin: 8px 0; }
  </style>
</head>
<body>
  <h1>فهرست گزارش‌ها</h1>
  <p class=" +:+ DQ +:+ "muted" +:+ DQ +:+ ">روی هر مورد کلیک کن تا گزارش همان فولدر باز شود.</p>
  <ul>
    " +:+ body +:+ "
  </ul>
</body>
</html>
".

Definition exit_message : string := "❌ outputs/ پیدا نشد".
Definition report_built : string := "✅ report built: ".
Definition index_built : string := "✅ index built: ".
Definition done_message : string := "🎉 Done.".

(** ** Effects: the filesystem as state, exceptions, and a log *)

Inductive event : Type :=
| Wrote (p : path) (content : string)
| MadeDir (p : path)
| Printed (line : string).

(** A computation reads and updates the filesystem, appends to the log and
    either returns or raises; what it did before raising stays done. *)
Definition io (A : Type) : Type := node -> result A * node * list event.

Definition ret {A : Type} (a : A) : io A := fun fs => (Ok a, fs, []).

Definition raise {A : Type} (e : exn) : io A := fun fs => (Raise e, fs, []).

Definition io_bind {A B : Type} (m : io A) (k : A -> io B) : io B :=
  fun fs =>
    match m fs with
    | (Ok a, fs1, l1) =>
        match k a fs1 with
        | (r, fs2, l2) => (r, fs2, l1 ++ l2)
        end
    | (Raise e, fs1, l1) => (Raise e, fs1, l1)
    end.

Notation "x <~ m ;; k" := (io_bind m (fun x => k))
  (at level 100, m at next level, right associativity).
Notation "m ;;; k" := (io_bind m (fun _ => k))
  (at level 100, right associativity).

(** A read of the current filesystem. *)
Definition read {A : Type} (f : node -> result A) : io A :=
  fun fs => (f fs, fs, []).

Definition print (line : string) : io unit :=
  fun fs => (Ok tt, fs, [Printed line]).

Fixpoint set_entry (nm : string) (n : node) (es : list (string * node))
  : list (string * node) :=
  match es with
  | [] => []
  | (k, m) :: es' =>
      if String.eqb k nm then (k, n) :: es' else (k, m) :: set_entry nm n es'
  end.

(** The filesystem after [p.write_text(content)]: a regular file is
    replaced, a missing entry of an existing directory is created, anything
    else fails. *)
Fixpoint write_file (fs : node) (p : path) (content : string) : option node :=
  match p with
  | [] =>
      match fs with
      | File _ => Some (File content)
      | _ => None
      end
  | s :: p' =>
      match fs with
      | Dir es =>
          match find_entry s es with
          | Some n =>
              match write_file n p' content with
              | Some n' => Some (Dir (set_entry s n' es))
              | None => None
              end
          | None =>
              match p' with
              | [] => Some (Dir (es ++ [(s, File content)]))
              | _ => None
              end
          end
      | _ => None
      end
  end.

(** The filesystem after [p.mkdir(parents=True, exist_ok=True)]. *)
Fixpoint make_dirs (fs : node) (p : path) : option node :=
  match p with
  | [] =>
      match fs with
      | Dir _ => Some fs
      | _ => None
      end
  | s :: p' =>
      match fs with
      | Dir es =>
          match find_entry s es with
          | Some n =>
              match make_dirs n p' with
              | Some n' => Some (Dir (set_entry s n' es))
              | None => None
              end
          | None =>
              match make_dirs (Dir []) p' with
              | Some n' => Some (Dir (es ++ [(s, n')]))
              | None => None
              end
          end
      | _ => None
      end
  end.

Definition write_text (p : path) (content : string) : io unit :=
  fun fs =>
    match write_file fs p content with
    | Some fs' => (Ok tt, fs', [Wrote p content])
    | None => (Raise (OSError p), fs, [])
    end.

Definition mkdir (p : path) : io unit :=
  fun fs =>
    match make_dirs fs p with
    | Some fs' => (Ok tt, fs', [MadeDir p])
    | None => (Raise (OSError p), fs, [])
    end.

(** [for x in xs: body(x)] *)
Fixpoint for_each {A : Type} (body : A -> io unit) (xs : list A) : io unit :=
  match xs with
  | [] => ret tt
  | x :: xs' => body x ;;; for_each body xs'
  end.

(** [for x in xs: out.append(body(x))] *)
Fixpoint for_collect {A B : Type} (body : A -> io B) (xs : list A) : io (list B) :=
  match xs with
  | [] => ret []
  | x :: xs' => y <~ body x ;; ys <~ for_collect body xs' ;; ret (y :: ys)
  end.

(** ** The builders and the entry point *)

(** [p.relative_to(base)]: the segments of [p] after [base]. *)
Fixpoint relative_to (p base : path) : result path :=
  match base, p with
  | [], _ => Ok p
  | b :: base', s :: p' => if String.eqb b s then relative_to p' base' else Raise ValueError
  | _ :: _, [] => Raise ValueError
  end.

(** [p.as_posix()] for a relative path. *)
Definition as_posix (p : path) : string :=
  match p with
  | [] => "."
  | _ => String.concat "/" p
  end.

(** An entry of the index: [(rel, report_rel, img_count)]. *)
Definition item : Type := string * string * nat.

Definition item_leb (lower : string -> string) (x y : item) : bool :=
  String.leb (lower x.1.1) (lower y.1.1).

(** [make_html(prefix_to_outputs)] over the sorted [items]. *)
Definition make_html (items : list item) (prefix_to_outputs : string) : string :=
  let lis :=
    map (fun it : item =>
           let '(rel, report_rel, img_count) := it in
           let href := url_path (prefix_to_outputs :: Str.split "/" report_rel) in
           let label := html_escape rel in
           index_li href label img_count) items in
  index_page (match lis with
              | [] => no_reports_li
              | _ => String.concat EmptyString lis
              end).

Section Builders.
Variable lower : string -> string.
Variable csv_reader : string -> list (list string).

Definition build_report (folder : path) : io unit :=
  images <~ read (fun fs => list_images lower fs folder) ;;
  match images with
  | [] => ret tt
  | _ =>
      caps <~ read (fun fs => read_captions csv_reader fs (folder ++ ["captions.csv"])) ;;
      let title := name folder in
      let cards :=
        map (fun img => card (name img) (default EmptyString (caps !! name img))) images in
      let page := report_page title (length images) cards in
      write_text (folder ++ ["report.html"]) page ;;;
      print (report_built +:+ path_str (folder ++ ["report.html"]))
  end.

Definition index_item (outputs_dir folder : path) : io item :=
  rel <~ read (fun _ => p <- relative_to folder outputs_dir ;; Ok (as_posix p)) ;;
  let report_rel := rel +:+ "/report.html" in
  images <~ read (fun fs => list_images lower fs folder) ;;
  ret (rel, report_rel, length images).

Definition build_index_pages (root : path) (report_folders : list path) : io unit :=
  let outputs_dir := root ++ ["outputs"] in
  let site_dir := root ++ ["site"] in
  mkdir site_dir ;;;
  items <~ for_collect (index_item outputs_dir) report_folders ;;
  let items := sorted (item_leb lower) items in
  write_text (site_dir ++ ["index.html"]) (make_html items "../outputs") ;;;
  print (index_built +:+ path_str (site_dir ++ ["index.html"])) ;;;
  write_text (root ++ ["index.html"]) (make_html items "outputs") ;;;
  print (index_built +:+ path_str (root ++ ["index.html"])).

(** [main()], with [root] the project directory the script resolves. *)
Definition main (root : path) : io unit :=
  let outputs_dir := root ++ ["outputs"] in
  ex <~ read (fun fs => Ok (exists_ fs outputs_dir)) ;;
  if negb ex then raise (SystemExit exit_message)
  else
    report_folders <~ read (fun fs => find_report_folders lower fs outputs_dir) ;;
    for_each build_report report_folders ;;;
    build_index_pages root report_folders ;;;
    print done_message.

End Builders.

(** ** Notions used to state the properties *)

(** [walk] over the entries of a directory. *)
Fixpoint walk_entries (p : path) (es : list (string * node)) : list path :=
  match es with
  | [] => []
  | (nm, c) :: es' => (p ++ [nm]) :: walk (p ++ [nm]) c ++ walk_entries p es'
  end.

Definition path_lt (p q : path) : Prop := path_leb p q = true /\ p <> q.

(** A well-formed filesystem: no directory lists a name twice. *)
Fixpoint wfb (n : node) : bool :=
  match n with
  | Dir es =>
      bool_decide (NoDup (map fst es))
      && forallb (fun e : string * node => let (_, c) := e in wfb c) es
  | _ => true
  end.

Definition wf (n : node) : Prop := wfb n = true.

(** What [stat] and [read] can observe at a path. *)
Inductive kind : Type :=
| KAbsent
| KFile (content : string)
| KDir
| KOther.

Definition stat (fs : node) (p : path) : kind :=
  match lookup_path fs p with
  | None => KAbsent
  | Some (File c) => KFile c
  | Some (Dir _) => KDir
  | Some Other => KOther
  end.

(** [bool(list_images(d))] *)
Definition has_images (lower : string -> string) (fs : node) (d : path) : bool :=
  match list_images lower fs d with
  | Ok (_ :: _) => true
  | _ => false
  end.

(** [write_text] succeeds on a regular file and on a free name of an
    existing directory. *)
Definition writable (fs : node) (p : path) : Prop :=
  match stat fs p with
  | KFile _ => True
  | KAbsent => p <> [] /\ stat fs (removelast p) = KDir
  | _ => False
  end.

Definition filelike (k : kind) : bool :=
  match k with
  | KAbsent | KFile _ => true
  | _ => false
  end.

Definition dirlike (k : kind) : bool :=
  match k with
  | KAbsent | KDir => true
  | _ => false
  end.

(** Two filesystems agree below [out] when every path there shows the same
    thing in both, except that a [report.html] may be missing or a regular
    file of any content in either. *)
Definition agree (out : path) (fs fs' : node) : Prop :=
  forall r,
    stat fs (out ++ r) = stat fs' (out ++ r)
    \/ (name (out ++ r) = "report.html"
        /\ filelike (stat fs (out ++ r)) = true
        /\ filelike (stat fs' (out ++ r)) = true).

Section RunSpec.
Variable lower : string -> string.
Variable csv_reader : string -> list (list string).

(** The value of [find_report_folders]. *)
Definition report_folders (fs : node) (out : path) : list path :=
  List.filter (has_images lower fs) (sorted path_leb (rglob fs out)).

(** The page [build_report] writes for the folder [d] of [fs]. *)
Definition report_text (fs : node) (d : path) : string :=
  match list_images lower fs d, read_captions csv_reader fs (d ++ ["captions.csv"]) with
  | Ok images, Ok caps =>
      report_page (name d) (length images)
        (map (fun img => card (name img) (default EmptyString (caps !! name img))) images)
  | _, _ => EmptyString
  end.

Definition report_events (fs : node) (d : path) : list event :=
  [ Wrote (d ++ ["report.html"]) (report_text fs d);
    Printed (report_built +:+ path_str (d ++ ["report.html"])) ].

(** The index entry of the folder [d]. *)
Definition item_of (fs : node) (out d : path) : item :=
  match relative_to d out, list_images lower fs d with
  | Ok r, Ok images => (as_posix r, as_posix r +:+ "/report.html", length images)
  | _, _ => (EmptyString, EmptyString, 0)
  end.

Definition index_items (fs : node) (out : path) : list item :=
  sorted (item_leb lower) (map (item_of fs out) (report_folders fs out)).

Definition index_log (items : list item) (root : path) : list event :=
  [ MadeDir (root ++ ["site"]);
    Wrote ((root ++ ["site"]) ++ ["index.html"]) (make_html items "../outputs");
    Printed (index_built +:+ path_str ((root ++ ["site"]) ++ ["index.html"]));
    Wrote (root ++ ["index.html"]) (make_html items "outputs");
    Printed (index_built +:+ path_str (root ++ ["index.html"])) ].

Definition index_events (fs : node) (root : path) : list event :=
  index_log (index_items fs (root ++ ["outputs"])) root.

(** The log of a complete run. *)
Definition main_events (fs : node) (root : path) : list event :=
  flat_map (report_events fs) (report_folders fs (root ++ ["outputs"]))
  ++ index_events fs root ++ [Printed done_message].

(** What is observable after a complete run. *)
Definition final_stat (fs : node) (root : path) (q : path) : kind :=
  let out := root ++ ["outputs"] in
  let items := index_items fs out in
  if decide (q = root ++ ["index.html"]) then KFile (make_html items "outputs")
  else if decide (q = (root ++ ["site"]) ++ ["index.html"]) then
    KFile (make_html items "../outputs")
  else if decide (q = root ++ ["site"]) then KDir
  else match List.find (fun d => bool_decide (d ++ ["report.html"] = q))
               (report_folders fs out) with
       | Some d => KFile (report_text fs d)
       | None => stat fs q
       end.

(** No filesystem operation of the run on [d] fails: [captions.csv] is a
    regular file or missing, and so is [report.html]. *)
Definition folder_ok (fs : node) (d : path) : bool :=
  filelike (stat fs (d ++ ["captions.csv"]))
  && filelike (stat fs (d ++ ["report.html"])).

(** No filesystem operation of the run fails. *)
Definition io_ok (fs : node) (root : path) : bool :=
  forallb (folder_ok fs) (report_folders fs (root ++ ["outputs"]))
  && dirlike (stat fs (root ++ ["site"]))
  && filelike (stat fs ((root ++ ["site"]) ++ ["index.html"]))
  && filelike (stat fs (root ++ ["index.html"])).

(** The reports written for the folders [ds]. *)
Definition written (fs0 : node) (ds : list path) (q : path) : option string :=
  match List.find (fun d => bool_decide (d ++ ["report.html"] = q)) ds with
  | Some d => Some (report_text fs0 d)
  | None => None
  end.

End RunSpec.

(** The exit status of the interpreter: 0 after a normal return, 1 after
    [SystemExit] with a message or an uncaught exception. *)
Definition exit_status {A : Type} (r : result A) : nat :=
  match r with
  | Ok _ => 0
  | Raise _ => 1
  end.

(** An index entry carries the relative path of its folder. *)
Definition entry_of (out d : path) (it : item) : Prop :=
  exists r, relative_to d out = Ok r /\ it.1.1 = as_posix r.

(** Two well-formed filesystems that show the same at every path; they may
    list the entries of a directory in different orders. *)
Definition same_view (fs g : node) : Prop :=
  wf fs /\ wf g /\ forall q, stat fs q = stat g q.

(** A computation that depends on the filesystem through what it shows
    only: same result, same log, and final states that show the same. *)
Definition respects {A : Type} (m : io A) : Prop :=
  forall fs g, same_view fs g ->
    (m fs).1.1 = (m g).1.1 /\ (m fs).2 = (m g).2 /\ same_view (m fs).1.2 (m g).1.2.

(** The characters of [s] that satisfy [f], in order. *)
Fixpoint str_filter (f : ascii -> bool) (s : string) : string :=
  match s with
  | EmptyString => EmptyString
  | String a s' => if f a then String a (str_filter f s') else str_filter f s'
  end.

(** The markup of a page: its tag brackets and quotes, in order. *)
Definition markup (s : string) : string := str_filter is_markup s.

(** A card as it stands in the page, once stripped: the link target, the
    escaped file name and the escaped caption in their places. *)
Definition card_html (href alt caption : string) : string :=
  "<figure class=" +:+ DQ +:+ "card" +:+ DQ +:+ ">
              <a href=" +:+ DQ +:+ href +:+ DQ +:+ " target=" +:+ DQ +:+ "_blank" +:+ DQ +:+ " rel=" +:+ DQ +:+ "noopener" +:+ DQ +:+ ">
                <img src=" +:+ DQ +:+ href +:+ DQ +:+ " alt=" +:+ DQ +:+ alt +:+ DQ +:+ ">
              </a>
              <figcaption>" +:+ caption +:+ "</figcaption>
            </figure>".

(** A byte that can be part of a white-space character. *)
Definition white_byte (c : ascii) : bool :=
  Strip.is_ascii_space c || (128 <=? N_of_ascii c)%N.

(** A project tree used to instantiate the theorems: two galleries, one
    with captions, and a folder without images. *)
Definition example_fs : node :=
  Dir [("proj",
        Dir [("outputs",
              Dir [("Gallery",
                    Dir [("b.jpg", File "");
                         ("a.png", File "");
                         ("notes.txt", File "");
                         ("captions.csv",
                          File "filename,caption
a.png,Hello <script>
,dropped
b.jpg
")]);
                   ("X",
                    Dir [("exp2", Dir [("img.PNG", File "")]);
                         ("exp1", Dir [("z & y.webp", File "")]);
                         ("empty", Dir [("readme.md", File "")])])]);
             ("scripts", Dir [("make_reports.py", File "")])])].

(** The outputs directory itself holds an image. *)
Definition root_images_fs : node :=
  Dir [("proj", Dir [("outputs", Dir [("a.png", File "")])])].

(** The first scenario of the specification: a gallery of two images, one
    of them captioned. *)
Definition gallery_fs : node :=
  Dir [("proj",
        Dir [("outputs",
              Dir [("Gallery",
                    Dir [("b.jpg", File "");
                         ("captions.csv", File "filename,caption
a.png,Hello
");
                         ("a.png", File "")])])])].

(** An outputs directory without any image. *)
Definition bare_fs : node :=
  Dir [("proj", Dir [("outputs", Dir [("notes", Dir [("todo.txt", File "")])])])].

(** [fs'] shows what [fs] shows, except that missing directories of [D]
    were made and regular files of [F] created or overwritten. *)
Definition touched (D F : path -> Prop) (fs fs' : node) : Prop :=
  forall q,
    stat fs' q = stat fs q
    \/ (D q /\ stat fs q = KAbsent /\ stat fs' q = KDir)
    \/ (F q /\ filelike (stat fs q) = true /\ exists c, stat fs' q = KFile c).

(** A project in which a run fails: the second folder has a directory in
    the place of [captions.csv], and [site] is a regular file. *)
Definition blocked_fs : node :=
  Dir [("proj",
        Dir [("outputs",
              Dir [("Gallery", Dir [("a.png", File "")]);
                   ("Zoo",
                    Dir [("z.gif", File "");
                         ("captions.csv", Dir [])])]);
             ("site", File "")])].

(** A project whose [outputs] is a regular file. *)
Definition flat_fs : node :=
  Dir [("proj", Dir [("outputs", File "")])].

(** The gallery of [gallery_fs], its entries listed in another order,
    beside a second folder with an image. *)
Definition two_galleries_fs : node :=
  Dir [("proj",
        Dir [("outputs",
              Dir [("Other", Dir [("x.png", File "")]);
                   ("Gallery",
                    Dir [("a.png", File "");
                         ("b.jpg", File "");
                         ("captions.csv", File "filename,caption
a.png,Hello
")])])])].

(** Two folders whose names differ in case only, and a third one. *)
Definition case_fs : node :=
  Dir [("proj",
        Dir [("outputs",
              Dir [("plots", Dir [("p.png", File "")]);
                   ("Plots", Dir [("q.png", File "")]);
                   ("A", Dir [("r.png", File "")])])])].

(** *** Percent-encoding, in the words of the description *)

(** The bytes that stand for themselves beside the slash. *)
Definition unreserved : string :=
  "ABCDEFGHIJKLMNOPQRSTUVWXYZabcdefghijklmnopqrstuvwxyz0123456789_.-~".

Definition hex_digits : string := "0123456789ABCDEF".

(** The [i]-th upper-case hexadecimal digit. *)
Definition hex_char (i : N) : ascii :=
  default "0"%char (String.get (N.to_nat i) hex_digits).

(** One byte: an ASCII letter, a digit, one of [_.-~] and the slash stand
    for themselves; any other byte becomes [%] and its two hexadecimal
    digits. *)
Definition encode_byte (c : ascii) : string :=
  if Str.mem c unreserved || Ascii.eqb c "/" then String c EmptyString
  else String "%" (String (hex_char (N_of_ascii c / 16))
                     (String (hex_char (N_of_ascii c mod 16)) EmptyString)).

(** A string is encoded byte after byte. *)
Fixpoint percent_encode (s : string) : string :=
  match s with
  | EmptyString => EmptyString
  | String c s' => encode_byte c +:+ percent_encode s'
  end.

(** *** The table of captions, in the words of the description *)

(** The position of the last column named [k]. *)
Fixpoint last_index (k : string) (fieldnames : list string) : option nat :=
  match fieldnames with
  | [] => None
  | f :: fieldnames' =>
      match last_index k fieldnames' with
      | Some i => Some (S i)
      | None => if String.eqb f k then Some 0 else None
      end
  end.

(** The field of a record under the column [k]: empty when no column has
    that name and when the record is too short to reach the column. *)
Definition cell (fieldnames row : list string) (k : string) : string :=
  match last_index k fieldnames with
  | Some i => default EmptyString (row !! i)
  | None => EmptyString
  end.

(** The caption of the name [k]: the stripped caption field of the last
    record, blank lines apart, whose stripped file name field is [k];
    records whose stripped file name is empty give nothing. *)
Definition caption_of (records : list (list string)) (k : string) : option string :=
  match records with
  | [] => None
  | fieldnames :: data =>
      match List.find
              (fun row => String.eqb (Strip.strip (cell fieldnames row "filename")) k)
              (rev (List.filter (fun row => negb (Nat.eqb (length row) 0)) data)) with
      | Some row =>
          if String.eqb k EmptyString then None
          else Some (Strip.strip (cell fieldnames row "caption"))
      | None => None
      end
  end.

(** *** Reading the text of a page *)

(** The number of places of [s] at which [pat] starts. *)
Fixpoint count_sub (pat s : string) : nat :=
  match s with
  | EmptyString => 0
  | String _ s' => (if String.prefix pat s then 1 else 0) + count_sub pat s'
  end.

(** Whether [pat] starts [s], when the characters of [s] suffice to tell
    whatever follows them. *)
Fixpoint decide_prefix (pat s : string) : option bool :=
  match pat with
  | EmptyString => Some true
  | String a pat' =>
      match s with
      | EmptyString => None
      | String b s' => if Ascii.eqb a b then decide_prefix pat' s' else Some false
      end
  end.

(** The number of places of [s] at which [pat] starts, when that does not
    depend on what follows [s]. *)
Fixpoint count_within (pat s : string) : option nat :=
  match s with
  | EmptyString => Some 0
  | String _ s' =>
      match decide_prefix pat s, count_within pat s' with
      | Some b, Some n => Some ((if b then 1 else 0) + n)
      | _, _ => None
      end
  end.

(** The number a decimal numeral stands for. *)
Definition digit_value (c : ascii) : option nat :=
  let n := nat_of_ascii c in
  if (48 <=? n) && (n <=? 57) then Some (n - 48) else None.

Fixpoint read_decimal_from (acc : nat) (s : string) : option nat :=
  match s with
  | EmptyString => Some acc
  | String c s' =>
      match digit_value c with
      | Some d => read_decimal_from (10 * acc + d) s'
      | None => None
      end
  end.

Definition read_decimal (s : string) : option nat :=
  match s with
  | EmptyString => None
  | _ => read_decimal_from 0 s
  end.

(** [x] stands somewhere in [s]. *)
Definition occurs_in (x s : string) : Prop :=
  exists before after, s = before +:+ x +:+ after.

(** * Properties *)

(** ** The embedding on concrete inputs *)

Example html_escape_example :
  html_escape "<a href='x'>Tom & Jerry</a>"
  = "&lt;a href=&#x27;x&#x27;&gt;Tom &amp; Jerry&lt;/a&gt;".
Proof. reflexivity. Qed.

Example quote_example : quote "Modeling outputs/é~1.png" = "Modeling%20outputs/%C3%A9~1.png".
Proof. reflexivity. Qed.

Example url_path_example :
  url_path ["../outputs"; "Modeling outputs"; "report.html"]
  = "../outputs/Modeling%20outputs/report.html".
Proof. reflexivity. Qed.

Example split_example : Str.split "/" "a//b/" = ["a"; ""; "b"; ""].
Proof. reflexivity. Qed.

Example suffix_examples :
  suffix_of "plot.final.PNG" = ".PNG" /\ suffix_of ".png" = ""
  /\ suffix_of "png." = "" /\ suffix_of "README" = "".
Proof. repeat split. Qed.

Example strip_example :
  Strip.strip (" " +:+ NL +:+ "  two words " +:+ NL) = "two words".
Proof. reflexivity. Qed.

Example path_order_example :
  sorted path_leb [["a"; "c"]; ["a b"]; ["a"]; ["B"]] = [["B"]; ["a"]; ["a"; "c"]; ["a b"]].
Proof. reflexivity. Qed.

Example index_order_example :
  sorted (item_leb ascii_lower) [("b", "", 1); ("B", "", 2); ("a", "", 3); ("C", "", 4)]
  = [("a", "", 3); ("b", "", 1); ("B", "", 2); ("C", "", 4)].
Proof. reflexivity. Qed.

Example dict_reader_example :
  (fun row => (get_or_empty row "filename", get_or_empty row "caption"))
    <$> dict_reader [["caption"; "filename"; "extra"]; ["c1"; "f1"; "x"; "y"]; []; ["c2"]]
  = [("f1", "c1"); ("", "c2")].
Proof. by vm_compute. Qed.

(** A gallery with one caption: two cards, the first captioned, the second
    with the empty caption. *)
Example gallery_scenario :
  exists fs',
    build_report ascii_lower csv_plain ["proj"; "outputs"; "Gallery"] gallery_fs
    = (Ok tt, fs',
       [ Wrote ["proj"; "outputs"; "Gallery"; "report.html"]
               (report_page "Gallery" 2 [card "a.png" "Hello"; card "b.jpg" ""]);
         Printed (report_built +:+ "/proj/outputs/Gallery/report.html") ]).
Proof. eexists. by vm_compute. Qed.

(** Captions are looked up by the exact file name. *)
Example caption_case_scenario :
  let caps := fold_left caption_step
                (dict_reader (csv_plain ("filename,caption" +:+ NL +:+ "img_1.PNG,Cap" +:+ NL)))
                (∅ : gmap string string) in
  caps !! "img_1.PNG" = Some "Cap" /\ caps !! "img_1.png" = None.
Proof. by vm_compute. Qed.

(** Nested folders are discovered on their own, their parent is not. *)
Example nested_scenario :
  find_report_folders ascii_lower
    (Dir [("outputs", Dir [("X", Dir [("exp2", Dir [("img.png", File "")]);
                                       ("exp1", Dir [("img.png", File "")])])])])
    ["outputs"]
  = Ok [["outputs"; "X"; "exp1"]; ["outputs"; "X"; "exp2"]].
Proof. by vm_compute. Qed.

(** Without any image both index pages hold the placeholder and no report
    is written. *)
Example no_reports_scenario :
  exists fs',
    main ascii_lower csv_plain ["proj"] bare_fs
    = (Ok tt, fs',
       [ MadeDir ["proj"; "site"];
         Wrote ["proj"; "site"; "index.html"] (index_page no_reports_li);
         Printed (index_built +:+ "/proj/site/index.html");
         Wrote ["proj"; "index.html"] (index_page no_reports_li);
         Printed (index_built +:+ "/proj/index.html");
         Printed done_message ]).
Proof. eexists. by vm_compute. Qed.

(** Without the outputs directory nothing is written. *)
Example missing_outputs_scenario :
  main ascii_lower csv_plain ["elsewhere"] bare_fs
  = (Raise (SystemExit exit_message), bare_fs, []).
Proof. reflexivity. Qed.

(** ** Characters and strings *)

Lemma str_app_nil_r (s : string) : s +:+ "" = s.
Proof. induction s; simpl; unfold String.app in *; simpl; congruence. Qed.

Lemma str_app_cons (a : ascii) (s t : string) : String a s +:+ t = String a (s +:+ t).
Proof. reflexivity. Qed.

Lemma str_app_assoc (s t u : string) : (s +:+ t) +:+ u = s +:+ (t +:+ u).
Proof. induction s as [|a s IH]; [reflexivity|]. rewrite !str_app_cons. by rewrite IH. Qed.

Lemma str_count_app c (s t : string) : Str.count c (s +:+ t) = Str.count c s + Str.count c t.
Proof.
  induction s as [|a s IH]; [reflexivity|].
  rewrite str_app_cons. simpl. rewrite IH. lia.
Qed.

Lemma str_all_app f (s t : string) : Str.all f (s +:+ t) = Str.all f s && Str.all f t.
Proof.
  induction s as [|a s IH]; [reflexivity|].
  rewrite str_app_cons. simpl. rewrite IH. by rewrite andb_assoc.
Qed.

Lemma str_mem_count c s : Str.mem c s = false <-> Str.count c s = 0.
Proof.
  induction s as [|a s IH]; simpl; [done|].
  destruct (Ascii.eqb a c); simpl; [split; [done|lia]|done].
Qed.

Ltac ascii_cases c := destruct c as [[|] [|] [|] [|] [|] [|] [|] [|]].

Lemma concat_cons_cons (sep x y : string) (l : list string) :
  String.concat sep (x :: y :: l) = x +:+ sep +:+ String.concat sep (y :: l).
Proof. reflexivity. Qed.

Lemma replace_char_app c r (s t : string) :
  Str.replace_char c r (s +:+ t) = Str.replace_char c r s +:+ Str.replace_char c r t.
Proof.
  induction s as [|a s IH]; [reflexivity|].
  rewrite str_app_cons. simpl. destruct (Ascii.eqb a c).
  - by rewrite IH, str_app_assoc.
  - by rewrite IH.
Qed.

(** [html.escape] works character by character. *)
Lemma html_escape_cons (c : ascii) (s : string) :
  html_escape (String c s) = escape_char c +:+ html_escape s.
Proof.
  unfold html_escape.
  change (String c s) with (Str.chr c +:+ s).
  rewrite !replace_char_app. f_equal.
  ascii_cases c; reflexivity.
Qed.

Lemma html_escape_app (s t : string) :
  html_escape (s +:+ t) = html_escape s +:+ html_escape t.
Proof.
  induction s as [|a s IH]; [reflexivity|].
  rewrite str_app_cons, !html_escape_cons, IH. by rewrite str_app_assoc.
Qed.

Lemma escape_char_no_markup (c : ascii) :
  Str.all (fun x => negb (is_markup x)) (escape_char c) = true.
Proof. ascii_cases c; reflexivity. Qed.

(** The escaped text holds no tag bracket and no quote. *)
Lemma html_escape_no_markup (s : string) :
  Str.all (fun x => negb (is_markup x)) (html_escape s) = true.
Proof.
  induction s as [|a s IH]; [reflexivity|].
  rewrite html_escape_cons, str_all_app, escape_char_no_markup, IH. reflexivity.
Qed.

Lemma quoter_url_chars (c : ascii) : Str.all is_url_char (quoter "/" c) = true.
Proof. ascii_cases c; reflexivity. Qed.

Lemma quote_cons (c : ascii) (s : string) :
  quote (String c s) = quoter "/" c +:+ quote s.
Proof. reflexivity. Qed.

Lemma quote_app (s t : string) : quote (s +:+ t) = quote s +:+ quote t.
Proof.
  induction s as [|a s IH]; [reflexivity|].
  rewrite str_app_cons, !quote_cons, IH. by rewrite str_app_assoc.
Qed.

(** [quote] produces unreserved characters, slashes and percent escapes. *)
Lemma quote_url_chars (s : string) : Str.all is_url_char (quote s) = true.
Proof.
  induction s as [|a s IH]; [reflexivity|].
  rewrite quote_cons, str_all_app, quoter_url_chars, IH. reflexivity.
Qed.

Lemma url_char_no_markup (c : ascii) : is_url_char c = true -> is_markup c = false.
Proof. ascii_cases c; vm_compute; congruence. Qed.

Lemma all_impl (f g : ascii -> bool) (s : string) :
  (forall c, f c = true -> g c = true) -> Str.all f s = true -> Str.all g s = true.
Proof.
  intros Hfg. induction s as [|a s IH]; [done|]. simpl.
  intros [Ha Hs]%andb_true_iff. by rewrite (Hfg _ Ha), IH.
Qed.

Lemma quoter_count_slash (c : ascii) :
  Str.count "/" (quoter "/" c) = Str.count "/" (Str.chr c).
Proof. ascii_cases c; reflexivity. Qed.

(** [quote] neither adds nor removes a slash. *)
Lemma quote_count_slash (s : string) : Str.count "/" (quote s) = Str.count "/" s.
Proof.
  induction s as [|a s IH]; [reflexivity|].
  rewrite quote_cons, str_count_app, quoter_count_slash, IH. simpl. lia.
Qed.

Lemma url_path_cons (p q : string) (parts : list string) :
  url_path (p :: q :: parts) = quote p +:+ "/" +:+ url_path (q :: parts).
Proof. reflexivity. Qed.

Lemma url_path_count_slash (parts : list string) :
  Str.count "/" (url_path parts)
  = list_sum (map (Str.count "/") parts) + (length parts - 1).
Proof.
  induction parts as [|p [|q parts] IH]; [reflexivity| |].
  - unfold url_path. simpl. rewrite quote_count_slash. lia.
  - rewrite url_path_cons, !str_count_app, quote_count_slash, IH.
    simpl. lia.
Qed.

(** C2 (as stated) fails: a slash inside one segment is kept as it is, so
    the result holds a slash although a single segment has no separator. *)
Lemma url_path_slash_in_segment :
  url_path ["a/b"] = "a/b"
  /\ Str.count "/" (url_path ["a/b"]) <> length ["a/b" : string] - 1.
Proof. split; [reflexivity | vm_compute; lia]. Qed.

(** ** The order of strings and of paths *)

Lemma compare_refl (s : string) : String.compare s s = Eq.
Proof.
  pose proof (String.compare_antisym s s) as H.
  destruct (String.compare s s); simpl in H; congruence.
Qed.

Lemma leb_trans (a b c : string) :
  String.leb a b = true -> String.leb b c = true -> String.leb a c = true.
Proof.
  intros H1 H2. apply Is_true_true.
  apply Is_true_true in H1, H2.
  exact (transitivity (R := String.le) H1 H2).
Qed.

Lemma compare_lt_leb (a b : string) :
  String.compare a b = Lt <-> String.leb a b = true /\ a <> b.
Proof.
  unfold String.leb. split.
  - intros H. rewrite H. split; [done|]. intros ->. by rewrite compare_refl in H.
  - intros [H Hne]. destruct (String.compare a b) eqn:E; [|done|done].
    by apply String.compare_eq_iff in E.
Qed.

Lemma compare_lt_trans (a b c : string) :
  String.compare a b = Lt -> String.compare b c = Lt -> String.compare a c = Lt.
Proof.
  rewrite !compare_lt_leb. intros [H1 N1] [H2 N2]. split.
  - by eapply leb_trans.
  - intros ->. apply N1. by apply String.leb_antisym.
Qed.

Lemma path_leb_refl (p : path) : path_leb p p = true.
Proof. induction p as [|a p IH]; [done|]. simpl. by rewrite compare_refl. Qed.

Lemma path_leb_total (p q : path) : path_leb p q = true \/ path_leb q p = true.
Proof.
  revert q. induction p as [|a p IH]; intros [|b q]; simpl; auto.
  rewrite (String.compare_antisym b a).
  destruct (String.compare a b); simpl; auto.
Qed.

Lemma path_leb_antisym (p q : path) :
  path_leb p q = true -> path_leb q p = true -> p = q.
Proof.
  revert q. induction p as [|a p IH]; intros [|b q]; simpl; try done.
  rewrite (String.compare_antisym b a).
  destruct (String.compare a b) eqn:E; simpl; try done.
  apply String.compare_eq_iff in E as ->. intros H1 H2. f_equal. by apply IH.
Qed.

Lemma path_leb_trans (p q r : path) :
  path_leb p q = true -> path_leb q r = true -> path_leb p r = true.
Proof.
  revert q r. induction p as [|a p IH]; intros [|b q] [|c r]; simpl; try done.
  destruct (String.compare a b) eqn:E1; try done.
  - apply String.compare_eq_iff in E1 as ->.
    destruct (String.compare b c); try done. apply IH.
  - destruct (String.compare b c) eqn:E2; try done.
    + apply String.compare_eq_iff in E2 as ->. by rewrite E1.
    + by rewrite (compare_lt_trans _ _ _ E1 E2).
Qed.

(** Below a common folder the order of paths is the order of the rest. *)
Lemma path_leb_app (p q r : path) : path_leb (p ++ q) (p ++ r) = path_leb q r.
Proof. induction p as [|a p IH]; [done|]. simpl. by rewrite compare_refl. Qed.

Lemma path_leb_single (a b : string) : path_leb [a] [b] = String.leb a b.
Proof. simpl. unfold String.leb. by destruct (String.compare a b). Qed.

(** ** [sorted] *)

Lemma filter_strongly_sorted {A : Type} (R : A -> A -> Prop) (f : A -> bool) (l : list A) :
  StronglySorted R l -> StronglySorted R (List.filter f l).
Proof.
  induction 1 as [|y l Hl IH Hy]; simpl; [constructor|].
  destruct (f y); [|done]. constructor; [done|].
  apply List.Forall_forall. intros z [Hz _]%filter_In.
  rewrite List.Forall_forall in Hy. by apply Hy.
Qed.

Section SortedFacts.
Context {A : Type} (leb : A -> A -> bool).
Hypothesis leb_total : forall x y, leb x y = true \/ leb y x = true.
Hypothesis leb_trans : forall x y z, leb x y = true -> leb y z = true -> leb x z = true.

Let le (x y : A) : Prop := leb x y = true.

Lemma insort_perm (x : A) (l : list A) : insort leb x l ≡ₚ x :: l.
Proof.
  induction l as [|y l IH]; [done|]. simpl.
  destruct (leb x y); [done|]. rewrite IH. apply perm_swap.
Qed.

Lemma sorted_perm (l : list A) : sorted leb l ≡ₚ l.
Proof.
  induction l as [|x l IH]; [done|]. simpl. by rewrite insort_perm, IH.
Qed.

Lemma insort_sorted (x : A) (l : list A) :
  StronglySorted le l -> StronglySorted le (insort leb x l).
Proof.
  induction 1 as [|y l Hl IH Hy]; simpl.
  - repeat constructor.
  - destruct (leb x y) eqn:E.
    + constructor; [by constructor|]. constructor; [done|].
      eapply Forall_impl; [exact Hy|]. intros z Hz. by eapply leb_trans.
    + constructor; [done|].
      assert (le y x) by (destruct (leb_total x y); [congruence|done]).
      rewrite (insort_perm x l). by constructor.
Qed.

Lemma sorted_sorted (l : list A) : StronglySorted le (sorted leb l).
Proof.
  induction l as [|x l IH]; simpl; [constructor|by apply insort_sorted].
Qed.

Lemma sorted_In (l : list A) (x : A) : In x (sorted leb l) <-> In x l.
Proof. rewrite <- !list_elem_of_In. by rewrite sorted_perm. Qed.

Hypothesis leb_antisym : forall x y, leb x y = true -> leb y x = true -> x = y.

Lemma strongly_sorted_unique (l1 l2 : list A) :
  StronglySorted le l1 -> StronglySorted le l2 -> l1 ≡ₚ l2 -> l1 = l2.
Proof.
  apply StronglySorted_unique_strong. intros x y _ _. apply leb_antisym.
Qed.

(** The result of [sorted] does not depend on the order of its input. *)
Lemma sorted_perm_eq (l1 l2 : list A) : l1 ≡ₚ l2 -> sorted leb l1 = sorted leb l2.
Proof.
  intros H. apply strongly_sorted_unique; try apply sorted_sorted.
  by rewrite !sorted_perm.
Qed.

Lemma sorted_NoDup_lt (l : list A) :
  NoDup l -> StronglySorted (fun x y => leb x y = true /\ x <> y) (sorted leb l).
Proof.
  intros Hnd. rewrite <- (sorted_perm l) in Hnd.
  pose proof (sorted_sorted l) as Hs.
  induction Hs as [|y l' Hl IH Hy]; [constructor|].
  apply NoDup_cons in Hnd as [Hy' Hnd]. constructor; [by apply IH|].
  apply List.Forall_forall. intros z Hz. split.
  - by eapply List.Forall_forall in Hy.
  - intros ->. by apply Hy', list_elem_of_In.
Qed.

End SortedFacts.

(** ** The filesystem *)

Lemma node_rect' (P : node -> Prop) :
  (forall c, P (File c)) -> P Other ->
  (forall es, Forall (fun e => P e.2) es -> P (Dir es)) ->
  forall n, P n.
Proof.
  intros Hf Ho Hd. fix IH 1. intros [c|es|]; [apply Hf| |apply Ho].
  apply Hd. induction es as [|[k c] es IHes]; constructor; [apply IH|exact IHes].
Qed.

Lemma find_entry_In (nm : string) (es : list (string * node)) (n : node) :
  find_entry nm es = Some n -> In (nm, n) es.
Proof.
  induction es as [|[k m] es IH]; [done|]. simpl.
  destruct (String.eqb_spec k nm) as [->|_].
  - intros [= <-]. by left.
  - intros H. right. by apply IH.
Qed.

Lemma find_entry_None (nm : string) (es : list (string * node)) :
  find_entry nm es = None <-> ~ In nm (map fst es).
Proof.
  induction es as [|[k m] es IH]; [split; [tauto|done]|]. simpl.
  destruct (String.eqb_spec k nm) as [->|Hne].
  - split; [done|]. intros H. destruct H. by left.
  - rewrite IH. tauto.
Qed.

Lemma find_entry_NoDup (nm : string) (es : list (string * node)) (n : node) :
  NoDup (map fst es) -> In (nm, n) es -> find_entry nm es = Some n.
Proof.
  induction es as [|[k m] es IH]; [done|]. simpl.
  intros [Hk Hnd]%NoDup_cons [[= -> ->]|Hin].
  - by rewrite String.eqb_refl.
  - destruct (String.eqb_spec k nm) as [->|_]; [|by apply IH].
    destruct Hk. apply list_elem_of_In, in_map_iff. by exists (nm, n).
Qed.

Lemma lookup_path_app (fs : node) (p q : path) :
  lookup_path fs (p ++ q)
  = match lookup_path fs p with
    | Some n => lookup_path n q
    | None => None
    end.
Proof.
  revert fs. induction p as [|s p IH]; intros fs; [done|]. simpl.
  destruct fs as [|es|]; try done. destruct (find_entry s es); [apply IH|done].
Qed.

Lemma lookup_path_snoc (fs : node) (p : path) (nm : string) :
  lookup_path fs (p ++ [nm])
  = match lookup_path fs p with
    | Some (Dir es) => find_entry nm es
    | _ => None
    end.
Proof.
  rewrite lookup_path_app. destruct (lookup_path fs p) as [[|es|]|]; try done.
  simpl. by destruct (find_entry nm es).
Qed.

Lemma wf_Dir (es : list (string * node)) :
  wf (Dir es) <-> NoDup (map fst es) /\ Forall (fun e => wf e.2) es.
Proof.
  unfold wf. simpl. rewrite andb_true_iff, bool_decide_eq_true, forallb_forall.
  rewrite List.Forall_forall. split; intros [H1 H2]; split; try done.
  - intros [k c] Hin. exact (H2 _ Hin).
  - intros [k c] Hin. exact (H2 _ Hin).
Qed.

Lemma wf_lookup (fs : node) (p : path) (n : node) :
  wf fs -> lookup_path fs p = Some n -> wf n.
Proof.
  revert fs. induction p as [|s p IH]; intros fs Hwf; simpl.
  { intros [= <-]. exact Hwf. }
  destruct fs as [|es|]; try done.
  destruct (find_entry s es) as [m|] eqn:E; [|done].
  apply IH. apply wf_Dir in Hwf as [_ Hall].
  apply find_entry_In in E. rewrite List.Forall_forall in Hall. exact (Hall _ E).
Qed.

(** *** [walk] and [rglob] *)

Lemma walk_Dir (p : path) (es : list (string * node)) :
  walk p (Dir es) = walk_entries p es.
Proof. simpl. induction es as [|[nm c] es IH]; [done|]. by rewrite IH. Qed.

Lemma walk_entries_In (p q : path) (es : list (string * node)) :
  In q (walk_entries p es)
  <-> exists nm c, In (nm, c) es /\ (q = p ++ [nm] \/ In q (walk (p ++ [nm]) c)).
Proof.
  induction es as [|[k m] es IH]; simpl.
  - split; [done|]. by intros (? & ? & [] & _).
  - rewrite in_app_iff, IH. split.
    + intros [<-|[H|(nm & c & Hin & H')]].
      * exists k, m. auto.
      * exists k, m. auto.
      * exists nm, c. auto.
    + intros (nm & c & Hor & H). destruct Hor as [[= <- <-]|Hin].
      * destruct H as [->|H]; auto.
      * right. right. by exists nm, c.
Qed.

(** Everything [walk] lists lies strictly below its starting point. *)
Lemma walk_below (p q : path) (n : node) :
  In q (walk p n) -> exists r, r <> [] /\ q = p ++ r.
Proof.
  revert p. induction n as [c| |es IH] using node_rect'; intros p; try done.
  rewrite walk_Dir, walk_entries_In. intros (nm & c & Hin & [->|H]).
  - by exists [nm].
  - eapply List.Forall_forall in IH; [|exact Hin].
    apply IH in H as (r & Hr & ->). exists (nm :: r). split; [done|].
    by rewrite <- app_assoc.
Qed.

(** Every path that resolves below the starting point is listed. *)
Lemma walk_complete (p r : path) (n : node) :
  r <> [] -> lookup_path n r <> None -> In (p ++ r) (walk p n).
Proof.
  revert p n. induction r as [|s r IH]; intros p n Hr; [done|]. simpl.
  destruct n as [|es|]; try done.
  destruct (find_entry s es) as [m|] eqn:E; [|done]. intros Hl.
  rewrite walk_Dir, walk_entries_In. exists s, m. split; [by apply find_entry_In|].
  destruct r as [|s' r]; [by left|]. right.
  replace (p ++ s :: s' :: r) with ((p ++ [s]) ++ s' :: r) by by rewrite <- app_assoc.
  by apply IH.
Qed.

Lemma walk_entries_NoDup (p : path) (es : list (string * node)) :
  NoDup (map fst es) ->
  Forall (fun e => forall p, NoDup (walk p e.2)) es ->
  NoDup (walk_entries p es).
Proof.
  induction es as [|[k m] es IH]; simpl; [constructor|].
  intros [Hk Hnd]%NoDup_cons [Hm Hall]%Forall_cons. simpl in Hm.
  assert (Hsplit : forall q nm c, In (nm, c) es ->
            q = p ++ [nm] \/ In q (walk (p ++ [nm]) c) ->
            exists r, q = p ++ nm :: r).
  { intros q nm c _ [->|(r & _ & ->)%walk_below]; [by exists []|].
    exists r. by rewrite <- app_assoc. }
  assert (Hk' : forall q r, q = p ++ k :: r -> ~ In q (walk_entries p es)).
  { intros q r -> (nm & c & Hin & H)%walk_entries_In.
    destruct (Hsplit _ _ _ Hin H) as (r' & Heq).
    apply app_inv_head in Heq. injection Heq as -> _.
    apply Hk, list_elem_of_In, in_map_iff. by exists (nm, c). }
  apply NoDup_cons. split.
  - rewrite list_elem_of_In. simpl. rewrite in_app_iff. intros [H|H].
    + apply walk_below in H as (r & Hr & Heq).
      rewrite <- app_assoc in Heq. apply app_inv_head in Heq.
      destruct r; [done|]. by injection Heq.
    + by eapply (Hk' _ []).
  - apply NoDup_app. split; [apply Hm|]. split; [|by apply IH].
    intros q Hq%list_elem_of_In Hq'%list_elem_of_In.
    apply walk_below in Hq as (r & _ & ->). rewrite <- app_assoc in Hq'.
    by eapply Hk'.
Qed.

Lemma walk_NoDup (p : path) (n : node) : wf n -> NoDup (walk p n).
Proof.
  revert p. induction n as [c| |es IH] using node_rect'; intros p Hwf;
    try constructor.
  apply wf_Dir in Hwf as [Hnd Hall]. rewrite walk_Dir.
  apply walk_entries_NoDup; [done|].
  apply List.Forall_forall. intros e He q.
  eapply List.Forall_forall in IH; [|exact He].
  eapply List.Forall_forall in Hall; [|exact He]. by apply IH.
Qed.

Lemma rglob_below (fs : node) (p q : path) :
  In q (rglob fs p) -> exists r, r <> [] /\ q = p ++ r.
Proof.
  unfold rglob. destruct (lookup_path fs p); [apply walk_below|done].
Qed.

Lemma rglob_complete (fs : node) (p r : path) :
  r <> [] -> exists_ fs (p ++ r) = true -> In (p ++ r) (rglob fs p).
Proof.
  unfold rglob, exists_. rewrite lookup_path_app.
  destruct (lookup_path fs p) as [n|]; [|done]. intros Hr Hl.
  apply walk_complete; [done|]. by destruct (lookup_path n r).
Qed.

Lemma rglob_NoDup (fs : node) (p : path) : wf fs -> NoDup (rglob fs p).
Proof.
  intros Hwf. unfold rglob. destruct (lookup_path fs p) as [n|] eqn:E.
  - apply walk_NoDup. by eapply wf_lookup.
  - constructor.
Qed.

(** ** The image lister *)

Section ListerFacts.
Variable lower : string -> string.

Lemma iterdir_Dir (fs : node) (folder : path) (es : list (string * node)) :
  lookup_path fs folder = Some (Dir es) ->
  iterdir fs folder = Ok (map (fun e => folder ++ [e.1]) es).
Proof. unfold iterdir. by intros ->. Qed.

Lemma is_dir_lookup (fs : node) (p : path) :
  is_dir fs p = true <-> exists es, lookup_path fs p = Some (Dir es).
Proof.
  unfold is_dir. destruct (lookup_path fs p) as [[| |]|]; split; try done;
    try (by intros (? & [=])). by eexists.
Qed.

Lemma is_file_lookup (fs : node) (p : path) :
  is_file fs p = true <-> exists c, lookup_path fs p = Some (File c).
Proof.
  unfold is_file. destruct (lookup_path fs p) as [[| |]|]; split; try done;
    try (by intros (? & [=])). by eexists.
Qed.

Lemma list_images_Dir (fs : node) (folder : path) (es : list (string * node)) :
  lookup_path fs folder = Some (Dir es) ->
  list_images lower fs folder
  = Ok (sorted path_leb
          (List.filter (is_image lower fs) (map (fun e => folder ++ [e.1]) es))).
Proof. intros H. unfold list_images. by rewrite (iterdir_Dir _ _ _ H). Qed.

(** On a directory the lister returns; its result holds exactly the direct
    children that are images. *)
Lemma list_images_In (fs : node) (folder : path) :
  is_dir fs folder = true ->
  exists imgs, list_images lower fs folder = Ok imgs
    /\ forall q, In q imgs
         <-> exists nm, q = folder ++ [nm] /\ is_image lower fs q = true.
Proof.
  intros (es & Hes)%is_dir_lookup. eexists. split; [by apply list_images_Dir|].
  intros q. rewrite sorted_In, filter_In, in_map_iff. split.
  - intros [([nm c] & <- & Hin) Himg]. by exists nm.
  - intros (nm & -> & Himg). split; [|done].
    pose proof Himg as [(c & Hc)%is_file_lookup _]%andb_true_iff.
    rewrite lookup_path_snoc, Hes in Hc. apply find_entry_In in Hc.
    by exists (nm, File c).
Qed.

Lemma list_images_raises (fs : node) (folder : path) :
  is_dir fs folder = false -> list_images lower fs folder = Raise (OSError folder).
Proof.
  unfold is_dir, list_images, iterdir.
  by destruct (lookup_path fs folder) as [[| |]|].
Qed.

Lemma list_images_sorted (fs : node) (folder : path) (imgs : list path) :
  wf fs -> list_images lower fs folder = Ok imgs ->
  StronglySorted path_lt imgs.
Proof.
  intros Hwf. unfold list_images, iterdir.
  destruct (lookup_path fs folder) as [[|es|]|] eqn:E; try done. simpl.
  intros [= <-]. apply sorted_NoDup_lt.
  - apply path_leb_total.
  - apply path_leb_trans.
  - apply (wf_lookup _ _ _ Hwf), wf_Dir in E as [Hnd _].
    apply NoDup_ListNoDup, List.NoDup_filter, NoDup_ListNoDup.
    rewrite <- (map_map fst (fun nm => folder ++ [nm])).
    apply NoDup_fmap_2; [|done]. intros a b Hab.
    apply app_inv_head in Hab. by injection Hab.
Qed.

Lemma has_images_spec (fs : node) (d : path) :
  has_images lower fs d = true
  <-> is_dir fs d = true /\ exists nm, is_image lower fs (d ++ [nm]) = true.
Proof.
  unfold has_images. destruct (is_dir fs d) eqn:Hd.
  - destruct (list_images_In fs d Hd) as (imgs & -> & Hin).
    destruct imgs as [|q imgs]; split; try done.
    + intros [_ (nm & Hnm)]. destruct (proj2 (Hin (d ++ [nm]))); by eauto.
    + intros _. split; [done|]. destruct (proj1 (Hin q)) as (nm & -> & H);
        [by left|by exists nm].
  - rewrite list_images_raises by done. split; [done|by intros [? _]].
Qed.

(** ** The folder discoverer *)

Lemma collect_report_folders_filter (fs : node) (ds : list path) :
  collect_report_folders lower fs ds
  = Ok (List.filter (has_images lower fs) ds).
Proof.
  induction ds as [|d ds IH]; [done|]. simpl. rewrite IH.
  destruct (is_dir fs d) eqn:Hd.
  - destruct (list_images_In fs d Hd) as (imgs & Himgs & _).
    unfold has_images. rewrite Himgs. simpl. by destruct imgs.
  - unfold has_images. by rewrite list_images_raises.
Qed.

Lemma find_report_folders_filter (fs : node) (outputs_dir : path) :
  find_report_folders lower fs outputs_dir
  = Ok (List.filter (has_images lower fs) (sorted path_leb (rglob fs outputs_dir))).
Proof. apply collect_report_folders_filter. Qed.

Lemma find_report_folders_In (fs : node) (outputs_dir d : path) :
  In d (List.filter (has_images lower fs) (sorted path_leb (rglob fs outputs_dir)))
  <-> (exists r, r <> [] /\ d = outputs_dir ++ r) /\ has_images lower fs d = true.
Proof.
  rewrite filter_In, sorted_In. split.
  - intros [H ?]. split; [by apply rglob_below in H|done].
  - intros [(r & Hr & ->) H]. split; [|done]. apply rglob_complete; [done|].
    apply has_images_spec in H as [(es & Hes)%is_dir_lookup _].
    unfold exists_. by rewrite Hes.
Qed.

Lemma find_report_folders_sorted (fs : node) (outputs_dir : path) :
  wf fs ->
  StronglySorted path_lt
    (List.filter (has_images lower fs) (sorted path_leb (rglob fs outputs_dir))).
Proof.
  intros Hwf. apply filter_strongly_sorted.
  apply sorted_NoDup_lt; [apply path_leb_total|apply path_leb_trans|].
  by apply rglob_NoDup.
Qed.

End ListerFacts.

(** ** Writing to the filesystem *)

Lemma stat_nil (fs : node) :
  stat fs [] = match fs with File c => KFile c | Dir _ => KDir | Other => KOther end.
Proof. reflexivity. Qed.

Lemma stat_cons (fs : node) (k : string) (q : path) :
  stat fs (k :: q)
  = match fs with
    | Dir es => match find_entry k es with Some m => stat m q | None => KAbsent end
    | _ => KAbsent
    end.
Proof.
  unfold stat. simpl. destruct fs as [|es|]; try done.
  by destruct (find_entry k es).
Qed.

Lemma find_entry_set_entry (k s : string) (n : node) (es : list (string * node)) :
  find_entry k (set_entry s n es)
  = if String.eqb s k then match find_entry s es with Some _ => Some n | None => None end
    else find_entry k es.
Proof.
  induction es as [|[a m] es IH]; simpl.
  - by destruct (String.eqb s k).
  - destruct (String.eqb_spec a s) as [->|Has]; simpl.
    + by destruct (String.eqb_spec s k).
    + rewrite IH. destruct (String.eqb_spec a k) as [->|Hak]; [|done].
      by destruct (String.eqb_spec s k).
Qed.

Lemma find_entry_app (k s : string) (n : node) (es : list (string * node)) :
  find_entry k (es ++ [(s, n)])
  = match find_entry k es with
    | Some m => Some m
    | None => if String.eqb s k then Some n else None
    end.
Proof.
  induction es as [|[a m] es IH]; simpl; [done|].
  by destruct (String.eqb a k).
Qed.

Lemma set_entry_names (s : string) (n : node) (es : list (string * node)) :
  map fst (set_entry s n es) = map fst es.
Proof.
  induction es as [|[a m] es IH]; simpl; [done|].
  destruct (String.eqb a s); simpl; by rewrite ?IH.
Qed.

Lemma set_entry_wf (s : string) (n : node) (es : list (string * node)) :
  wf (Dir es) -> wf n -> wf (Dir (set_entry s n es)).
Proof.
  rewrite !wf_Dir, set_entry_names. intros [Hnd Hall] Hn. split; [done|].
  clear Hnd. induction Hall as [|[a m] es Ha Hall IH]; simpl; [constructor|].
  destruct (String.eqb a s); constructor; auto.
Qed.

Lemma app_entry_wf (s : string) (n : node) (es : list (string * node)) :
  wf (Dir es) -> find_entry s es = None -> wf n -> wf (Dir (es ++ [(s, n)])).
Proof.
  rewrite !wf_Dir, map_app. intros [Hnd Hall] Hs%find_entry_None Hn. split.
  - apply NoDup_app. split; [done|]. split; [|apply NoDup_singleton].
    intros x Hx%list_elem_of_In ->%list_elem_of_singleton. by apply Hs.
  - apply Forall_app. split; [done|]. by constructor.
Qed.

(** A successful [write_text] changes what is observable at its own path
    only. *)
Lemma write_file_stat (fs fs' : node) (p : path) (c : string) :
  write_file fs p c = Some fs' ->
  forall q, stat fs' q = if decide (q = p) then KFile c else stat fs q.
Proof.
  revert fs fs'. induction p as [|s p IH]; intros fs fs'; simpl.
  - destruct fs; try done. intros [= <-] [|k q]; [done|].
    by rewrite !stat_cons.
  - destruct fs as [|es|]; try done.
    destruct (find_entry s es) as [n|] eqn:E.
    + destruct (write_file n p c) as [n'|] eqn:W; [|done]. intros [= <-] [|k q].
      { by rewrite decide_False. }
      rewrite !stat_cons, find_entry_set_entry, E.
      destruct (String.eqb_spec s k) as [->|Hsk].
      * rewrite (IH _ _ W q), E. repeat case_decide; congruence.
      * rewrite decide_False by congruence. done.
    + destruct p; [|done]. intros [= <-] [|k q].
      { by rewrite decide_False. }
      rewrite !stat_cons, find_entry_app.
      destruct (String.eqb_spec s k) as [->|Hsk].
      * rewrite E. destruct q; [by rewrite decide_True|].
        by rewrite decide_False.
      * rewrite decide_False by congruence. by destruct (find_entry k es).
Qed.

Lemma write_file_wf (fs fs' : node) (p : path) (c : string) :
  wf fs -> write_file fs p c = Some fs' -> wf fs'.
Proof.
  revert fs fs'. induction p as [|s p IH]; intros fs fs' Hwf; simpl.
  - destruct fs; try done. by intros [= <-].
  - destruct fs as [|es|]; try done.
    destruct (find_entry s es) as [n|] eqn:E.
    + destruct (write_file n p c) as [n'|] eqn:W; [|done]. intros [= <-].
      apply set_entry_wf; [done|]. eapply IH; [|exact W].
      apply (wf_lookup _ [s] _ Hwf). simpl. by rewrite E.
    + destruct p; [|done]. intros [= <-]. by apply app_entry_wf.
Qed.

Lemma write_file_writable (fs : node) (p : path) (c : string) :
  writable fs p -> exists fs', write_file fs p c = Some fs'.
Proof.
  unfold writable. revert fs. induction p as [|s p IH]; intros fs.
  - rewrite stat_nil. destruct fs; try done. by eexists.
  - rewrite stat_cons. simpl. destruct fs as [|es|].
    + destruct p; simpl; intros [_ H]; [done|]. by rewrite stat_cons in H.
    + destruct (find_entry s es) as [n|] eqn:E.
      * intros H. destruct (IH n) as (n' & ->); [|by eexists].
        destruct (stat n p) eqn:Hs; try done. destruct H as [_ H].
        destruct p as [|s' p]; [by rewrite stat_nil in Hs; destruct n|].
        split; [done|]. by rewrite stat_cons, E in H.
      * intros [_ H]. destruct p as [|s' p]; [by eexists|].
        by rewrite stat_cons, E in H.
    + destruct p; simpl; intros [_ H]; [done|]. by rewrite stat_cons in H.
Qed.

(** [mkdir(parents=True, exist_ok=True)] turns the prefixes of its path
    into directories and changes nothing else. *)
Lemma make_dirs_stat (fs fs' : node) (p : path) :
  make_dirs fs p = Some fs' ->
  forall q, stat fs' q = if decide (q `prefix_of` p) then KDir else stat fs q.
Proof.
  revert fs fs'. induction p as [|s p IH]; intros fs fs'; simpl.
  - destruct fs as [|es|]; try done. intros [= <-] [|k q].
    + by rewrite decide_True by apply prefix_nil.
    + rewrite decide_False; [done|]. by intros ?%prefix_nil_inv.
  - destruct fs as [|es|]; try done.
    destruct (find_entry s es) as [n|] eqn:E.
    + destruct (make_dirs n p) as [n'|] eqn:W; [|done]. intros [= <-] [|k q].
      { by rewrite decide_True by apply prefix_nil. }
      rewrite !stat_cons, find_entry_set_entry, E.
      destruct (String.eqb_spec s k) as [->|Hsk].
      * rewrite (IH _ _ W q), E.
        repeat case_decide; try done.
        -- destruct H0. by apply prefix_cons.
        -- destruct H. by eapply prefix_cons_inv_2.
      * rewrite decide_False; [done|]. by intros ?%prefix_cons_inv_1.
    + destruct (make_dirs (Dir []) p) as [n'|] eqn:W; [|done]. intros [= <-] [|k q].
      { by rewrite decide_True by apply prefix_nil. }
      rewrite !stat_cons, find_entry_app.
      destruct (String.eqb_spec s k) as [->|Hsk].
      * rewrite E, (IH _ _ W q).
        repeat case_decide; try done.
        -- destruct H0. by apply prefix_cons.
        -- destruct H. by eapply prefix_cons_inv_2.
        -- destruct q; [by destruct H; apply prefix_nil|]. by rewrite stat_cons.
      * rewrite decide_False; [|by intros ?%prefix_cons_inv_1].
        by destruct (find_entry k es).
Qed.

Lemma make_dirs_wf (fs fs' : node) (p : path) :
  wf fs -> make_dirs fs p = Some fs' -> wf fs'.
Proof.
  revert fs fs'. induction p as [|s p IH]; intros fs fs' Hwf; simpl.
  - destruct fs; try done. by intros [= <-].
  - destruct fs as [|es|]; try done.
    destruct (find_entry s es) as [n|] eqn:E.
    + destruct (make_dirs n p) as [n'|] eqn:W; [|done]. intros [= <-].
      apply set_entry_wf; [done|]. eapply IH; [|exact W].
      apply (wf_lookup _ [s] _ Hwf). simpl. by rewrite E.
    + destruct (make_dirs (Dir []) p) as [n'|] eqn:W; [|done]. intros [= <-].
      apply app_entry_wf; [done..|]. by eapply IH; [|exact W].
Qed.

Lemma make_dirs_child (fs : node) (d : path) (s : string) :
  stat fs d = KDir ->
  stat fs (d ++ [s]) = KDir \/ stat fs (d ++ [s]) = KAbsent ->
  exists fs', make_dirs fs (d ++ [s]) = Some fs'.
Proof.
  revert fs. induction d as [|k d IH]; intros fs; simpl.
  - rewrite stat_nil, stat_cons. destruct fs as [|es|]; try done. intros _.
    destruct (find_entry s es) as [n|] eqn:E; [|by eexists].
    rewrite stat_nil. destruct n; intros [|]; try done. by eexists.
  - rewrite !stat_cons. destruct fs as [|es|]; try done.
    destruct (find_entry k es) as [n|] eqn:E; [|done]. intros H1 H2.
    destruct (IH n H1 H2) as (n' & ->). by eexists.
Qed.

(** ** Filesystems that agree below the outputs directory *)

Lemma is_dir_stat (fs : node) (p : path) : is_dir fs p = true <-> stat fs p = KDir.
Proof. unfold is_dir, stat. by destruct (lookup_path fs p) as [[| |]|]. Qed.

Lemma is_file_stat (fs : node) (p : path) :
  is_file fs p = true <-> exists c, stat fs p = KFile c.
Proof.
  unfold is_file, stat. destruct (lookup_path fs p) as [[| |]|]; split;
    try done; try (by intros (? & [=])). by eexists.
Qed.

Lemma exists_stat (fs : node) (p : path) : exists_ fs p = true <-> stat fs p <> KAbsent.
Proof. unfold exists_, stat. by destruct (lookup_path fs p) as [[| |]|]. Qed.

Lemma stat_snoc_dir (fs : node) (p : path) (s : string) :
  stat fs (p ++ [s]) <> KAbsent -> stat fs p = KDir.
Proof.
  unfold stat. rewrite lookup_path_snoc.
  by destruct (lookup_path fs p) as [[| |]|].
Qed.

Lemma name_snoc (p : path) (s : string) : name (p ++ [s]) = s.
Proof. apply last_last. Qed.

Lemma agree_refl (out : path) (fs : node) : agree out fs fs.
Proof. intros r. by left. Qed.

Lemma agree_stat_eq (out : path) (fs fs' : node) :
  (forall q, stat fs q = stat fs' q) -> agree out fs fs'.
Proof. intros H r. by left. Qed.

Lemma agree_trans (out : path) (fs1 fs2 fs3 : node) :
  agree out fs1 fs2 -> agree out fs2 fs3 -> agree out fs1 fs3.
Proof.
  intros H1 H2 r. destruct (H1 r) as [E1|(N1 & F1 & F1')], (H2 r) as [E2|(N2 & F2 & F2')].
  - left. congruence.
  - right. rewrite E1. done.
  - right. rewrite <- E2. done.
  - by right.
Qed.

Lemma sorted_lt_ext (l1 l2 : list path) :
  StronglySorted path_lt l1 -> StronglySorted path_lt l2 ->
  (forall x, In x l1 <-> In x l2) -> l1 = l2.
Proof.
  intros S1 S2 Hin.
  assert (Hnd : forall l, StronglySorted path_lt l -> NoDup l).
  { induction 1 as [|x l Hl IH Hx]; constructor; [|done].
    intros Hx'%list_elem_of_In. rewrite List.Forall_forall in Hx.
    by destruct (Hx _ Hx') as [_ ?]. }
  assert (Hle : forall l, StronglySorted path_lt l ->
                  StronglySorted (fun x y => path_leb x y = true) l).
  { induction 1 as [|x l Hl IH Hx]; constructor; [done|].
    eapply Forall_impl; [exact Hx|]. by intros ? []. }
  apply (strongly_sorted_unique path_leb path_leb_antisym); auto.
  apply NoDup_Permutation; auto. intros x. by rewrite !list_elem_of_In.
Qed.

Section Agreement.
Variable lower : string -> string.
Variable csv_reader : string -> list (list string).
Hypothesis lower_html : lower ".html" ∉ IMG_EXTS.
Variable out : path.
Variables fs fs' : node.
Hypothesis Hwf : wf fs.
Hypothesis Hwf' : wf fs'.
Hypothesis Hagree : agree out fs fs'.

Lemma is_dir_agree (r : path) : is_dir fs (out ++ r) = is_dir fs' (out ++ r).
Proof.
  apply eq_true_iff_eq. rewrite !is_dir_stat.
  destruct (Hagree r) as [->|(_ & F & F')]; [done|].
  split; intros E; rewrite E in *; done.
Qed.

Lemma is_image_agree (r : path) :
  is_image lower fs (out ++ r) = is_image lower fs' (out ++ r).
Proof.
  unfold is_image. destruct (Hagree r) as [E|(N & _)].
  - f_equal. apply eq_true_iff_eq. rewrite !is_file_stat. by rewrite E.
  - unfold suffix. rewrite N.
    change (suffix_of "report.html") with ".html".
    rewrite bool_decide_eq_false_2 by done. by rewrite !andb_false_r.
Qed.

Lemma list_images_agree (r : path) :
  list_images lower fs (out ++ r) = list_images lower fs' (out ++ r).
Proof.
  destruct (is_dir fs (out ++ r)) eqn:Hd.
  - pose proof Hd as Hd'. rewrite is_dir_agree in Hd'.
    destruct (list_images_In lower _ _ Hd) as (l1 & E1 & I1).
    destruct (list_images_In lower _ _ Hd') as (l2 & E2 & I2).
    rewrite E1, E2. f_equal. apply sorted_lt_ext.
    + exact (list_images_sorted lower _ _ _ Hwf E1).
    + exact (list_images_sorted lower _ _ _ Hwf' E2).
    + intros q. rewrite I1, I2. split; intros (nm & -> & H); exists nm;
        (split; [done|]); rewrite <- app_assoc in *;
        [by rewrite <- is_image_agree|by rewrite is_image_agree].
  - rewrite (list_images_raises _ _ _ Hd).
    rewrite is_dir_agree in Hd. by rewrite (list_images_raises _ _ _ Hd).
Qed.

Lemma has_images_agree (r : path) :
  has_images lower fs (out ++ r) = has_images lower fs' (out ++ r).
Proof. unfold has_images. by rewrite list_images_agree. Qed.

Lemma report_folders_agree :
  List.filter (has_images lower fs) (sorted path_leb (rglob fs out))
  = List.filter (has_images lower fs') (sorted path_leb (rglob fs' out)).
Proof.
  apply sorted_lt_ext; try by apply find_report_folders_sorted.
  intros d. rewrite !find_report_folders_In.
  split; intros [(r & Hr & ->) H]; (split; [by exists r|]);
    [by rewrite <- has_images_agree|by rewrite has_images_agree].
Qed.

Lemma read_captions_stat (g : node) (p : path) :
  read_captions csv_reader g p
  = match stat g p with
    | KAbsent => Ok ∅
    | KFile content =>
        Ok (fold_left caption_step (dict_reader (csv_reader content)) ∅)
    | _ => Raise (OSError p)
    end.
Proof. unfold read_captions, stat. by destruct (lookup_path g p) as [[| |]|]. Qed.

Lemma captions_agree (r : path) :
  stat fs ((out ++ r) ++ ["captions.csv"]) = stat fs' ((out ++ r) ++ ["captions.csv"]).
Proof.
  rewrite <- !app_assoc. destruct (Hagree (r ++ ["captions.csv"])) as [E|(N & _)]; [done|].
  rewrite app_assoc, name_snoc in N. done.
Qed.

Lemma read_captions_agree (r : path) :
  read_captions csv_reader fs ((out ++ r) ++ ["captions.csv"])
  = read_captions csv_reader fs' ((out ++ r) ++ ["captions.csv"]).
Proof. by rewrite !read_captions_stat, captions_agree. Qed.

End Agreement.

(** ** The report builder *)

Section RunFacts.
Variable lower : string -> string.
Variable csv_reader : string -> list (list string).
Hypothesis lower_html : lower ".html" ∉ IMG_EXTS.

(** A folder without images: nothing is read further, nothing is written. *)
Lemma build_report_noop (fs : node) (d : path) :
  list_images lower fs d = Ok [] -> build_report lower csv_reader d fs = (Ok tt, fs, []).
Proof. intros H. unfold build_report, io_bind, read. by rewrite H. Qed.

Lemma filelike_writable (fs : node) (d : path) (s : string) :
  stat fs d = KDir -> filelike (stat fs (d ++ [s])) = true -> writable fs (d ++ [s]).
Proof.
  intros Hd Hf. unfold writable. destruct (stat fs (d ++ [s])); try done.
  rewrite removelast_last. split; [by destruct d|done].
Qed.

Lemma build_report_run (fs : node) (d : path) :
  has_images lower fs d = true -> folder_ok fs d = true ->
  exists fs',
    build_report lower csv_reader d fs = (Ok tt, fs', report_events lower csv_reader fs d)
    /\ write_file fs (d ++ ["report.html"]) (report_text lower csv_reader fs d) = Some fs'.
Proof.
  intros Himg [Hcap Hrep]%andb_true_iff.
  pose proof Himg as [Hd%is_dir_stat _]%has_images_spec.
  destruct (write_file_writable fs (d ++ ["report.html"]) (report_text lower csv_reader fs d))
    as (fs' & Hw); [by apply filelike_writable|].
  exists fs'. split; [|done]. revert Hw.
  unfold has_images in Himg.
  destruct (list_images lower fs d) as [[|img imgs]|] eqn:El; try done.
  unfold report_events, build_report, report_text, io_bind, read.
  rewrite El, (read_captions_stat csv_reader).
  unfold write_text, print.
  destruct (stat fs (d ++ ["captions.csv"])); try done; by intros ->.
Qed.

Lemma report_text_agree (out : path) (fs fs' : node) (r : path) :
  wf fs -> wf fs' -> agree out fs fs' ->
  report_text lower csv_reader fs (out ++ r) = report_text lower csv_reader fs' (out ++ r).
Proof.
  intros W W' A. unfold report_text.
  by rewrite (list_images_agree lower lower_html out fs fs' W W' A),
             (read_captions_agree csv_reader out fs fs' A).
Qed.

Lemma folder_ok_agree (out : path) (fs fs' : node) (r : path) :
  agree out fs fs' ->
  folder_ok fs (out ++ r) = true -> folder_ok fs' (out ++ r) = true.
Proof.
  intros A [Hcap Hrep]%andb_true_iff. apply andb_true_iff. split.
  - by rewrite <- (captions_agree out fs fs' A).
  - rewrite <- app_assoc in *.
    destruct (A (r ++ ["report.html"])) as [<-|(_ & _ & ?)]; done.
Qed.

Lemma written_cons (fs0 : node) (d : path) (ds : list path) (q : path) :
  written lower csv_reader fs0 (d :: ds) q
  = if decide (q = d ++ ["report.html"]) then Some (report_text lower csv_reader fs0 d)
    else written lower csv_reader fs0 ds q.
Proof.
  unfold written. simpl. case_bool_decide; case_decide; congruence.
Qed.

Lemma written_Some (fs0 : node) (ds : list path) (q : path) (c : string) :
  written lower csv_reader fs0 ds q = Some c ->
  exists d, In d ds /\ q = d ++ ["report.html"] /\ c = report_text lower csv_reader fs0 d.
Proof.
  unfold written. destruct (List.find (fun d => bool_decide (d ++ ["report.html"] = q)) ds) as [d|] eqn:E; [|done].
  intros [= <-]. apply find_some in E as [Hin Heq%bool_decide_eq_true].
  by exists d.
Qed.

(** The loop over the report folders, started in any state [fs] that
    agrees with the state [fs0] in which the folders were discovered. *)
Lemma build_reports_run (out : path) (fs0 : node) (ds : list path) :
  wf fs0 ->
  Forall (fun d => (exists r, d = out ++ r)
                   /\ has_images lower fs0 d = true
                   /\ folder_ok fs0 d = true) ds ->
  forall fs, wf fs -> agree out fs0 fs ->
  exists fs',
    for_each (build_report lower csv_reader) ds fs
    = (Ok tt, fs', flat_map (report_events lower csv_reader fs0) ds)
    /\ wf fs' /\ agree out fs0 fs'
    /\ forall q, stat fs' q
                 = match written lower csv_reader fs0 ds q with
                   | Some c => KFile c
                   | None => stat fs q
                   end.
Proof.
  intros W0. induction 1 as [|d ds ((r & ->) & Himg & Hok) _ IH]; intros fs W A.
  - exists fs. by repeat split.
  - assert (Himg' : has_images lower fs (out ++ r) = true).
    { by rewrite <- (has_images_agree lower lower_html out fs0 fs W0 W A). }
    destruct (build_report_run fs (out ++ r) Himg'
                (folder_ok_agree out fs0 fs r A Hok)) as (fs1 & Hrun & Hw).
    rewrite <- (report_text_agree out fs0 fs r W0 W A) in Hw.
    assert (Hev : report_events lower csv_reader fs (out ++ r) = report_events lower csv_reader fs0 (out ++ r)).
    { unfold report_events. by rewrite (report_text_agree out fs0 fs r W0 W A). }
    rewrite Hev in Hrun.
    pose proof (write_file_stat _ _ _ _ Hw) as Hstat.
    assert (A1 : agree out fs0 fs1).
    { intros r'. rewrite Hstat. case_decide as Hq; [|apply A].
      right. rewrite Hq, name_snoc. split; [done|].
      apply andb_true_iff in Hok as [_ Hok]. done. }
    destruct (IH fs1 (write_file_wf _ _ _ _ W Hw) A1) as (fs' & Hloop & W' & A' & S').
    exists fs'. split; [|split; [done|split; [done|]]].
    + simpl. unfold io_bind at 1. rewrite Hrun, Hloop. done.
    + intros q. rewrite S', written_cons, Hstat.
      destruct (written lower csv_reader fs0 ds q) as [c|] eqn:Ec; [|by case_decide].
      case_decide as Hq; [|done]. subst q.
      apply written_Some in Ec as (d & _ & Hd%app_inv_tail & ->). by rewrite Hd.
Qed.

End RunFacts.

(** ** The index builder *)

Ltac path_neq :=
  let H := fresh in
  intros H;
  first
    [ apply (f_equal length) in H; rewrite ?length_app in H; simpl in H; lia
    | rewrite <- ?app_assoc in H; apply app_inv_head in H; discriminate H ].

Section IndexFacts.
Variable lower : string -> string.
Variable csv_reader : string -> list (list string).
Hypothesis lower_html : lower ".html" ∉ IMG_EXTS.

Lemma relative_to_app (out r : path) : relative_to (out ++ r) out = Ok r.
Proof.
  induction out as [|s out IH]; simpl; [by destruct r|].
  by rewrite String.eqb_refl.
Qed.

Lemma index_item_run (out : path) (fs0 fs : node) (r : path) :
  wf fs0 -> wf fs -> agree out fs0 fs ->
  is_dir fs0 (out ++ r) = true ->
  index_item lower out (out ++ r) fs = (Ok (item_of lower fs0 out (out ++ r)), fs, []).
Proof.
  intros W0 W A Hd. unfold index_item, item_of, io_bind, read.
  rewrite relative_to_app. simpl.
  rewrite <- (list_images_agree lower lower_html out fs0 fs W0 W A).
  destruct (list_images_In lower _ _ Hd) as (imgs & -> & _). done.
Qed.

Lemma index_items_run (out : path) (fs0 fs : node) (ds : list path) :
  wf fs0 -> wf fs -> agree out fs0 fs ->
  Forall (fun d => (exists r, d = out ++ r) /\ is_dir fs0 d = true) ds ->
  for_collect (index_item lower out) ds fs
  = (Ok (map (item_of lower fs0 out) ds), fs, []).
Proof.
  intros W0 W A. induction 1 as [|d ds ((r & ->) & Hd) _ IH]; [done|].
  simpl. unfold io_bind at 1. rewrite (index_item_run out fs0 fs r W0 W A Hd).
  unfold io_bind at 1. by rewrite IH.
Qed.

Lemma stat_prefix_dir (fs : node) (p r : path) :
  r <> [] -> stat fs (p ++ r) <> KAbsent -> stat fs p = KDir.
Proof.
  unfold stat. rewrite lookup_path_app. intros Hr.
  destruct (lookup_path fs p) as [[|es|]|]; try done; by destruct r.
Qed.

Lemma make_dirs_child_stat (fs fs' : node) (d : path) (s : string) :
  stat fs d = KDir -> make_dirs fs (d ++ [s]) = Some fs' ->
  forall q, stat fs' q = if decide (q = d ++ [s]) then KDir else stat fs q.
Proof.
  intros Hd Hm q. rewrite (make_dirs_stat _ _ _ Hm).
  case_decide as Hp; case_decide as Hq; try done.
  - destruct Hp as (k & Hk). destruct (decide (k = [])) as [->|Hne].
    { rewrite app_nil_r in Hk. congruence. }
    destruct (exists_last Hne) as (k' & s' & ->).
    rewrite app_assoc in Hk. apply app_inj_tail in Hk as [-> _].
    destruct (decide (k' = [])) as [->|Hne']; [by rewrite app_nil_r in Hd|].
    symmetry. eapply stat_prefix_dir; [exact Hne'|]. by rewrite Hd.
  - destruct Hp. by rewrite Hq.
Qed.

Lemma build_index_pages_run (root : path) (fs0 fs : node) (ds : list path) :
  let out := root ++ ["outputs"] in
  let site := root ++ ["site"] in
  let items := sorted (item_leb lower) (map (item_of lower fs0 out) ds) in
  wf fs0 -> wf fs -> agree out fs0 fs ->
  Forall (fun d => (exists r, d = out ++ r) /\ is_dir fs0 d = true) ds ->
  stat fs root = KDir ->
  dirlike (stat fs site) = true ->
  filelike (stat fs (site ++ ["index.html"])) = true ->
  filelike (stat fs (root ++ ["index.html"])) = true ->
  exists fs',
    build_index_pages lower root ds fs = (Ok tt, fs', index_log items root)
    /\ wf fs'
    /\ forall q, stat fs' q
         = if decide (q = root ++ ["index.html"]) then KFile (make_html items "outputs")
           else if decide (q = site ++ ["index.html"]) then
             KFile (make_html items "../outputs")
           else if decide (q = site) then KDir
           else stat fs q.
Proof.
  intros out site items W0 W A Hds Hroot Hsite Hidx1 Hidx2.
  destruct (make_dirs_child fs root "site" Hroot) as (fs1 & Hm).
  { fold site. destruct (stat fs site); try done; auto. }
  pose proof (make_dirs_child_stat _ _ _ _ Hroot Hm) as S1. fold site in S1.
  pose proof (make_dirs_wf _ _ _ W Hm) as W1.
  assert (A1 : agree out fs0 fs1).
  { intros r. rewrite S1. rewrite decide_False; [apply A|].
    subst out site. path_neq. }
  destruct (write_file_writable fs1 (site ++ ["index.html"])
              (make_html items "../outputs")) as (fs2 & Hw2).
  { apply filelike_writable.
    - by rewrite S1, decide_True.
    - rewrite S1, decide_False; [done|]. subst site. path_neq. }
  pose proof (write_file_stat _ _ _ _ Hw2) as S2.
  pose proof (write_file_wf _ _ _ _ W1 Hw2) as W2.
  destruct (write_file_writable fs2 (root ++ ["index.html"])
              (make_html items "outputs")) as (fs3 & Hw3).
  { apply filelike_writable.
    - rewrite S2, decide_False, S1, decide_False; [done|..]; subst site; path_neq.
    - rewrite S2, decide_False, S1, decide_False; [done|..]; subst site; path_neq. }
  pose proof (write_file_stat _ _ _ _ Hw3) as S3.
  exists fs3. split; [|split; [by eapply write_file_wf|]].
  - pose proof (index_items_run out fs0 fs1 ds W0 W1 A1 Hds) as Hitems.
    subst out site items. unfold build_index_pages.
    unfold io_bind at 1. unfold mkdir. rewrite Hm.
    unfold io_bind at 1. rewrite Hitems.
    unfold io_bind, write_text, print. rewrite Hw2, Hw3. done.
  - intros q. rewrite S3, S2, S1. done.
Qed.

End IndexFacts.

(** ** The entry point *)

Section MainFacts.
Variable lower : string -> string.
Variable csv_reader : string -> list (list string).
Hypothesis lower_html : lower ".html" ∉ IMG_EXTS.

Lemma report_folders_In (fs : node) (out d : path) :
  In d (report_folders lower fs out)
  <-> (exists r, r <> [] /\ d = out ++ r) /\ has_images lower fs d = true.
Proof. apply find_report_folders_In. Qed.

Lemma report_folders_under (fs : node) (out : path) :
  Forall (fun d => (exists r, d = out ++ r) /\ is_dir fs d = true)
         (report_folders lower fs out).
Proof.
  apply List.Forall_forall. intros d [(r & _ & ->) H]%report_folders_In.
  split; [by exists r|]. by apply has_images_spec in H as [? _].
Qed.

Lemma io_ok_folders (fs : node) (root : path) :
  io_ok lower fs root = true ->
  Forall (fun d => (exists r, d = (root ++ ["outputs"]) ++ r)
                   /\ has_images lower fs d = true
                   /\ folder_ok fs d = true)
         (report_folders lower fs (root ++ ["outputs"])).
Proof.
  unfold io_ok. rewrite !andb_true_iff, forallb_forall.
  intros [[[Hall _] _] _]. apply List.Forall_forall. intros d Hd.
  pose proof Hd as [(r & _ & ->) H]%report_folders_In.
  split; [by exists r|]. split; [done|]. by apply Hall.
Qed.

Lemma written_outside (root : path) (fs : node) (q : path) :
  (forall r, q <> (root ++ ["outputs"]) ++ r) ->
  written lower csv_reader fs (report_folders lower fs (root ++ ["outputs"])) q = None.
Proof.
  intros Hq.
  destruct (written _ _ _ _ q) as [c|] eqn:E; [|done].
  apply written_Some in E as (d & [(r & _ & ->) _]%report_folders_In & -> & _).
  destruct (Hq (r ++ ["report.html"])). by rewrite app_assoc.
Qed.

(** A complete run: the outputs directory exists and no filesystem
    operation fails. *)
Lemma main_run (root : path) (fs : node) :
  wf fs ->
  exists_ fs (root ++ ["outputs"]) = true ->
  io_ok lower fs root = true ->
  exists fs',
    main lower csv_reader root fs
    = (Ok tt, fs', main_events lower csv_reader fs root)
    /\ wf fs'
    /\ agree (root ++ ["outputs"]) fs fs'
    /\ forall q, stat fs' q = final_stat lower csv_reader fs root q.
Proof.
  intros W Hex Hok. set (out := root ++ ["outputs"]) in *.
  pose proof (io_ok_folders fs root Hok) as Hds. fold out in Hds.
  destruct (build_reports_run lower csv_reader lower_html out fs
              (report_folders lower fs out) W Hds fs W (agree_refl _ _))
    as (fs1 & Hloop & W1 & A1 & S1).
  assert (Hroot : stat fs root = KDir).
  { apply exists_stat in Hex. by eapply stat_snoc_dir. }
  assert (Hout : forall q, (forall r, q <> out ++ r) -> stat fs1 q = stat fs q).
  { intros q Hq. rewrite S1. subst out. by rewrite written_outside. }
  unfold io_ok in Hok. fold out in Hok.
  apply andb_true_iff in Hok as [[[_ Hsite]%andb_true_iff Hi1]%andb_true_iff Hi2].
  destruct (build_index_pages_run lower lower_html root fs fs1
              (report_folders lower fs out) W W1 A1) as (fs2 & Hidx & W2 & S2).
  { apply report_folders_under. }
  { rewrite Hout; [done|]. intros r. subst out. path_neq. }
  { rewrite Hout; [done|]. intros r. subst out. path_neq. }
  { rewrite Hout; [done|]. intros r. subst out. path_neq. }
  { rewrite Hout; [done|]. intros r. subst out. path_neq. }
  exists fs2. split; [|split; [done|split]].
  - unfold main, main_events. fold out. unfold io_bind at 1. unfold read at 1.
    rewrite Hex. change (negb true) with false. cbv iota beta.
    unfold io_bind at 1. unfold read at 1.
    rewrite find_report_folders_filter. fold (report_folders lower fs out).
    unfold io_bind at 1. rewrite Hloop. unfold io_bind at 1. rewrite Hidx.
    unfold print, index_events, index_items. fold out. done.
  - intros r. rewrite S2.
    rewrite decide_False by (subst out; path_neq).
    rewrite decide_False by (subst out; path_neq).
    rewrite decide_False by (subst out; path_neq). apply A1.
  - intros q. rewrite S2, S1. unfold final_stat, index_items, written. fold out.
    by destruct (List.find (fun d => bool_decide (d ++ ["report.html"] = q))
                           (report_folders lower fs out)).
Qed.

(** The log and the final state of a run depend on the filesystem only
    through what agrees below the outputs directory. *)
Lemma report_folders_agree' (out : path) (fs fs' : node) :
  wf fs -> wf fs' -> agree out fs fs' ->
  report_folders lower fs out = report_folders lower fs' out.
Proof. intros. by apply report_folders_agree. Qed.

Lemma index_items_agree (out : path) (fs fs' : node) :
  wf fs -> wf fs' -> agree out fs fs' ->
  index_items lower fs out = index_items lower fs' out.
Proof.
  intros W W' A. unfold index_items.
  rewrite <- (report_folders_agree' out fs fs' W W' A). f_equal.
  apply map_ext_in. intros d [(r & _ & ->) _]%report_folders_In.
  unfold item_of. by rewrite (list_images_agree lower lower_html out fs fs' W W' A).
Qed.

Lemma main_events_agree (root : path) (fs fs' : node) :
  wf fs -> wf fs' -> agree (root ++ ["outputs"]) fs fs' ->
  main_events lower csv_reader fs root = main_events lower csv_reader fs' root.
Proof.
  intros W W' A. unfold main_events, index_events.
  rewrite <- (index_items_agree _ fs fs' W W' A).
  rewrite <- (report_folders_agree' _ fs fs' W W' A). f_equal.
  rewrite !flat_map_concat_map. f_equal.
  apply map_ext_in. intros d [(r & _ & ->) _]%report_folders_In.
  unfold report_events.
  by rewrite (report_text_agree lower csv_reader lower_html _ fs fs' r W W' A).
Qed.

Lemma io_ok_agree (root : path) (fs fs' : node) :
  wf fs -> wf fs' -> agree (root ++ ["outputs"]) fs fs' ->
  io_ok lower fs root = true ->
  dirlike (stat fs' (root ++ ["site"])) = true ->
  filelike (stat fs' ((root ++ ["site"]) ++ ["index.html"])) = true ->
  filelike (stat fs' (root ++ ["index.html"])) = true ->
  io_ok lower fs' root = true.
Proof.
  intros W W' A Hok H1 H2 H3. unfold io_ok. rewrite H1, H2, H3, !andb_true_r.
  apply forallb_forall. intros d Hd.
  rewrite <- (report_folders_agree' _ fs fs' W W' A) in Hd.
  pose proof (io_ok_folders fs root Hok) as Hall.
  rewrite List.Forall_forall in Hall. destruct (Hall d Hd) as ((r & ->) & _ & Hf).
  by eapply folder_ok_agree.
Qed.

End MainFacts.

(** ** What the lister and the discoverer return *)

Lemma strongly_sorted_impl_In {A : Type} (R R' : A -> A -> Prop) (l : list A) :
  (forall x y, In x l -> In y l -> R x y -> R' x y) ->
  StronglySorted R l -> StronglySorted R' l.
Proof.
  intros H S. induction S as [|x l Hl IH Hx]; constructor.
  - apply IH. intros a b Ha Hb. apply H; by right.
  - apply List.Forall_forall. intros y Hy. rewrite List.Forall_forall in Hx.
    apply H; [by left|by right|by apply Hx].
Qed.

Lemma ascii_lower_html : ascii_lower ".html" ∉ IMG_EXTS.
Proof. by vm_compute. Qed.

Lemma is_image_entry (lower : string -> string) (fs : node) (folder : path)
    (es : list (string * node)) (nm : string) :
  lookup_path fs folder = Some (Dir es) -> NoDup (map fst es) ->
  is_image lower fs (folder ++ [nm]) = true
  <-> exists c, In (nm, File c) es /\ lower (suffix_of nm) ∈ IMG_EXTS.
Proof.
  intros Hes Hnd. unfold is_image, suffix. rewrite name_snoc, andb_true_iff.
  rewrite bool_decide_eq_true, is_file_lookup, lookup_path_snoc, Hes. split.
  - intros [(c & Hc%find_entry_In) H]. by exists c.
  - intros (c & Hc & H). split; [|done]. exists c. by apply find_entry_NoDup.
Qed.

Lemma IMG_EXTS_spec (e : string) :
  e ∈ IMG_EXTS
  <-> e = ".png" \/ e = ".jpg" \/ e = ".jpeg" \/ e = ".webp" \/ e = ".gif".
Proof. unfold IMG_EXTS. rewrite !elem_of_union, !elem_of_singleton. tauto. Qed.

(** C5: on an existing directory [list_images] returns, and its result
    holds exactly the direct children that are regular files with a
    lower-cased suffix in [IMG_EXTS], in strictly ascending order of their
    names; nothing below a subdirectory is listed, and the result is empty
    when no child qualifies. *)
Theorem list_images_spec (lower : string -> string) (fs : node) (folder : path)
    (es : list (string * node)) :
  wf fs ->
  lookup_path fs folder = Some (Dir es) ->
  exists imgs,
    list_images lower fs folder = Ok imgs
    /\ (forall q, In q imgs
          <-> exists nm c, q = folder ++ [nm] /\ In (nm, File c) es
                           /\ lower (suffix_of nm) ∈ IMG_EXTS)
    /\ StronglySorted (fun a b => String.ltb (name a) (name b) = true) imgs
    /\ ((forall nm c, In (nm, File c) es -> lower (suffix_of nm) ∉ IMG_EXTS) ->
        imgs = [])
    /\ (forall e, e ∈ IMG_EXTS
          <-> e = ".png" \/ e = ".jpg" \/ e = ".jpeg" \/ e = ".webp" \/ e = ".gif").
Proof.
  intros Hwf Hes.
  assert (Hnd : NoDup (map fst es)).
  { by apply (wf_lookup _ _ _ Hwf), wf_Dir in Hes as [? _]. }
  assert (Hd : is_dir fs folder = true) by (apply is_dir_lookup; by exists es).
  destruct (list_images_In lower fs folder Hd) as (imgs & Himgs & Hin).
  assert (Hin' : forall q, In q imgs
            <-> exists nm c, q = folder ++ [nm] /\ In (nm, File c) es
                             /\ lower (suffix_of nm) ∈ IMG_EXTS).
  { intros q. rewrite Hin. split.
    - intros (nm & -> & (c & ? & ?)%(is_image_entry lower fs folder es nm Hes Hnd)).
      by exists nm, c.
    - intros (nm & c & -> & ? & ?). exists nm. split; [done|].
      apply (is_image_entry lower fs folder es nm Hes Hnd). by exists c. }
  exists imgs. split; [done|]. split; [done|]. split; [|split].
  - eapply strongly_sorted_impl_In; [|exact (list_images_sorted lower _ _ _ Hwf Himgs)].
    intros a b (na & _ & -> & _)%Hin' (nb & _ & -> & _)%Hin' [Hle Hne].
    rewrite !name_snoc. rewrite path_leb_app, path_leb_single in Hle.
    unfold String.ltb. rewrite (proj2 (compare_lt_leb na nb)); [done|].
    split; [done|]. intros ->. by apply Hne.
  - intros Hnone. destruct imgs as [|q imgs]; [done|].
    destruct (proj1 (Hin' q)) as (nm & c & _ & Hc & He); [by left|].
    by destruct (Hnone nm c).
  - apply IMG_EXTS_spec.
Qed.

Lemma list_images_spec_witness :
  exists imgs,
    list_images ascii_lower example_fs ["proj"; "outputs"; "Gallery"] = Ok imgs
    /\ StronglySorted (fun a b => String.ltb (name a) (name b) = true) imgs.
Proof.
  destruct (list_images_spec ascii_lower example_fs ["proj"; "outputs"; "Gallery"]
              _ ltac:(vm_compute; reflexivity) ltac:(vm_compute; reflexivity))
    as (imgs & H1 & _ & H3 & _).
  exists imgs. split; [exact H1|exact H3].
Defined.

(** C1 (as stated) fails: the outputs directory itself holds an image and
    is a reachable directory, yet it is not returned. *)
Lemma find_report_folders_skips_root :
  ~ (exists ds,
       find_report_folders ascii_lower root_images_fs ["proj"; "outputs"] = Ok ds
       /\ forall d, In d ds
            <-> (exists r, d = ["proj"; "outputs"] ++ r)
                /\ is_dir root_images_fs d = true
                /\ exists nm, is_image ascii_lower root_images_fs (d ++ [nm]) = true).
Proof.
  intros (ds & Hds & H). vm_compute in Hds. injection Hds as <-.
  apply (H ["proj"; "outputs"]). split; [by exists []|].
  split; [reflexivity|]. exists "a.png". by vm_compute.
Qed.

(** C1 (amended): [find_report_folders] returns exactly the directories
    strictly below the outputs directory, at any depth, whose direct
    children include at least one image file, in strictly ascending path
    order (segment by segment); the outputs directory itself is never
    returned. *)
Theorem find_report_folders_spec (lower : string -> string) (fs : node)
    (outputs_dir : path) :
  wf fs ->
  exists ds,
    find_report_folders lower fs outputs_dir = Ok ds
    /\ (forall d, In d ds
          <-> (exists r, r <> [] /\ d = outputs_dir ++ r)
              /\ is_dir fs d = true
              /\ exists nm, is_image lower fs (d ++ [nm]) = true)
    /\ ~ In outputs_dir ds
    /\ StronglySorted path_lt ds.
Proof.
  intros Hwf. eexists. split; [apply find_report_folders_filter|].
  assert (Hin : forall d,
            In d (List.filter (has_images lower fs)
                    (sorted path_leb (rglob fs outputs_dir)))
            <-> (exists r, r <> [] /\ d = outputs_dir ++ r)
                /\ is_dir fs d = true
                /\ exists nm, is_image lower fs (d ++ [nm]) = true).
  { intros d. by rewrite find_report_folders_In, has_images_spec. }
  split; [done|]. split; [|by apply find_report_folders_sorted].
  intros [(r & Hr & Heq) _]%Hin. rewrite <- (app_nil_r outputs_dir) in Heq at 1.
  apply app_inv_head in Heq. by subst r.
Qed.

Lemma find_report_folders_spec_witness :
  exists ds,
    find_report_folders ascii_lower example_fs ["proj"; "outputs"] = Ok ds
    /\ ~ In ["proj"; "outputs"] ds
    /\ StronglySorted path_lt ds.
Proof.
  destruct (find_report_folders_spec ascii_lower example_fs ["proj"; "outputs"]
              ltac:(vm_compute; reflexivity)) as (ds & H1 & _ & H3 & H4).
  exists ds. split; [exact H1|]. split; [exact H3|exact H4].
Defined.

(** ** What a run logs *)

Section RunTheorems.
Variable lower : string -> string.
Variable csv_reader : string -> list (list string).

Lemma main_abort (root : path) (fs : node) :
  exists_ fs (root ++ ["outputs"]) = false ->
  main lower csv_reader root fs = (Raise (SystemExit exit_message), fs, []).
Proof. intros H. unfold main, io_bind, read. by rewrite H. Qed.

Lemma report_events_In (fs : node) (ds : list path) (p : path) (c : string) :
  In (Wrote p c) (flat_map (report_events lower csv_reader fs) ds)
  <-> exists d, In d ds /\ p = d ++ ["report.html"]
                /\ c = report_text lower csv_reader fs d.
Proof.
  rewrite in_flat_map. unfold report_events. split.
  - intros (d & Hd & [[= <- <-]|[[=]|[]]]). by exists d.
  - intros (d & Hd & -> & ->). exists d. split; [done|]. by left.
Qed.

Lemma index_log_In (items : list item) (root p : path) (c : string) :
  In (Wrote p c) (index_log items root)
  <-> (p = (root ++ ["site"]) ++ ["index.html"] /\ c = make_html items "../outputs")
      \/ (p = root ++ ["index.html"] /\ c = make_html items "outputs").
Proof.
  unfold index_log. simpl. split.
  - intros [[=]|[[= <- <-]|[[=]|[[= <- <-]|[[=]|[]]]]]]; auto.
  - intros [[-> ->]|[-> ->]]; auto.
Qed.

Lemma main_events_In (fs : node) (root p : path) (c : string) :
  In (Wrote p c) (main_events lower csv_reader fs root)
  <-> (exists d, In d (report_folders lower fs (root ++ ["outputs"]))
                 /\ p = d ++ ["report.html"]
                 /\ c = report_text lower csv_reader fs d)
      \/ (p = (root ++ ["site"]) ++ ["index.html"]
          /\ c = make_html (index_items lower fs (root ++ ["outputs"])) "../outputs")
      \/ (p = root ++ ["index.html"]
          /\ c = make_html (index_items lower fs (root ++ ["outputs"])) "outputs").
Proof.
  unfold main_events, index_events. rewrite !in_app_iff, report_events_In, index_log_In.
  simpl. split; [|tauto]. intros [?|[?|[[=]|[]]]]; tauto.
Qed.

Lemma report_text_page (fs : node) (d : path) (images : list path) :
  list_images lower fs d = Ok images ->
  filelike (stat fs (d ++ ["captions.csv"])) = true ->
  exists caps,
    read_captions csv_reader fs (d ++ ["captions.csv"]) = Ok caps
    /\ report_text lower csv_reader fs d
       = report_page (name d) (length images)
           (map (fun img => card (name img) (default EmptyString (caps !! name img)))
                images).
Proof.
  intros Hi Hc. unfold report_text. rewrite Hi, (read_captions_stat csv_reader).
  destruct (stat fs (d ++ ["captions.csv"])); try done; by eexists.
Qed.

End RunTheorems.

Lemma io_bind_inv {A B : Type} (m : io A) (k : A -> io B) (fs fs' : node)
    (r : result B) (log : list event) :
  io_bind m k fs = (r, fs', log) ->
  (exists e, m fs = (Raise e, fs', log) /\ r = Raise e)
  \/ (exists a fs1 l1 l2,
        m fs = (Ok a, fs1, l1) /\ k a fs1 = (r, fs', l2) /\ log = l1 ++ l2).
Proof.
  unfold io_bind. destruct (m fs) as [[[a|e] fs1] l1].
  - destruct (k a fs1) as [[r2 fs2] l2] eqn:E. intros [= <- <- <-].
    right. by exists a, fs1, l1, l2.
  - intros [= <- <- <-]. left. by exists e.
Qed.

Section Writes.
Variable lower : string -> string.
Variable csv_reader : string -> list (list string).

(** Whatever [build_report] writes is a report page over the escaped
    title and the cards of the images. *)
Lemma build_report_writes (d : path) (fs fs' : node) (r : result unit)
    (log : list event) (p : path) (c : string) :
  build_report lower csv_reader d fs = (r, fs', log) ->
  In (Wrote p c) log ->
  exists images caps,
    list_images lower fs d = Ok images
    /\ read_captions csv_reader fs (d ++ ["captions.csv"]) = Ok caps
    /\ p = d ++ ["report.html"]
    /\ c = report_page (name d) (length images)
             (map (fun img => card (name img) (default EmptyString (caps !! name img)))
                  images).
Proof.
  unfold build_report, io_bind, read.
  destruct (list_images lower fs d) as [[|img images]|e] eqn:Hi;
    [by intros [= _ _ <-]| |by intros [= _ _ <-]].
  destruct (read_captions csv_reader fs (d ++ ["captions.csv"])) as [caps|e] eqn:Hc;
    [|by intros [= _ _ <-]].
  unfold write_text, print.
  destruct (write_file fs (d ++ ["report.html"]) _) as [fs1|];
    [|by intros [= _ _ <-]].
  intros [= _ _ <-] [[= <- <-]|[[=]|[]]]. by exists (img :: images), caps.
Qed.

(** The loop over the folders writes reports of these folders only. *)
Lemma build_reports_writes (ds : list path) (fs fs' : node) (r : result unit)
    (log : list event) (p : path) (c : string) :
  for_each (build_report lower csv_reader) ds fs = (r, fs', log) ->
  In (Wrote p c) log ->
  exists d, In d ds /\ p = d ++ ["report.html"].
Proof.
  revert fs log. induction ds as [|d ds IH]; intros fs log; simpl.
  - by intros [= _ _ <-].
  - intros [(e & Hd & _)|(a & fs1 & l1 & l2 & Hd & Hrest & ->)]%io_bind_inv Hin.
    + destruct (build_report_writes d fs fs' _ log p c Hd Hin)
        as (_ & _ & _ & _ & -> & _). exists d. by split; [left|].
    + apply in_app_iff in Hin as [Hin|Hin].
      * destruct (build_report_writes d fs fs1 _ l1 p c Hd Hin)
          as (_ & _ & _ & _ & -> & _). exists d. by split; [left|].
      * destruct (IH _ _ Hrest Hin) as (d' & Hd' & ->). exists d'. by split; [right|].
Qed.

Lemma index_item_outcome (out d : path) (fs : node) :
  exists r, index_item lower out d fs = (r, fs, [])
            /\ forall it, r = Ok it -> entry_of out d it.
Proof.
  unfold index_item, io_bind, read.
  destruct (relative_to d out) as [rel|e] eqn:E; simpl; [|by eexists].
  destruct (list_images lower fs d); eexists; (split; [done|]); [|done].
  intros it [= <-]. by exists rel.
Qed.

Lemma index_items_outcome (out : path) (ds : list path) (fs : node) :
  exists r, for_collect (index_item lower out) ds fs = (r, fs, [])
            /\ forall items, r = Ok items -> Forall2 (entry_of out) ds items.
Proof.
  induction ds as [|d ds (r & IH & Hall)].
  { eexists. split; [done|]. intros items [= <-]. constructor. }
  simpl. unfold io_bind at 1.
  destruct (index_item_outcome out d fs) as ([it|e] & -> & Hit); [|by eexists].
  unfold io_bind at 1. rewrite IH. destruct r as [items|e]; [|by eexists].
  eexists. split; [done|]. intros ? [= <-]. constructor; auto.
Qed.

(** Whatever [build_index_pages] writes is an index page over entries
    sorted by their lower-cased relative path. *)
Lemma build_index_pages_writes (root : path) (ds : list path) (fs fs' : node)
    (r : result unit) (log : list event) (p : path) (c : string) :
  build_index_pages lower root ds fs = (r, fs', log) ->
  In (Wrote p c) log ->
  exists items,
    Forall2 (entry_of (root ++ ["outputs"])) ds items
    /\ ((p = (root ++ ["site"]) ++ ["index.html"]
         /\ c = make_html (sorted (item_leb lower) items) "../outputs")
        \/ (p = root ++ ["index.html"]
            /\ c = make_html (sorted (item_leb lower) items) "outputs")).
Proof.
  unfold build_index_pages. unfold io_bind at 1. unfold mkdir.
  destruct (make_dirs fs (root ++ ["site"])) as [fs1|]; [|by intros [= _ _ <-]].
  unfold io_bind at 1.
  destruct (index_items_outcome (root ++ ["outputs"]) ds fs1)
    as ([items|e] & -> & Hall); [|by intros [= _ _ <-] [[=]|[]]].
  specialize (Hall items eq_refl).
  unfold io_bind, write_text, print.
  destruct (write_file fs1 _ _) as [fs2|]; [|by intros [= _ _ <-] [[=]|[]]].
  destruct (write_file fs2 _ _) as [fs3|].
  - intros [= _ _ <-] [[=]|[[= <- <-]|[[=]|[[= <- <-]|[[=]|[]]]]]];
      exists items; auto.
  - intros [= _ _ <-] [[=]|[[= <- <-]|[[=]|[]]]]. exists items; auto.
Qed.

(** Whatever a run writes is the report of a discovered folder or one of
    the two index pages over entries of discovered folders. *)
Lemma main_writes (root : path) (fs fs' : node) (r : result unit)
    (log : list event) (p : path) (c : string) :
  main lower csv_reader root fs = (r, fs', log) ->
  In (Wrote p c) log ->
  (exists d, In d (report_folders lower fs (root ++ ["outputs"]))
             /\ p = d ++ ["report.html"])
  \/ (exists items,
        Forall2 (entry_of (root ++ ["outputs"]))
                (report_folders lower fs (root ++ ["outputs"])) items
        /\ ((p = (root ++ ["site"]) ++ ["index.html"]
             /\ c = make_html (sorted (item_leb lower) items) "../outputs")
            \/ (p = root ++ ["index.html"]
                /\ c = make_html (sorted (item_leb lower) items) "outputs"))).
Proof.
  unfold main. unfold io_bind at 1. unfold read at 1.
  destruct (exists_ fs (root ++ ["outputs"]));
    [change (negb true) with false|change (negb false) with true];
    cbv iota beta; [|by intros [= _ _ <-]].
  unfold io_bind at 1. unfold read at 1. rewrite find_report_folders_filter.
  fold (report_folders lower fs (root ++ ["outputs"])).
  destruct (io_bind _ _ fs) as [[r1 fs1] l1] eqn:Hrun.
  intros [= <- <- <-] Hin. simpl in Hin.
  apply io_bind_inv in Hrun as [(e & Hloop & _)|(a & fs2 & l2 & l3 & Hloop & Hrest & ->)].
  - left. by eapply build_reports_writes.
  - apply in_app_iff in Hin as [Hin|Hin]; [left; by eapply build_reports_writes|].
    right.
    apply io_bind_inv in Hrest as [(e & Hidx & _)|(b & fs3 & l4 & l5 & Hidx & Hp & ->)].
    + by eapply build_index_pages_writes.
    + apply in_app_iff in Hin as [Hin|Hin]; [by eapply build_index_pages_writes|].
      unfold print in Hp. injection Hp as _ _ <-. by destruct Hin as [[=]|[]].
Qed.

(** The log of any run, complete or not: what the loop over the
    discovered folders logged, then what the index builder and the final
    message logged. *)
Lemma main_log_split (root : path) (fs fs' : node) (r : result unit)
    (log : list event) :
  main lower csv_reader root fs = (r, fs', log) ->
  exists l1 l2,
    log = l1 ++ l2
    /\ (forall p, ~ In (MadeDir p) l1)
    /\ (forall p c, In (Wrote p c) l1 ->
          exists d, In d (report_folders lower fs (root ++ ["outputs"]))
                    /\ p = d ++ ["report.html"])
    /\ (forall p c, In (Wrote p c) l2 ->
          p = (root ++ ["site"]) ++ ["index.html"] \/ p = root ++ ["index.html"]).
Proof.
  unfold main. unfold io_bind at 1. unfold read at 1.
  destruct (exists_ fs (root ++ ["outputs"]));
    [change (negb true) with false|change (negb false) with true];
    cbv iota beta.
  2:{ intros [= _ _ <-]. exists [], []. split; [done|]. split; [by intros p []|].
      split; by intros p c []. }
  unfold io_bind at 1. unfold read at 1. rewrite find_report_folders_filter.
  fold (report_folders lower fs (root ++ ["outputs"])).
  destruct (io_bind _ _ fs) as [[r1 fs1] l1] eqn:Hrun.
  intros [= <- <- <-]. simpl.
  assert (Hloop : forall ds g g' r' l,
            for_each (build_report lower csv_reader) ds g = (r', g', l) ->
            forall p, ~ In (MadeDir p) l).
  { induction ds as [|d ds IH]; intros g g' r' l; simpl.
    - by intros [= _ _ <-] p [].
    - assert (Hone : forall g1 g2 r2 l2,
                build_report lower csv_reader d g1 = (r2, g2, l2) ->
                forall p, ~ In (MadeDir p) l2).
      { intros g1 g2 r2 l2. unfold build_report, io_bind, read.
        destruct (list_images lower g1 d) as [[|img images]|e];
          [by intros [= _ _ <-] p []| |by intros [= _ _ <-] p []].
        destruct (read_captions csv_reader g1 (d ++ ["captions.csv"]));
          [|by intros [= _ _ <-] p []].
        unfold write_text, print.
        destruct (write_file g1 (d ++ ["report.html"]) _);
          intros [= _ _ <-] p Hin; simpl in Hin; by intuition. }
      intros [(e & Hd & _)|(a & g1 & l1' & l2' & Hd & Hrest & ->)]%io_bind_inv p.
      + by eapply Hone.
      + rewrite in_app_iff. intros [?|?]; [by eapply Hone|by eapply IH]. }
  apply io_bind_inv in Hrun as [(e & Hl & _)|(a & fs2 & l2 & l3 & Hl & Hrest & ->)].
  - exists l1, []. rewrite app_nil_r. split; [done|]. split; [by eapply Hloop|].
    split; [|done]. intros p c Hin. by eapply build_reports_writes.
  - exists l2, l3. split; [done|]. split; [by eapply Hloop|].
    split; [intros p c Hin; by eapply build_reports_writes|].
    intros p c Hin.
    apply io_bind_inv in Hrest as [(e & Hidx & _)|(b & fs3 & l4 & l5 & Hidx & Hp & ->)].
    + destruct (build_index_pages_writes root _ fs2 fs1 _ l3 p c Hidx Hin)
        as (_ & _ & [[-> _]|[-> _]]); auto.
    + apply in_app_iff in Hin as [Hin|Hin].
      * destruct (build_index_pages_writes root _ fs2 fs3 _ l4 p c Hidx Hin)
          as (_ & _ & [[-> _]|[-> _]]); auto.
      * unfold print in Hp. injection Hp as _ _ <-. by destruct Hin as [[=]|[]].
Qed.

End Writes.

(** C7 (amended): when nothing exists at [<root>/outputs] the run stops at
    once with [SystemExit] and its message, a non-zero exit status, an
    unchanged filesystem and an empty log.  When something exists there
    and no filesystem operation fails, the run returns, and its log is: the report of every discovered folder, in
    discovery order, then the [site] directory and the two index pages,
    then the final message.  In every run, complete or not, the reports
    are written before the [site] directory is made and before any index
    page is written, and only into folders discovered in the initial
    state. *)
Theorem main_abort_or_complete (lower : string -> string)
    (csv_reader : string -> list (list string)) (root : path) (fs : node) :
  let out := root ++ ["outputs"] in
  (exists_ fs out = false ->
     main lower csv_reader root fs = (Raise (SystemExit exit_message), fs, [])
     /\ exit_status (main lower csv_reader root fs).1.1 <> 0)
  /\ (exists_ fs out = true ->
      lower ".html" ∉ IMG_EXTS -> wf fs -> io_ok lower fs root = true ->
      exists fs' ds,
        find_report_folders lower fs out = Ok ds
        /\ main lower csv_reader root fs
           = (Ok tt, fs',
              flat_map (report_events lower csv_reader fs) ds
              ++ index_log (sorted (item_leb lower) (map (item_of lower fs out) ds)) root
              ++ [Printed done_message]))
  /\ (forall r fs' log,
        main lower csv_reader root fs = (r, fs', log) ->
        exists ds l1 l2,
          find_report_folders lower fs out = Ok ds
          /\ log = l1 ++ l2
          /\ (forall p, ~ In (MadeDir p) l1)
          /\ (forall p c, In (Wrote p c) l1 ->
                exists d, In d ds /\ p = d ++ ["report.html"])
          /\ (forall p c, In (Wrote p c) l2 ->
                p = (root ++ ["site"]) ++ ["index.html"] \/ p = root ++ ["index.html"])).
Proof.
  intros out. split; [|split].
  - intros H. rewrite (main_abort lower csv_reader root fs H). by split.
  - intros Hex Hl Hwf Hok.
    destruct (main_run lower csv_reader Hl root fs Hwf Hex Hok) as (fs' & Hrun & _).
    exists fs', (report_folders lower fs out).
    split; [apply find_report_folders_filter|exact Hrun].
  - intros r fs' log Hrun.
    destruct (main_log_split lower csv_reader root fs fs' r log Hrun)
      as (l1 & l2 & H1 & H2 & H3 & H4).
    exists (report_folders lower fs out), l1, l2.
    split; [apply find_report_folders_filter|done].
Qed.

Lemma main_abort_or_complete_witness :
  main ascii_lower csv_plain ["nowhere"] example_fs
  = (Raise (SystemExit exit_message), example_fs, [])
  /\ exists fs' ds,
       find_report_folders ascii_lower example_fs ["proj"; "outputs"] = Ok ds
       /\ main ascii_lower csv_plain ["proj"] example_fs
          = (Ok tt, fs',
             flat_map (report_events ascii_lower csv_plain example_fs) ds
             ++ index_log (sorted (item_leb ascii_lower)
                             (map (item_of ascii_lower example_fs ["proj"; "outputs"]) ds))
                          ["proj"]
             ++ [Printed done_message]).
Proof.
  split.
  - apply (main_abort_or_complete ascii_lower csv_plain ["nowhere"] example_fs).
    vm_compute; reflexivity.
  - apply (main_abort_or_complete ascii_lower csv_plain ["proj"] example_fs);
      [vm_compute; reflexivity|apply ascii_lower_html|vm_compute; reflexivity..].
Defined.

(** C4: for a folder without images [build_report] returns without
    writing and the folder is not among the discovered folders; whatever a
    run does, it writes no report into that folder, and every entry of an
    index page it writes is the entry of a discovered folder, hence of
    another folder. *)
Theorem no_images_no_report (lower : string -> string)
    (csv_reader : string -> list (list string)) (fs : node) (d : path) :
  list_images lower fs d = Ok [] ->
  build_report lower csv_reader d fs = (Ok tt, fs, [])
  /\ (forall out, exists ds, find_report_folders lower fs out = Ok ds /\ ~ In d ds)
  /\ (forall root r fs' log,
        main lower csv_reader root fs = (r, fs', log) ->
        (forall c, ~ In (Wrote (d ++ ["report.html"]) c) log)
        /\ (forall p c, In (Wrote p c) log ->
              (exists d', d' <> d /\ p = d' ++ ["report.html"])
              \/ (exists items prefix_to_outputs,
                    c = make_html items prefix_to_outputs
                    /\ Forall (fun it : item =>
                                 exists d' rel, d' <> d
                                   /\ relative_to d' (root ++ ["outputs"]) = Ok rel
                                   /\ it.1.1 = as_posix rel) items))).
Proof.
  intros Hnone.
  assert (Hnot : forall out, ~ In d (report_folders lower fs out)).
  { intros out [_ H]%report_folders_In. unfold has_images in H. by rewrite Hnone in H. }
  split; [by apply build_report_noop|]. split.
  - intros out. eexists. split; [apply find_report_folders_filter|apply Hnot].
  - intros root r fs' log Hrun.
    assert (Hw : forall p c, In (Wrote p c) log ->
              (exists d', d' <> d /\ p = d' ++ ["report.html"])
              \/ (exists items prefix_to_outputs,
                    (p = (root ++ ["site"]) ++ ["index.html"]
                     \/ p = root ++ ["index.html"])
                    /\ c = make_html items prefix_to_outputs
                    /\ Forall (fun it : item =>
                                 exists d' rel, d' <> d
                                   /\ relative_to d' (root ++ ["outputs"]) = Ok rel
                                   /\ it.1.1 = as_posix rel) items)).
    { intros p c Hin.
      destruct (main_writes lower csv_reader root fs fs' r log p c Hrun Hin)
        as [(d' & Hd' & ->)|(items & Hall & Hpc)].
      - left. exists d'. split; [|done]. intros ->. by eapply Hnot.
      - right. exists (sorted (item_leb lower) items).
        assert (Hitems : Forall (fun it : item =>
                     exists d' rel, d' <> d
                       /\ relative_to d' (root ++ ["outputs"]) = Ok rel
                       /\ it.1.1 = as_posix rel) (sorted (item_leb lower) items)).
        { apply List.Forall_forall. intros it Hit%sorted_In.
          apply list_elem_of_In in Hit.
          apply list_elem_of_lookup in Hit as (i & Hi).
          destruct (Forall2_lookup_r _ _ _ _ _ Hall Hi) as (d' & Hd' & (rel & Hrel & Hit)).
          exists d', rel. split; [|done]. intros ->.
          apply (Hnot (root ++ ["outputs"])), list_elem_of_In.
          by eapply list_elem_of_lookup_2. }
        destruct Hpc as [[-> ->]|[-> ->]]; eexists; split; auto. }
    split.
    + intros c Hin. destruct (Hw _ _ Hin) as [(d' & Hne & ->%app_inv_tail)|
                                               (_ & _ & [H|H] & _)]; [done|..];
        by apply app_inj_tail in H as [_ [=]].
    + intros p c Hin. destruct (Hw _ _ Hin) as [?|(items & pre & _ & ? & ?)];
        [by left|right; by exists items, pre].
Qed.

Lemma no_images_no_report_witness :
  build_report ascii_lower csv_plain ["proj"; "outputs"; "X"; "empty"] example_fs
  = (Ok tt, example_fs, []).
Proof.
  apply (no_images_no_report ascii_lower csv_plain example_fs
           ["proj"; "outputs"; "X"; "empty"]).
  vm_compute. reflexivity.
Defined.

(** ** Running again *)

Section Rerun.
Variable lower : string -> string.
Variable csv_reader : string -> list (list string).
Hypothesis lower_html : lower ".html" ∉ IMG_EXTS.

(** The final state of a run from [g], seen from a state [fs] that agrees
    with [g] below the outputs directory. *)
Lemma final_stat_agree (root : path) (fs g : node) (q : path) :
  wf fs -> wf g -> agree (root ++ ["outputs"]) fs g ->
  final_stat lower csv_reader g root q
  = if decide (q = root ++ ["index.html"]) then final_stat lower csv_reader fs root q
    else if decide (q = (root ++ ["site"]) ++ ["index.html"]) then
      final_stat lower csv_reader fs root q
    else if decide (q = root ++ ["site"]) then final_stat lower csv_reader fs root q
    else match List.find (fun d => bool_decide (d ++ ["report.html"] = q))
                 (report_folders lower fs (root ++ ["outputs"])) with
         | Some d => final_stat lower csv_reader fs root q
         | None => stat g q
         end.
Proof.
  intros W W' A. unfold final_stat.
  rewrite <- (index_items_agree lower lower_html _ fs g W W' A).
  rewrite <- (report_folders_agree' lower lower_html _ fs g W W' A).
  repeat case_decide; try done.
  destruct (List.find _ _) as [d|] eqn:E; [|done].
  apply find_some in E as [[(r & _ & ->) _]%report_folders_In _].
  by rewrite (report_text_agree lower csv_reader lower_html _ fs g r W W' A).
Qed.

Lemma final_stat_fixed (root : path) (fs : node) (q : path) :
  ~ (q = root ++ ["index.html"]) ->
  ~ (q = (root ++ ["site"]) ++ ["index.html"]) ->
  ~ (q = root ++ ["site"]) ->
  List.find (fun d => bool_decide (d ++ ["report.html"] = q))
            (report_folders lower fs (root ++ ["outputs"])) = None ->
  final_stat lower csv_reader fs root q = stat fs q.
Proof.
  intros H1 H2 H3 H4. unfold final_stat.
  by rewrite !decide_False, H4 by done.
Qed.

(** A second run, from any state that shows what [reference] shows, where
    [reference] is either the initial state or the state the first run
    left: same log, same final state. *)
Lemma main_again (root : path) (fs fs1 : node) (log : list event) :
  wf fs ->
  exists_ fs (root ++ ["outputs"]) = true ->
  io_ok lower fs root = true ->
  main lower csv_reader root fs = (Ok tt, fs1, log) ->
  forall g, wf g ->
    (forall q, stat g q = stat fs q) \/ (forall q, stat g q = stat fs1 q) ->
    exists g1, main lower csv_reader root g = (Ok tt, g1, log)
               /\ forall q, stat g1 q = stat fs1 q.
Proof.
  intros W Hex Hok Hrun g Wg Hg.
  destruct (main_run lower csv_reader lower_html root fs W Hex Hok)
    as (fs1' & Hrun' & W1 & A1 & S1).
  rewrite Hrun in Hrun'. injection Hrun' as <- ->.
  set (out := root ++ ["outputs"]) in *.
  assert (Ag : agree out fs g).
  { destruct Hg as [Hg|Hg].
    - apply agree_stat_eq. intros q. by rewrite Hg.
    - eapply agree_trans; [exact A1|]. apply agree_stat_eq. intros q. by rewrite Hg. }
  assert (Hexg : exists_ g out = true).
  { apply exists_stat. apply exists_stat in Hex.
    destruct (Ag []) as [E|(N & _)].
    - rewrite app_nil_r in E. by rewrite <- E.
    - rewrite app_nil_r in N. unfold out in N. by rewrite name_snoc in N. }
  pose proof Hok as Hok'. unfold io_ok in Hok'. fold out in Hok'.
  apply andb_true_iff in Hok' as [[[_ Hsite]%andb_true_iff Hi1]%andb_true_iff Hi2].
  assert (Hokg : io_ok lower g root = true).
  { apply (io_ok_agree lower lower_html root fs g W Wg Ag Hok);
      destruct Hg as [Hg|Hg]; rewrite Hg; try done; rewrite S1; unfold final_stat.
    - rewrite decide_False by path_neq. rewrite decide_False by path_neq.
      by rewrite decide_True.
    - rewrite decide_False by path_neq. by rewrite decide_True.
    - by rewrite decide_True. }
  destruct (main_run lower csv_reader lower_html root g Wg Hexg Hokg)
    as (g1 & Hrung & _ & _ & Sg).
  exists g1. split.
  - rewrite Hrung. by rewrite (main_events_agree lower csv_reader lower_html root fs g).
  - intros q. rewrite Sg, S1.
    rewrite (final_stat_agree root fs g q W Wg Ag).
    repeat case_decide; try done.
    destruct (List.find _ _) as [d|] eqn:E; [done|].
    destruct Hg as [Hg|Hg]; rewrite Hg.
    + by rewrite final_stat_fixed.
    + by rewrite S1.
Qed.

End Rerun.

(** ** Runs as functions of what the filesystem shows *)

Lemma write_file_sim (fs g : node) (p : path) (c : string) :
  (forall q, stat fs q = stat g q) ->
  match write_file fs p c, write_file g p c with
  | Some _, Some _ | None, None => True
  | _, _ => False
  end.
Proof.
  revert fs g. induction p as [|s p IH]; intros fs g H; simpl.
  - specialize (H []). rewrite !stat_nil in H. by destruct fs, g.
  - pose proof (H []) as H0. rewrite !stat_nil in H0.
    destruct fs as [|es|], g as [|es'|]; try done.
    pose proof (H [s]) as Hs. rewrite !stat_cons in Hs.
    destruct (find_entry s es) as [n|] eqn:E, (find_entry s es') as [n'|] eqn:E';
      rewrite ?stat_nil in Hs; try (by destruct n); try (by destruct n').
    + assert (Hn : forall q, stat n q = stat n' q).
      { intros q. specialize (H (s :: q)). by rewrite !stat_cons, E, E' in H. }
      specialize (IH n n' Hn).
      by destruct (write_file n p c), (write_file n' p c).
    + by destruct p.
Qed.

Lemma make_dirs_sim (fs g : node) (p : path) :
  (forall q, stat fs q = stat g q) ->
  match make_dirs fs p, make_dirs g p with
  | Some _, Some _ | None, None => True
  | _, _ => False
  end.
Proof.
  revert fs g. induction p as [|s p IH]; intros fs g H; simpl.
  - specialize (H []). rewrite !stat_nil in H. by destruct fs, g.
  - pose proof (H []) as H0. rewrite !stat_nil in H0.
    destruct fs as [|es|], g as [|es'|]; try done.
    pose proof (H [s]) as Hs. rewrite !stat_cons in Hs.
    destruct (find_entry s es) as [n|] eqn:E, (find_entry s es') as [n'|] eqn:E';
      rewrite ?stat_nil in Hs; try (by destruct n); try (by destruct n').
    + assert (Hn : forall q, stat n q = stat n' q).
      { intros q. specialize (H (s :: q)). by rewrite !stat_cons, E, E' in H. }
      specialize (IH n n' Hn).
      by destruct (make_dirs n p), (make_dirs n' p).
    + by destruct (make_dirs (Dir []) p).
Qed.

Lemma respects_ret {A : Type} (a : A) : respects (ret a).
Proof. by intros fs g H. Qed.

Lemma respects_raise {A : Type} (e : exn) : respects (@raise A e).
Proof. by intros fs g H. Qed.

Lemma respects_print (line : string) : respects (print line).
Proof. by intros fs g H. Qed.

Lemma respects_read {A : Type} (f : node -> result A) :
  (forall fs g, same_view fs g -> f fs = f g) -> respects (read f).
Proof. intros Hf fs g H. unfold read. simpl. by rewrite (Hf fs g H). Qed.

Lemma respects_bind {A B : Type} (m : io A) (k : A -> io B) :
  respects m -> (forall a, respects (k a)) -> respects (io_bind m k).
Proof.
  intros Hm Hk fs g H. unfold io_bind.
  destruct (Hm fs g H) as (Hr & Hl & Hv).
  destruct (m fs) as [[r1 fs1] l1], (m g) as [[r2 g1] l2]. simpl in *. subst.
  destruct r2 as [a|e]; [|done].
  destruct (Hk a fs1 g1 Hv) as (Hr & Hl & Hv').
  destruct (k a fs1) as [[r3 fs2] l3], (k a g1) as [[r4 g2] l4]. simpl in *.
  by subst.
Qed.

Lemma respects_write_text (p : path) (c : string) : respects (write_text p c).
Proof.
  intros fs g (W & W' & H). unfold write_text.
  pose proof (write_file_sim fs g p c H) as Hsim.
  destruct (write_file fs p c) as [fs1|] eqn:E, (write_file g p c) as [g1|] eqn:E';
    try done; simpl.
  split; [done|]. split; [done|].
  split; [exact (write_file_wf _ _ _ _ W E)|].
  split; [exact (write_file_wf _ _ _ _ W' E')|].
  intros q. by rewrite (write_file_stat _ _ _ _ E), (write_file_stat _ _ _ _ E'), H.
Qed.

Lemma respects_mkdir (p : path) : respects (mkdir p).
Proof.
  intros fs g (W & W' & H). unfold mkdir.
  pose proof (make_dirs_sim fs g p H) as Hsim.
  destruct (make_dirs fs p) as [fs1|] eqn:E, (make_dirs g p) as [g1|] eqn:E';
    try done; simpl.
  split; [done|]. split; [done|].
  split; [exact (make_dirs_wf _ _ _ W E)|].
  split; [exact (make_dirs_wf _ _ _ W' E')|].
  intros q. by rewrite (make_dirs_stat _ _ _ E), (make_dirs_stat _ _ _ E'), H.
Qed.

Lemma respects_for_each {A : Type} (body : A -> io unit) (xs : list A) :
  (forall x, respects (body x)) -> respects (for_each body xs).
Proof.
  intros Hb. induction xs as [|x xs IH]; simpl; [apply respects_ret|].
  by apply respects_bind.
Qed.

Lemma respects_for_collect {A B : Type} (body : A -> io B) (xs : list A) :
  (forall x, respects (body x)) -> respects (for_collect body xs).
Proof.
  intros Hb. induction xs as [|x xs IH]; simpl; [apply respects_ret|].
  apply respects_bind; [done|]. intros y.
  apply respects_bind; [done|]. intros ys. apply respects_ret.
Qed.

Section Views.
Variable lower : string -> string.
Variable csv_reader : string -> list (list string).
Hypothesis lower_html : lower ".html" ∉ IMG_EXTS.

Lemma list_images_view (fs g : node) (d : path) :
  same_view fs g -> list_images lower fs d = list_images lower g d.
Proof.
  intros (W & W' & H).
  exact (list_images_agree lower lower_html [] fs g W W' (agree_stat_eq [] fs g H) d).
Qed.

Lemma find_report_folders_view (fs g : node) (out : path) :
  same_view fs g ->
  find_report_folders lower fs out = find_report_folders lower g out.
Proof.
  intros (W & W' & H). rewrite !find_report_folders_filter. f_equal.
  apply (report_folders_agree lower lower_html out fs g W W'), agree_stat_eq, H.
Qed.

Lemma read_captions_view (fs g : node) (p : path) :
  same_view fs g -> read_captions csv_reader fs p = read_captions csv_reader g p.
Proof. intros (_ & _ & H). by rewrite !read_captions_stat, H. Qed.

Lemma exists_view (fs g : node) (p : path) :
  same_view fs g -> exists_ fs p = exists_ g p.
Proof.
  intros (_ & _ & H). apply eq_true_iff_eq. by rewrite !exists_stat, H.
Qed.

Lemma build_report_respects (d : path) : respects (build_report lower csv_reader d).
Proof.
  unfold build_report. apply respects_bind.
  { apply respects_read. intros. by apply list_images_view. }
  intros [|img images]; [apply respects_ret|].
  apply respects_bind.
  { apply respects_read. intros. by apply read_captions_view. }
  intros caps. apply respects_bind; [apply respects_write_text|].
  intros _. apply respects_print.
Qed.

Lemma build_index_pages_respects (root : path) (ds : list path) :
  respects (build_index_pages lower root ds).
Proof.
  unfold build_index_pages. apply respects_bind; [apply respects_mkdir|]. intros _.
  apply respects_bind.
  { apply respects_for_collect. intros d. unfold index_item.
    apply respects_bind; [by apply respects_read|]. intros rel.
    apply respects_bind; [|intros; apply respects_ret].
    apply respects_read. intros. by apply list_images_view. }
  intros items.
  repeat (apply respects_bind;
          [first [apply respects_write_text | apply respects_print]|intros _]).
  apply respects_print.
Qed.

(** From two states that show the same at every path, [main] gives the
    same result and the same log, and leaves states that show the same. *)
Lemma main_respects (root : path) : respects (main lower csv_reader root).
Proof.
  unfold main. apply respects_bind.
  { apply respects_read. intros fs g H. by rewrite (exists_view fs g _ H). }
  intros [|]; [|apply respects_raise]. simpl negb. cbv iota.
  apply respects_bind.
  { apply respects_read. intros. by apply find_report_folders_view. }
  intros ds. apply respects_bind.
  { apply respects_for_each. intros d. apply build_report_respects. }
  intros _. apply respects_bind; [apply build_index_pages_respects|].
  intros _. apply respects_print.
Qed.

End Views.

(** C9: a run is a function of what the filesystem shows at each path,
    not of the order in which directories list their entries: from two
    states that show the same, [main] gives the same result and the same
    log, hence the same bytes in every file it writes, and leaves states
    that show the same.  When the run completes, a second run, started
    from the state the first one left, writes the same bytes to the same
    files again and leaves that state as it is. *)
Theorem main_idempotent (lower : string -> string)
    (csv_reader : string -> list (list string)) (root : path) (fs : node) :
  lower ".html" ∉ IMG_EXTS ->
  wf fs ->
  (forall g, wf g -> (forall q, stat g q = stat fs q) ->
     (main lower csv_reader root g).1.1 = (main lower csv_reader root fs).1.1
     /\ (main lower csv_reader root g).2 = (main lower csv_reader root fs).2
     /\ forall q, stat (main lower csv_reader root g).1.2 q
                  = stat (main lower csv_reader root fs).1.2 q)
  /\ (exists_ fs (root ++ ["outputs"]) = true ->
      io_ok lower fs root = true ->
      exists fs1 log,
        main lower csv_reader root fs = (Ok tt, fs1, log)
        /\ (forall g, wf g -> (forall q, stat g q = stat fs1 q) ->
              exists g2, main lower csv_reader root g = (Ok tt, g2, log)
                         /\ forall q, stat g2 q = stat fs1 q)).
Proof.
  intros Hl W. split.
  - intros g Wg Hg.
    destruct (main_respects lower csv_reader Hl root g fs) as (Hr & Hlog & _ & _ & Hs);
      by repeat split.
  - intros Hex Hok.
    destruct (main_run lower csv_reader Hl root fs W Hex Hok) as (fs1 & Hrun & _).
    exists fs1, (main_events lower csv_reader fs root). split; [done|].
    intros g Wg Hg.
    eapply (main_again lower csv_reader Hl root fs fs1); eauto.
Qed.

Lemma main_idempotent_witness :
  exists fs1 log,
    main ascii_lower csv_plain ["proj"] example_fs = (Ok tt, fs1, log)
    /\ exists fs2, main ascii_lower csv_plain ["proj"] fs1 = (Ok tt, fs2, log)
                   /\ forall q, stat fs2 q = stat fs1 q.
Proof.
  destruct (proj2 (main_idempotent ascii_lower csv_plain ["proj"] example_fs
                     ascii_lower_html ltac:(vm_compute; reflexivity))
              ltac:(vm_compute; reflexivity) ltac:(vm_compute; reflexivity))
    as (fs1 & log & Hrun & Hagain).
  exists fs1, log. split; [exact Hrun|].
  apply Hagain; [|done].
  destruct (main_run ascii_lower csv_plain ascii_lower_html ["proj"] example_fs
              ltac:(vm_compute; reflexivity) ltac:(vm_compute; reflexivity)
              ltac:(vm_compute; reflexivity)) as (fs1' & Hrun' & W1 & _).
  rewrite Hrun in Hrun'. by injection Hrun' as <-.
Defined.

(** ** [strip] and the cards *)

Ltac n_cases :=
  repeat match goal with
         | H : context [(?x =? ?y)%N] |- _ => destruct (N.eqb_spec x y); try lia
         | H : context [(?x <=? ?y)%N] |- _ => destruct (N.leb_spec x y); try lia
         | |- context [(?x =? ?y)%N] => destruct (N.eqb_spec x y); try lia
         | |- context [(?x <=? ?y)%N] => destruct (N.leb_spec x y); try lia
         end.

Lemma ws_head_white (s r : string) :
  Strip.ws_head s = Some r ->
  exists w, s = w +:+ r /\ w <> EmptyString /\ Str.all white_byte w = true.
Proof.
  unfold Strip.ws_head. destruct s as [|a s]; [done|].
  destruct (Strip.is_ascii_space a) eqn:Ha.
  { intros [= <-]. exists (Str.chr a). split; [reflexivity|].
    split; [unfold Str.chr; congruence|].
    simpl. unfold white_byte. by rewrite Ha. }
  destruct (N_of_ascii a =? 194)%N eqn:H2.
  { destruct s as [|b s]; [done|]. destruct (Strip.is_space2 b) eqn:Hb; [|done].
    intros [= <-]. exists (String a (Str.chr b)). split; [reflexivity|].
    split; [congruence|].
    simpl. unfold white_byte, Strip.is_space2 in *. clear Ha.
    n_cases; simpl in *; try done; by rewrite ?orb_true_r. }
  destruct ((225 <=? N_of_ascii a) && (N_of_ascii a <=? 227))%N eqn:H3; [|done].
  destruct s as [|b [|c s]]; try done.
  destruct (Strip.is_space3 a b c) eqn:Hs; [|done].
  intros [= <-]. exists (String a (String b (Str.chr c))).
  split; [reflexivity|]. split; [congruence|]. simpl. unfold white_byte.
  unfold Strip.is_space3 in Hs. clear Ha H2.
  n_cases; simpl in *; try done; by rewrite ?orb_true_r.
Qed.

Lemma drop_ws_blank (fuel : nat) (t : string) :
  Strip.drop_ws fuel t = EmptyString -> Str.all white_byte t = true.
Proof.
  revert t. induction fuel as [|fuel IH]; intros t; simpl; [by intros ->|].
  destruct (Strip.ws_head t) as [r|] eqn:E; [|by intros ->].
  intros H. apply ws_head_white in E as (w & -> & _ & Hw).
  by rewrite str_all_app, Hw, (IH _ H).
Qed.

(** A blank string holds white-space bytes only. *)
Lemma is_blank_white (t : string) :
  Strip.is_blank t = true -> Str.all white_byte t = true.
Proof.
  unfold Strip.is_blank, Strip.lstrip.
  destruct (Strip.drop_ws (String.length t) t) eqn:E; [|done].
  intros _. by eapply drop_ws_blank.
Qed.

Lemma rstrip_app (s t : string) :
  Str.all white_byte t = false -> Strip.rstrip (s +:+ t) = s +:+ Strip.rstrip t.
Proof.
  intros Ht. induction s as [|a s IH]; [done|].
  rewrite !str_app_cons. simpl.
  destruct (Strip.is_blank (String a (s +:+ t))) eqn:E; [|by rewrite IH].
  apply is_blank_white in E. rewrite <- str_app_cons, str_all_app, Ht in E.
  by rewrite andb_false_r in E.
Qed.

Lemma all_app_false_r (f : ascii -> bool) (s t : string) :
  Str.all f t = false -> Str.all f (s +:+ t) = false.
Proof. intros H. by rewrite str_all_app, H, andb_false_r. Qed.

Lemma lstrip_space (a : ascii) (r : string) :
  Strip.is_ascii_space a = true -> Strip.lstrip (String a r) = Strip.lstrip r.
Proof. intros H. unfold Strip.lstrip. simpl. by rewrite H. Qed.

Lemma lstrip_anchor (a : ascii) (r : string) :
  white_byte a = false -> Strip.lstrip (String a r) = String a r.
Proof.
  unfold white_byte. intros [H1 H2%N.leb_gt]%orb_false_iff.
  unfold Strip.lstrip. simpl. rewrite H1.
  assert ((N_of_ascii a =? 194)%N = false) as -> by (apply N.eqb_neq; lia).
  assert ((225 <=? N_of_ascii a)%N = false) as -> by (apply N.leb_gt; lia).
  done.
Qed.

(** [.strip()] removes the line break and the indentation around a card
    and nothing else. *)
Lemma card_stripped (nm caption_text : string) :
  card nm caption_text
  = card_html (url_path [nm]) (html_escape nm) (html_escape caption_text).
Proof.
  unfold card, card_template, card_html, Strip.strip.
  match goal with
  | |- Strip.rstrip (Strip.lstrip (_ +:+ ?R)) = _ =>
      change (Strip.rstrip (Strip.lstrip
                (String Str.NL ("            " +:+ "<figure class=" +:+ R)))
              = card_html (url_path [nm]) (html_escape nm) (html_escape caption_text))
  end.
  rewrite lstrip_space by reflexivity.
  repeat (rewrite str_app_cons, lstrip_space by reflexivity).
  change (EmptyString +:+ ?x) with x.
  rewrite str_app_cons, lstrip_anchor by reflexivity. rewrite <- str_app_cons.
  unfold card_html.
  repeat (rewrite rstrip_app
            by (repeat first [reflexivity | apply all_app_false_r])).
  reflexivity.
Qed.

(** ** The markup of the pages *)

Lemma str_filter_app (f : ascii -> bool) (s t : string) :
  str_filter f (s +:+ t) = str_filter f s +:+ str_filter f t.
Proof.
  induction s as [|a s IH]; [done|]. rewrite str_app_cons. simpl.
  destruct (f a); by rewrite IH.
Qed.

Lemma markup_app (s t : string) : markup (s +:+ t) = markup s +:+ markup t.
Proof. apply str_filter_app. Qed.

Lemma markup_clean (s : string) :
  Str.all (fun c => negb (is_markup c)) s = true -> markup s = EmptyString.
Proof.
  induction s as [|a s IH]; [done|]. simpl.
  intros [Ha Hs]%andb_true_iff. unfold markup. simpl.
  apply negb_true_iff in Ha. rewrite Ha. by apply IH.
Qed.

Lemma markup_html_escape (s : string) : markup (html_escape s) = EmptyString.
Proof. apply markup_clean, html_escape_no_markup. Qed.

Lemma markup_quote (s : string) : markup (quote s) = EmptyString.
Proof.
  apply markup_clean. eapply all_impl; [|apply quote_url_chars].
  intros c Hc. by rewrite (url_char_no_markup c Hc).
Qed.

Lemma markup_url_path (parts : list string) : markup (url_path parts) = EmptyString.
Proof.
  induction parts as [|p [|q parts] IH]; [done| |].
  - apply markup_quote.
  - by rewrite url_path_cons, !markup_app, markup_quote, IH.
Qed.

Lemma string_of_uint_digits (d : Decimal.uint) :
  markup (NilEmpty.string_of_uint d) = EmptyString.
Proof. induction d; simpl; try done; unfold markup in *; simpl; by rewrite ?IHd. Qed.

Lemma markup_of_nat (n : nat) : markup (Str.of_nat n) = EmptyString.
Proof.
  unfold Str.of_nat, NilZero.string_of_uint.
  destruct (Nat.to_uint n) eqn:E; try done; rewrite <- E; apply string_of_uint_digits.
Qed.

Lemma markup_concat (l : list string) :
  markup (String.concat EmptyString l) = String.concat EmptyString (map markup l).
Proof.
  induction l as [|x [|y l] IH]; [done|done|].
  rewrite concat_cons_cons, !markup_app, IH. by simpl.
Qed.

Lemma markup_card (nm caption_text : string) :
  markup (card nm caption_text) = markup (card EmptyString EmptyString).
Proof.
  rewrite !card_stripped. unfold card_html.
  rewrite !markup_app, !markup_url_path, !markup_html_escape. reflexivity.
Qed.

Lemma map_const_repeat {A B : Type} (b : B) (l : list A) :
  map (fun _ => b) l = repeat b (length l).
Proof. induction l; simpl; congruence. Qed.

(** The markup of a report depends on the number of its cards only. *)
Lemma markup_report_page (title : string) (n : nat) (entries : list (string * string)) :
  markup (report_page title n (map (fun e => card e.1 e.2) entries))
  = markup (report_page EmptyString 0
              (repeat (card EmptyString EmptyString) (length entries))).
Proof.
  unfold report_page.
  rewrite !markup_app, !markup_html_escape, !markup_of_nat, !markup_concat.
  rewrite map_map, (map_ext _ (fun _ => markup (card EmptyString EmptyString)))
    by (intros; apply markup_card).
  rewrite map_const_repeat, map_repeat. reflexivity.
Qed.

Lemma markup_index_li (href label : string) (img_count : nat) :
  markup href = EmptyString -> markup label = EmptyString ->
  markup (index_li href label img_count)
  = markup (index_li EmptyString EmptyString 0).
Proof.
  intros Hh Hl. unfold index_li.
  rewrite !markup_app, Hh, Hl, !markup_of_nat. reflexivity.
Qed.

(** The markup of an index page depends on the number of its entries
    only. *)
Lemma markup_make_html (items : list item) (prefix_to_outputs : string) :
  markup (make_html items prefix_to_outputs)
  = markup (make_html (repeat (EmptyString, EmptyString, 0) (length items))
                      EmptyString).
Proof.
  unfold make_html. destruct items as [|it items]; [done|].
  set (li := fun p (it : item) =>
               let '(rel, report_rel, img_count) := it in
               index_li (url_path (p :: Str.split "/" report_rel))
                        (html_escape rel) img_count).
  change (markup (index_page (String.concat EmptyString
                                (map (li prefix_to_outputs) (it :: items))))
          = markup (index_page (String.concat EmptyString
                      (map (li EmptyString)
                           (repeat (EmptyString, EmptyString, 0)
                                   (length (it :: items))))))).
  unfold index_page. rewrite !markup_app, !markup_concat, !map_map.
  rewrite (map_ext _ (fun _ => markup (index_li EmptyString EmptyString 0))).
  2:{ intros [[rel rr] n]. unfold li.
      apply markup_index_li; [apply markup_url_path|apply markup_html_escape]. }
  rewrite (map_ext (fun x => markup (li EmptyString x))
                   (fun _ => markup (index_li EmptyString EmptyString 0))).
  2:{ intros [[rel rr] n]. unfold li.
      apply markup_index_li; [apply markup_url_path|apply markup_html_escape]. }
  by rewrite !map_const_repeat, repeat_length.
Qed.

(** C3: file names, captions and titles reach the pages through
    [html.escape] and [quote] only.  A card is fixed text around the quoted
    file name (twice), the escaped file name and the escaped caption.
    Escaped text holds no tag bracket and no quote, quoted text holds
    unreserved characters, slashes and percent escapes only.  Hence the
    markup (brackets and quotes) of every report and of every index page
    that is written does not depend on any file name or caption. *)
Theorem user_text_is_escaped (lower : string -> string)
    (csv_reader : string -> list (list string)) :
  (forall nm caption_text,
      card nm caption_text
      = card_html (quote nm) (html_escape nm) (html_escape caption_text))
  /\ (forall s, Str.all (fun c => negb (is_markup c)) (html_escape s) = true)
  /\ (forall s, Str.all is_url_char (quote s) = true)
  /\ (forall c, is_url_char c = true ->
        is_markup c = false /\ c <> " "%char /\ c <> "&"%char)
  /\ html_escape "<script>" = "&lt;script&gt;"
  /\ html_escape "a b&c.png" = "a b&amp;c.png"
  /\ quote "a b&c.png" = "a%20b%26c.png"
  /\ (forall d fs r fs' log p c,
        build_report lower csv_reader d fs = (r, fs', log) ->
        In (Wrote p c) log ->
        exists images (caps : gmap string string),
          list_images lower fs d = Ok images
          /\ c = report_page (name d) (length images)
                   (map (fun img =>
                           card_html (quote (name img)) (html_escape (name img))
                             (html_escape (default EmptyString (caps !! name img))))
                        images)
          /\ markup c
             = markup (report_page EmptyString 0
                         (repeat (card EmptyString EmptyString) (length images))))
  /\ (forall root ds fs r fs' log p c,
        build_index_pages lower root ds fs = (r, fs', log) ->
        In (Wrote p c) log ->
        exists items prefix_to_outputs,
          c = make_html items prefix_to_outputs
          /\ markup c
             = markup (make_html (repeat (EmptyString, EmptyString, 0) (length items))
                                 EmptyString)).
Proof.
  split; [intros; apply card_stripped|].
  split; [apply html_escape_no_markup|].
  split; [apply quote_url_chars|].
  split; [intros c Hc; split; [by apply url_char_no_markup|];
          split; intros ->; by vm_compute in Hc|].
  do 3 (split; [reflexivity|]). split.
  - intros d fs r fs' log p c Hrun Hin.
    destruct (build_report_writes lower csv_reader d fs fs' r log p c Hrun Hin)
      as (images & caps & Hi & _ & _ & ->).
    exists images, caps. split; [done|]. split.
    + f_equal. apply map_ext. intros img. apply card_stripped.
    + pose proof (markup_report_page (name d) (length images)
                    (map (fun img => (name img, default EmptyString (caps !! name img)))
                         images)) as H.
      rewrite map_map, length_map in H. exact H.
  - intros root ds fs r fs' log p c Hrun Hin.
    destruct (build_index_pages_writes lower root ds fs fs' r log p c Hrun Hin)
      as (items & _ & [[_ ->]|[_ ->]]); eexists _, _; (split; [done|]);
      apply markup_make_html.
Qed.

Lemma user_text_is_escaped_witness :
  exists c,
    In (Wrote ["proj"; "outputs"; "Gallery"; "report.html"] c)
       (build_report ascii_lower csv_plain ["proj"; "outputs"; "Gallery"] example_fs).2
    /\ markup c
       = markup (report_page EmptyString 0 (repeat (card EmptyString EmptyString) 2)).
Proof.
  destruct (build_report ascii_lower csv_plain ["proj"; "outputs"; "Gallery"] example_fs)
    as [[r fs'] log] eqn:Hrun.
  assert (Hin : exists c, In (Wrote ["proj"; "outputs"; "Gallery"; "report.html"] c) log).
  { vm_compute in Hrun. injection Hrun as _ _ <-. eexists. left. reflexivity. }
  destruct Hin as (c & Hin). exists c. split; [exact Hin|].
  destruct (proj1 (proj2 (proj2 (proj2 (proj2 (proj2 (proj2
              (proj2 (user_text_is_escaped ascii_lower csv_plain))))))))
              _ _ _ _ _ _ _ Hrun Hin) as (images & caps & Hi & _ & Hm).
  vm_compute in Hi. injection Hi as <-. exact Hm.
Defined.

(** ** The caption loader *)

Lemma fold_insert_none (l : list string) (d : gmap string (option string)) (k : string) :
  fold_left (fun d k => <[k := None]> d) l d !! k
  = if decide (k ∈ l) then Some None else d !! k.
Proof.
  revert d. induction l as [|x l IH]; intros d.
  - destruct (decide (k ∈ [])) as [H|H]; [by apply elem_of_nil in H|done].
  - cbn [fold_left]. rewrite IH.
    destruct (decide (k ∈ l)) as [Hl|Hl], (decide (k ∈ x :: l)) as [Hxl|Hxl];
      try done.
    + destruct Hxl. by right.
    + apply elem_of_cons in Hxl as [->|?]; [|done]. by rewrite lookup_insert_eq.
    + rewrite lookup_insert_ne; [done|]. intros ->. apply Hxl. by left.
Qed.

Lemma fold_insert_pairs (l : list (string * string)) (d : gmap string (option string))
    (k : string) :
  k ∉ l.*1 ->
  fold_left (fun d kv => <[kv.1 := Some kv.2]> d) l d !! k = d !! k.
Proof.
  revert d. induction l as [|[a b] l IH]; intros d; simpl; [done|].
  intros [Hne Hl]%not_elem_of_cons. rewrite IH by done.
  by rewrite lookup_insert_ne.
Qed.

(** A field name beyond the end of a short row reads as the empty
    string. *)
Lemma row_dict_short (fieldnames row : list string) (k : string) :
  k ∈ drop (length row) fieldnames ->
  get_or_empty (row_dict fieldnames row) k = EmptyString.
Proof.
  intros Hk. unfold get_or_empty, row_dict.
  by rewrite fold_insert_none, decide_True.
Qed.

(** A column the header does not name reads as the empty string. *)
Lemma row_dict_absent (fieldnames row : list string) (k : string) :
  k ∉ fieldnames -> get_or_empty (row_dict fieldnames row) k = EmptyString.
Proof.
  intros Hk. unfold get_or_empty, row_dict.
  rewrite fold_insert_none, decide_False.
  - rewrite fold_insert_pairs; [by rewrite lookup_empty|].
    intros ([a b] & -> & Hin)%list_elem_of_fmap. apply Hk.
    by eapply elem_of_zip_l.
  - intros Hin. apply Hk. rewrite <- (take_drop (length row) fieldnames).
    apply elem_of_app. by right.
Qed.

(** ** The index pages *)

Lemma item_leb_total (lower : string -> string) (x y : item) :
  item_leb lower x y = true \/ item_leb lower y x = true.
Proof. apply String.leb_total. Qed.

Lemma item_leb_trans (lower : string -> string) (x y z : item) :
  item_leb lower x y = true -> item_leb lower y z = true -> item_leb lower x z = true.
Proof. apply leb_trans. Qed.

Lemma make_html_unfold (items : list item) (prefix_to_outputs : string) :
  make_html items prefix_to_outputs
  = index_page
      match items with
      | [] => no_reports_li
      | _ =>
          String.concat EmptyString
            (map (fun it : item =>
                    index_li (url_path (prefix_to_outputs :: Str.split "/" it.1.2))
                             (html_escape it.1.1) it.2) items)
      end.
Proof.
  unfold make_html.
  rewrite (map_ext _ (fun it : item =>
             index_li (url_path (prefix_to_outputs :: Str.split "/" it.1.2))
                      (html_escape it.1.1) it.2)) by (by intros [[? ?] ?]).
  by destruct items.
Qed.

(** ** Links: quoting is reversible, joining and splitting are inverse *)

Lemma hex_digit_inj (a b : N) :
  (a < 16)%N -> (b < 16)%N -> hex_digit a = hex_digit b -> a = b.
Proof.
  intros Ha Hb H. apply (f_equal N_of_ascii) in H. unfold hex_digit in H.
  destruct (N.ltb_spec a 10), (N.ltb_spec b 10);
    rewrite !N_ascii_embedding in H by lia; lia.
Qed.

Lemma percent_hex_inj (c c' : ascii) : percent_hex c = percent_hex c' -> c = c'.
Proof.
  unfold percent_hex. intros [= H1 H2].
  assert (Hc : (N_of_ascii c < 256)%N) by apply N_ascii_bounded.
  assert (Hc' : (N_of_ascii c' < 256)%N) by apply N_ascii_bounded.
  apply hex_digit_inj in H1;
    [|apply N.Div0.div_lt_upper_bound; lia|apply N.Div0.div_lt_upper_bound; lia].
  apply hex_digit_inj in H2; [|by apply N.mod_lt..].
  rewrite <- (ascii_N_embedding c), <- (ascii_N_embedding c').
  f_equal.
  rewrite (N.div_mod (N_of_ascii c) 16), (N.div_mod (N_of_ascii c') 16) by lia.
  by rewrite H1, H2.
Qed.

Lemma safe_not_percent (c : ascii) :
  always_safe c || Str.mem c "/" = true -> c <> "%"%char.
Proof. intros H ->. by vm_compute in H. Qed.

Lemma quote_inj (s t : string) : quote s = quote t -> s = t.
Proof.
  revert t. induction s as [|c s IH]; intros [|c' t].
  - done.
  - rewrite quote_cons. unfold quoter, percent_hex, Str.chr.
    by destruct (always_safe c' || Str.mem c' "/").
  - rewrite quote_cons. unfold quoter, percent_hex, Str.chr.
    by destruct (always_safe c || Str.mem c "/").
  - rewrite !quote_cons. unfold quoter.
    destruct (always_safe c || Str.mem c "/") eqn:Hc,
             (always_safe c' || Str.mem c' "/") eqn:Hc'.
    + unfold Str.chr. simpl. intros [= -> H]. by rewrite (IH _ H).
    + unfold Str.chr, percent_hex. simpl. intros [= -> _].
      by apply safe_not_percent in Hc.
    + unfold Str.chr, percent_hex. simpl. intros [= <- _].
      by apply safe_not_percent in Hc'.
    + intros H.
      assert (percent_hex c = percent_hex c' /\ quote s = quote t) as [H1 H2].
      { unfold percent_hex in *. simpl in H. injection H as H1 H2 H3.
        by rewrite H1, H2. }
      by rewrite (percent_hex_inj _ _ H1), (IH _ H2).
Qed.

Lemma split_nonempty (c : ascii) (s : string) : Str.split c s <> [].
Proof.
  induction s as [|a s IH]; simpl; [done|].
  destruct (Ascii.eqb a c); [done|]. by destruct (Str.split c s).
Qed.

Lemma split_no_sep (c : ascii) (s : string) :
  Str.mem c s = false -> Str.split c s = [s].
Proof.
  induction s as [|a s IH]; simpl; [done|].
  destruct (Ascii.eqb a c); [done|]. simpl. intros H. by rewrite (IH H).
Qed.

(** [(s + c + t).split(c) = s.split(c) + t.split(c)] *)
Lemma split_app_sep (c : ascii) (s t : string) :
  Str.split c (s +:+ String c t) = Str.split c s ++ Str.split c t.
Proof.
  induction s as [|a s IH].
  - simpl. by rewrite Ascii.eqb_refl.
  - rewrite str_app_cons. simpl. destruct (Ascii.eqb a c).
    + by rewrite IH.
    + rewrite IH. pose proof (split_nonempty c s).
      by destruct (Str.split c s).
Qed.

(** [sep.join(l).split(sep) = l] for a non-empty [l] of pieces without
    [sep]. *)
Lemma split_concat (c : ascii) (l : list string) :
  l <> [] -> Forall (fun s => Str.mem c s = false) l ->
  Str.split c (String.concat (Str.chr c) l) = l.
Proof.
  induction l as [|x l IH]; [done|]. intros _ Hl.
  apply Forall_cons in Hl as [Hx Hl].
  destruct l as [|y l].
  - simpl. by apply split_no_sep.
  - rewrite concat_cons_cons.
    change (x +:+ Str.chr c +:+ String.concat (Str.chr c) (y :: l))
      with (x +:+ String c (String.concat (Str.chr c) (y :: l))).
    rewrite split_app_sep, split_no_sep by done. by rewrite IH.
Qed.

Lemma quote_no_slash (s : string) :
  Str.mem "/" s = false -> Str.mem "/" (quote s) = false.
Proof.
  intros H. apply str_mem_count. rewrite quote_count_slash. by apply str_mem_count.
Qed.

Lemma map_quote_inj (ps qs : list string) : map quote ps = map quote qs -> ps = qs.
Proof.
  revert qs. induction ps as [|p ps IH]; intros [|q qs]; try done.
  simpl. intros [= H1 H2]. by rewrite (quote_inj _ _ H1), (IH _ H2).
Qed.

Lemma split_url_path (ps : list string) :
  ps <> [] -> Forall (fun s => Str.mem "/" s = false) ps ->
  Str.split "/" (url_path ps) = map quote ps.
Proof.
  intros Hp Fp. apply (split_concat "/" (map quote ps)).
  - by destruct ps.
  - apply Forall_map. eapply Forall_impl; [exact Fp|]. intros s. apply quote_no_slash.
Qed.

Lemma url_path_inj (ps qs : list string) :
  ps <> [] -> qs <> [] ->
  Forall (fun s => Str.mem "/" s = false) ps ->
  Forall (fun s => Str.mem "/" s = false) qs ->
  url_path ps = url_path qs -> ps = qs.
Proof.
  intros Hp Hq Fp Fq H. apply map_quote_inj.
  rewrite <- (split_url_path ps), <- (split_url_path qs) by done. by rewrite H.
Qed.

Lemma url_char_ascii (c : ascii) :
  is_url_char c = true -> (N_of_ascii c <? 128)%N = true.
Proof. ascii_cases c; vm_compute; congruence. Qed.

Lemma url_path_ascii (ps : list string) :
  Str.all (fun c => (N_of_ascii c <? 128)%N) (url_path ps) = true.
Proof.
  apply (all_impl is_url_char); [apply url_char_ascii|].
  induction ps as [|p ps IH]; [done|]. destruct ps as [|q ps].
  - apply quote_url_chars.
  - by rewrite url_path_cons, !str_all_app, quote_url_chars, IH.
Qed.

(** X1: links identify what they point at.  [quote] is injective, so two
    images of a folder with different names never get the same link, and
    [url_path] is injective on non-empty lists of segments without a
    slash, so the index links of two different folders differ.  Both
    conditions are needed: a slash inside a segment reads as a separator,
    and no parts at all read as one empty part.  A link is ASCII text
    whatever the script of the names. *)
Theorem url_path_injective (ps qs : list string) :
  (forall a b, quote a = quote b -> a = b)
  /\ (ps <> [] -> qs <> [] ->
      Forall (fun s => Str.mem "/" s = false) ps ->
      Forall (fun s => Str.mem "/" s = false) qs ->
      url_path ps = url_path qs -> ps = qs)
  /\ url_path ["a/b"] = url_path ["a"; "b"]
  /\ url_path [] = url_path [""]
  /\ Str.all (fun c => (N_of_ascii c <? 128)%N) (url_path ps) = true.
Proof.
  split; [apply quote_inj|]. split; [apply url_path_inj|].
  split; [done|]. split; [done|]. apply url_path_ascii.
Qed.

Lemma url_path_injective_witness :
  url_path ["outputs"; "a b"; "report.html"]
  <> url_path ["outputs"; "a%20b"; "report.html"].
Proof.
  intros H.
  apply (url_path_injective ["outputs"; "a b"; "report.html"]
           ["outputs"; "a%20b"; "report.html"]) in H;
    [discriminate H|discriminate|discriminate|repeat constructor..].
Defined.

(** ** The links of the index *)

Lemma split_report_rel (r : path) :
  r <> [] -> Forall (fun s => Str.mem "/" s = false) r ->
  Str.split "/" (as_posix r +:+ "/report.html") = r ++ ["report.html"].
Proof.
  intros Hr Fr.
  assert (as_posix r = String.concat "/" r) as -> by (by destruct r).
  change (String.concat "/" r +:+ "/report.html")
    with (String.concat (Str.chr "/") r +:+ String "/" "report.html").
  rewrite split_app_sep, split_concat by done. done.
Qed.

(** X2: the link of an index entry is the path of the report.  For a
    folder [r] below the outputs directory whose segments hold no slash,
    the label is the segments joined by slashes, and splitting the report
    path of the entry on slashes, as [make_html] does, gives the segments
    back, followed by [report.html]: the link is the prefix, the quoted
    segments and [report.html], joined by slashes.  The links of the page
    under [site] are those of the other page behind [../].  For the
    outputs directory itself the label is a dot. *)
Theorem index_link_is_report_path (lower : string -> string) (out r : path)
    (fs : node) (images : list path) :
  list_images lower fs (out ++ r) = Ok images ->
  (r <> [] -> Forall (fun s => Str.mem "/" s = false) r ->
   exists rel report_rel,
     index_item lower out (out ++ r) fs = (Ok (rel, report_rel, length images), fs, [])
     /\ rel = String.concat "/" r
     /\ Str.split "/" report_rel = r ++ ["report.html"]
     /\ (forall prefix_to_outputs,
           url_path (prefix_to_outputs :: Str.split "/" report_rel)
           = String.concat "/" (map quote (prefix_to_outputs :: r ++ ["report.html"])))
     /\ url_path ("../outputs" :: Str.split "/" report_rel)
        = "../" +:+ url_path ("outputs" :: Str.split "/" report_rel))
  /\ (r = [] ->
      index_item lower out (out ++ r) fs
      = (Ok (".", "./report.html", length images), fs, [])).
Proof.
  intros Himg. split.
  - intros Hr Fr. exists (as_posix r), (as_posix r +:+ "/report.html").
    split; [|split; [by destruct r|split; [by apply split_report_rel|split]]].
    + unfold index_item, io_bind, read, ret. by rewrite relative_to_app, Himg.
    + intros pre. by rewrite split_report_rel.
    + rewrite split_report_rel by done.
      destruct (r ++ ["report.html"]) as [|x l] eqn:E; [by destruct r|].
      rewrite !url_path_cons. reflexivity.
  - intros ->. unfold index_item, io_bind, read, ret.
    rewrite app_nil_r in *. rewrite <- (app_nil_r out) at 1.
    by rewrite relative_to_app, Himg.
Qed.

Lemma index_link_is_report_path_witness :
  exists rel report_rel,
    index_item ascii_lower ["proj"; "outputs"] (["proj"; "outputs"] ++ ["X"; "exp1"])
      example_fs
    = (Ok (rel, report_rel, 1), example_fs, [])
    /\ rel = "X/exp1"
    /\ Str.split "/" report_rel = ["X"; "exp1"; "report.html"].
Proof.
  destruct (proj1 (index_link_is_report_path ascii_lower ["proj"; "outputs"]
                     ["X"; "exp1"] example_fs [["proj"; "outputs"; "X"; "exp1"; "z & y.webp"]]
                     ltac:(vm_compute; reflexivity))
              ltac:(discriminate) ltac:(repeat constructor))
    as (rel & rr & H1 & H2 & H3 & _).
  exists rel, rr. split; [exact H1|]. split; [exact H2|exact H3].
Defined.

(** ** Which names are image names *)

Lemma rfind_None (c : ascii) (s : string) :
  Str.rfind c s = None <-> Str.mem c s = false.
Proof.
  induction s as [|a s IH]; simpl; [done|].
  destruct (Str.rfind c s) as [i|].
  - split; [done|]. intros [_ H]%orb_false_iff. by apply IH in H.
  - destruct (Ascii.eqb a c); simpl; [done|]. by rewrite <- IH.
Qed.

Lemma rfind_Some (c : ascii) (s : string) (i : nat) :
  Str.rfind c s = Some i ->
  exists a b, s = a +:+ String c b /\ String.length a = i /\ Str.mem c b = false.
Proof.
  revert i. induction s as [|x s IH]; simpl; [done|]. intros i.
  destruct (Str.rfind c s) as [j|] eqn:E.
  - intros [= <-]. destruct (IH j eq_refl) as (a & b & -> & <- & Hb).
    by exists (String x a), b.
  - destruct (Ascii.eqb_spec x c) as [->|]; [|done]. intros [= <-].
    exists EmptyString, s. by rewrite <- rfind_None.
Qed.

Lemma rfind_app (c : ascii) (a b : string) :
  Str.mem c b = false -> Str.rfind c (a +:+ String c b) = Some (String.length a).
Proof.
  intros Hb. induction a as [|x a IH]; simpl.
  - apply rfind_None in Hb. by rewrite Hb, Ascii.eqb_refl.
  - by rewrite IH.
Qed.

Lemma drop_length_app (a t : string) : Str.drop (String.length a) (a +:+ t) = t.
Proof. induction a as [|x a IH]; simpl; [by destruct t|done]. Qed.

Lemma str_length_app (a b : string) :
  String.length (a +:+ b) = String.length a + String.length b.
Proof. induction a as [|x a IH]; simpl; [done|]. by rewrite IH. Qed.

(** [PurePath.suffix]: a non-empty suffix is a dot and a non-empty rest
    without a dot, after a non-empty stem. *)
Lemma suffix_of_spec (nm e : string) :
  e <> EmptyString ->
  suffix_of nm = e
  <-> exists stem e', nm = stem +:+ String "." e' /\ e = String "." e'
                      /\ stem <> EmptyString /\ e' <> EmptyString
                      /\ Str.mem "." e' = false.
Proof.
  intros He. unfold suffix_of. split.
  - destruct (Str.rfind "." nm) as [i|] eqn:E; [|by intros <-].
    destruct (rfind_Some _ _ _ E) as (a & b & -> & <- & Hb).
    rewrite str_length_app. simpl.
    destruct (0 <? String.length a) eqn:H0; simpl; [|by intros <-].
    destruct (String.length a <? String.length a + S (String.length b) - 1) eqn:H1;
      [|by intros <-].
    rewrite drop_length_app. intros <-. exists a, b. repeat split; try done.
    + intros ->. by simpl in H0.
    + intros ->. simpl in H1. apply Nat.ltb_lt in H1. lia.
  - intros (stem & e' & -> & -> & Hs & He' & Hd).
    rewrite rfind_app, str_length_app, drop_length_app by done. simpl.
    assert ((0 <? String.length stem) = true) as ->.
    { apply Nat.ltb_lt. destruct stem; [done|simpl; lia]. }
    assert ((String.length stem <? String.length stem + S (String.length e') - 1) = true)
      as ->; [|done].
    apply Nat.ltb_lt. destruct e'; [done|simpl; lia].
Qed.

Lemma ascii_lower_empty : ascii_lower EmptyString ∉ IMG_EXTS.
Proof. rewrite IMG_EXTS_spec. simpl. intros [|[|[|[|]]]]; discriminate. Qed.

(** X3: which files are images.  A regular file is an image exactly when
    its name is a non-empty stem, a dot, and a non-empty extension without
    a dot whose lower-cased form, with the dot, is one of the five
    suffixes.  Hence a file whose whole name is a suffix, such as
    [.png], is no image, nor is a name that ends with a dot. *)
Theorem image_name_shape (lower : string -> string) (fs : node) (p : path) :
  lower EmptyString ∉ IMG_EXTS ->
  (is_image lower fs p = true
   <-> is_file fs p = true
       /\ exists stem e,
            name p = stem +:+ "." +:+ e
            /\ stem <> EmptyString /\ e <> EmptyString
            /\ Str.mem "." e = false
            /\ lower ("." +:+ e) ∈ IMG_EXTS)
  /\ (forall d e, Str.mem "." e = false ->
        is_image lower fs (d ++ [String "." e]) = false)
  /\ (forall d stem, is_image lower fs (d ++ [stem +:+ "."]) = false).
Proof.
  intros Hl.
  assert (Hno : forall nm, suffix_of nm = EmptyString ->
            forall q, name q = nm -> is_image lower fs q = false).
  { intros nm Hnm q Hq. unfold is_image, suffix. rewrite Hq, Hnm.
    rewrite bool_decide_eq_false_2 by done. apply andb_false_r. }
  split; [|split].
  - unfold is_image, suffix. rewrite andb_true_iff, bool_decide_eq_true. split.
    + intros [Hf Hs]. split; [done|].
      destruct (suffix_of (name p)) as [|a e0] eqn:E; [done|].
      apply suffix_of_spec in E as (stem & e' & H1 & H2 & H3 & H4 & H5); [|done].
      exists stem, e'. rewrite H2 in Hs. done.
    + intros [Hf (stem & e & H1 & H2 & H3 & H4 & H5)]. split; [done|].
      assert (suffix_of (name p) = String "." e) as ->; [|done].
      apply suffix_of_spec; [done|]. by exists stem, e.
  - intros d e He. apply (Hno (String "." e)); [|apply name_snoc].
    destruct (suffix_of (String "." e)) as [|a e0] eqn:E; [done|].
    apply suffix_of_spec in E as (stem & e' & H1 & _ & H3 & _ & H5); [|done].
    destruct stem as [|x stem]; [done|]. simpl in H1. injection H1 as <- ->.
    apply str_mem_count in He. rewrite str_count_app in He. simpl in He. lia.
  - intros d stem. apply (Hno (stem +:+ ".")); [|apply name_snoc].
    destruct (suffix_of (stem +:+ ".")) as [|a e0] eqn:E; [done|].
    apply suffix_of_spec in E as (st & e' & H1 & _ & _ & H4 & H5); [|done].
    exfalso. clear -H1 H4 H5. revert st H1. induction stem as [|x stem IH]; intros st H1.
    + destruct st as [|y st]; simpl in H1; [injection H1 as <-; done|].
      injection H1 as _ H1. by destruct st.
    + destruct st as [|y st]; simpl in H1.
      * injection H1 as -> <-. apply str_mem_count in H5.
        rewrite str_count_app in H5. simpl in H5. lia.
      * injection H1 as _ H1. by apply (IH st).
Qed.

Lemma image_name_shape_witness :
  is_image ascii_lower example_fs ["proj"; "outputs"; "X"; "exp2"; "img.PNG"] = true
  /\ is_image ascii_lower example_fs (["proj"; "outputs"; "X"; "exp2"] ++ [".png"]) = false.
Proof.
  split.
  - apply (image_name_shape ascii_lower example_fs
             ["proj"; "outputs"; "X"; "exp2"; "img.PNG"] ascii_lower_empty).
    split; [reflexivity|]. exists "img", "PNG". by repeat split.
  - by apply (image_name_shape ascii_lower example_fs [] ascii_lower_empty).
Defined.

(** ** Escaping loses nothing *)

Ltac escape_cases c :=
  unfold escape_char;
  destruct (Ascii.eqb_spec c "&") as [->|?];
    [|destruct (Ascii.eqb_spec c "<") as [->|?];
      [|destruct (Ascii.eqb_spec c ">") as [->|?];
        [|destruct (Ascii.eqb_spec c Str.DQ) as [->|?];
          [|destruct (Ascii.eqb_spec c "'") as [->|?]]]]].

Lemma html_escape_inj (s t : string) : html_escape s = html_escape t -> s = t.
Proof.
  revert t. induction s as [|c s IH]; intros [|c' t].
  - done.
  - rewrite html_escape_cons. escape_cases c'; discriminate.
  - rewrite html_escape_cons. escape_cases c; discriminate.
  - rewrite !html_escape_cons.
    escape_cases c; escape_cases c'; simpl; intros H; injection H as H;
      try congruence; try (f_equal; by apply IH).
    all: subst; f_equal; by apply IH.
Qed.

Lemma html_escape_plain (s : string) :
  Str.mem "&" s = false -> Str.mem "<" s = false -> Str.mem ">" s = false ->
  Str.mem Str.DQ s = false -> Str.mem "'" s = false ->
  html_escape s = s.
Proof.
  induction s as [|c s IH]; [done|]. simpl Str.mem.
  intros [H1 H1']%orb_false_iff [H2 H2']%orb_false_iff [H3 H3']%orb_false_iff
         [H4 H4']%orb_false_iff [H5 H5']%orb_false_iff.
  rewrite html_escape_cons, IH by done. unfold escape_char.
  by rewrite H1, H2, H3, H4, H5.
Qed.

(** X4: escaping loses nothing and happens once.  [html.escape], five
    replacements in a row with the ampersand first, acts character by
    character: the ampersand of an entity it has just written is not
    escaped again, while an entity that already stands in a caption is,
    so that the page shows the caption as it was typed.  It is injective,
    so different names and captions give different labels, and it leaves
    text without the five characters as it is. *)
Theorem html_escape_is_lossless :
  (forall c s, html_escape (String c s) = escape_char c +:+ html_escape s)
  /\ (forall s t, html_escape (s +:+ t) = html_escape s +:+ html_escape t)
  /\ (forall s t, html_escape s = html_escape t -> s = t)
  /\ (forall s,
        Str.mem "&" s = false -> Str.mem "<" s = false -> Str.mem ">" s = false ->
        Str.mem Str.DQ s = false -> Str.mem "'" s = false ->
        html_escape s = s)
  /\ html_escape "<b>" = "&lt;b&gt;"
  /\ html_escape "&lt;b&gt;" = "&amp;lt;b&amp;gt;".
Proof.
  split; [apply html_escape_cons|]. split; [apply html_escape_app|].
  split; [apply html_escape_inj|]. split; [apply html_escape_plain|]. by split.
Qed.

Lemma html_escape_is_lossless_witness :
  html_escape "Tom & Jerry" <> html_escape "Tom &amp; Jerry"
  /\ html_escape "plots/2024 run-1" = "plots/2024 run-1".
Proof.
  destruct html_escape_is_lossless as (_ & _ & Hinj & Hplain & _).
  split.
  - intros H. apply Hinj in H. discriminate H.
  - by apply Hplain.
Defined.

(** ** [strip] is idempotent *)

Lemma ws_head_length (s r : string) :
  Strip.ws_head s = Some r -> String.length r < String.length s.
Proof.
  intros (w & -> & Hw & _)%ws_head_white. rewrite str_length_app.
  destruct w; [done|simpl; lia].
Qed.

Lemma drop_ws_head (fuel : nat) (s : string) :
  String.length s <= fuel -> Strip.ws_head (Strip.drop_ws fuel s) = None.
Proof.
  revert s. induction fuel as [|fuel IH]; intros s Hs; simpl.
  - destruct s; [done|simpl in Hs; lia].
  - destruct (Strip.ws_head s) as [r|] eqn:E; [|done].
    apply IH. apply ws_head_length in E. lia.
Qed.

Lemma drop_ws_enough (n m : nat) (s : string) :
  String.length s <= n -> String.length s <= m ->
  Strip.drop_ws n s = Strip.drop_ws m s.
Proof.
  revert m s. induction n as [|n IH]; intros m s Hn Hm.
  - destruct s; [|simpl in Hn; lia]. by destruct m.
  - destruct m as [|m].
    + destruct s; [done|simpl in Hm; lia].
    + simpl. destruct (Strip.ws_head s) as [r|] eqn:E; [|done].
      apply ws_head_length in E. apply IH; lia.
Qed.

Lemma lstrip_head (s : string) : Strip.ws_head (Strip.lstrip s) = None.
Proof. by apply drop_ws_head. Qed.

Lemma lstrip_fixed (s : string) : Strip.ws_head s = None -> Strip.lstrip s = s.
Proof.
  intros H. unfold Strip.lstrip. destruct (String.length s); simpl; [done|].
  by rewrite H.
Qed.

Lemma lstrip_step (s r : string) :
  Strip.ws_head s = Some r -> Strip.lstrip s = Strip.lstrip r.
Proof.
  intros H. pose proof (ws_head_length _ _ H) as Hlen. unfold Strip.lstrip.
  destruct (String.length s) as [|n] eqn:E; [lia|]. simpl. rewrite H.
  apply drop_ws_enough; lia.
Qed.

Lemma ws_head_app (u r w : string) :
  Strip.ws_head u = Some r -> Strip.ws_head (u +:+ w) = Some (r +:+ w).
Proof.
  unfold Strip.ws_head. destruct u as [|a u]; [done|]. rewrite str_app_cons.
  destruct (Strip.is_ascii_space a); [by intros [= <-]|].
  destruct (N_of_ascii a =? 194)%N.
  { destruct u as [|b u]; [done|]. rewrite str_app_cons.
    destruct (Strip.is_space2 b); [by intros [= <-]|done]. }
  destruct ((225 <=? N_of_ascii a) && (N_of_ascii a <=? 227))%N; [|done].
  destruct u as [|b [|c u]]; try done. rewrite !str_app_cons.
  destruct (Strip.is_space3 a b c); [by intros [= <-]|done].
Qed.

Lemma is_blank_step (s r : string) :
  Strip.ws_head s = Some r -> Strip.is_blank s = Strip.is_blank r.
Proof. intros H. unfold Strip.is_blank. by rewrite (lstrip_step _ _ H). Qed.

Lemma is_blank_head (s : string) :
  Strip.is_blank s = true -> s <> EmptyString ->
  exists r, Strip.ws_head s = Some r /\ Strip.is_blank r = true.
Proof.
  intros Hb Hs. destruct (Strip.ws_head s) as [r|] eqn:E.
  - exists r. split; [done|]. by rewrite <- (is_blank_step _ _ E).
  - unfold Strip.is_blank in Hb. rewrite (lstrip_fixed _ E) in Hb. by destruct s.
Qed.

Lemma is_blank_app (x w : string) :
  Strip.is_blank x = true -> Strip.is_blank w = true ->
  Strip.is_blank (x +:+ w) = true.
Proof.
  remember (String.length x) as n eqn:Hn. revert x Hn.
  induction n as [n IH] using lt_wf_ind. intros x -> Hx Hw.
  destruct x as [|a x]; [done|].
  destruct (is_blank_head _ Hx) as (r & Hr & Hb); [done|].
  rewrite (is_blank_step _ _ (ws_head_app _ _ w Hr)).
  eapply IH; [|done..]. by apply ws_head_length.
Qed.

(** What [rstrip] cuts off is blank. *)
Lemma rstrip_prefix (t : string) :
  exists w, t = Strip.rstrip t +:+ w /\ Strip.is_blank w = true.
Proof.
  induction t as [|a t (w & Ht & Hw)].
  - by exists EmptyString.
  - simpl. destruct (Strip.is_blank (String a t)) eqn:E.
    + by exists (String a t).
    + exists w. split; [|done]. rewrite str_app_cons. by rewrite <- Ht.
Qed.

Lemma rstrip_head (t : string) :
  Strip.ws_head t = None -> Strip.ws_head (Strip.rstrip t) = None.
Proof.
  intros H. destruct (rstrip_prefix t) as (w & Ht & _).
  destruct (Strip.ws_head (Strip.rstrip t)) as [r|] eqn:E; [|done].
  apply (ws_head_app _ _ w) in E. rewrite <- Ht in E. congruence.
Qed.

Lemma rstrip_idem (t : string) : Strip.rstrip (Strip.rstrip t) = Strip.rstrip t.
Proof.
  induction t as [|a t IH]; [done|]. simpl.
  destruct (Strip.is_blank (String a t)) eqn:E; [done|].
  simpl. rewrite IH.
  destruct (Strip.is_blank (String a (Strip.rstrip t))) eqn:E'; [|done].
  destruct (rstrip_prefix t) as (w & Ht & Hw).
  pose proof (is_blank_app _ _ E' Hw) as H.
  rewrite str_app_cons, <- Ht in H. congruence.
Qed.

Lemma strip_idem (s : string) : Strip.strip (Strip.strip s) = Strip.strip s.
Proof.
  unfold Strip.strip.
  rewrite (lstrip_fixed (Strip.rstrip (Strip.lstrip s))).
  - apply rstrip_idem.
  - apply rstrip_head, lstrip_head.
Qed.

(** ** The table of captions *)

Lemma fold_caption_step (rows : list (gmap string (option string)))
    (caps0 : gmap string string) (k : string) :
  fold_left caption_step rows caps0 !! k
  = match List.find
            (fun row => String.eqb (Strip.strip (get_or_empty row "filename")) k)
            (rev rows) with
    | Some row =>
        if String.eqb k EmptyString then caps0 !! k
        else Some (Strip.strip (get_or_empty row "caption"))
    | None => caps0 !! k
    end.
Proof.
  induction rows as [|row rows IH] using rev_ind; [done|].
  rewrite fold_left_app, rev_app_distr. simpl.
  unfold caption_step at 1.
  destruct (String.eqb_spec (Strip.strip (get_or_empty row "filename")) k) as [E|E].
  - destruct (String.eqb_spec k EmptyString) as [Hk|Hk].
    + rewrite E, Hk. rewrite Hk in IH. rewrite IH.
      by destruct (List.find _ (rev rows)).
    + destruct (Strip.strip (get_or_empty row "filename")) eqn:E'; [done|].
      rewrite <- E. apply lookup_insert_eq.
  - destruct (Strip.strip (get_or_empty row "filename")) eqn:E'; [done|].
    by rewrite lookup_insert_ne.
Qed.

(** X5: the caption of a file name is the stripped caption of the last
    row whose stripped file name is that name, byte for byte: later rows
    overwrite earlier ones, a name that differs in case or in one byte
    finds nothing, and no row gives a caption to the empty name. *)
Theorem captions_last_row_wins (csv_reader : string -> list (list string))
    (fs : node) (captions_csv : path) (content : string) :
  lookup_path fs captions_csv = Some (File content) ->
  exists caps,
    read_captions csv_reader fs captions_csv = Ok caps
    /\ forall k,
         caps !! k
         = match List.find
                   (fun row =>
                      String.eqb (Strip.strip (get_or_empty row "filename")) k)
                   (rev (dict_reader (csv_reader content))) with
           | Some row =>
               if String.eqb k EmptyString then None
               else Some (Strip.strip (get_or_empty row "caption"))
           | None => None
           end.
Proof.
  intros H. unfold read_captions. rewrite H. eexists. split; [done|].
  intros k. by rewrite fold_caption_step.
Qed.

Lemma captions_last_row_wins_witness :
  exists caps,
    read_captions csv_plain example_fs ["proj"; "outputs"; "Gallery"; "captions.csv"]
    = Ok caps
    /\ caps !! "a.png" = Some "Hello <script>"
    /\ caps !! "A.png" = None.
Proof.
  destruct (captions_last_row_wins csv_plain example_fs
              ["proj"; "outputs"; "Gallery"; "captions.csv"] _ eq_refl)
    as (caps & H1 & H2).
  exists caps. split; [exact H1|]. by rewrite !H2.
Defined.

Lemma fold_caption_step_stripped (rows : list (gmap string (option string)))
    (caps0 : gmap string string) :
  map_Forall (fun k v => k <> EmptyString /\ Strip.strip k = k /\ Strip.strip v = v)
             caps0 ->
  map_Forall (fun k v => k <> EmptyString /\ Strip.strip k = k /\ Strip.strip v = v)
             (fold_left caption_step rows caps0).
Proof.
  revert caps0. induction rows as [|row rows IH]; intros caps0 H; [done|].
  simpl. apply IH. unfold caption_step.
  destruct (Strip.strip (get_or_empty row "filename")) eqn:E; [done|].
  apply map_Forall_insert_2; [|done]. rewrite <- E.
  split; [by rewrite E|]. split; apply strip_idem.
Qed.

(** X6: every file name in the table of captions is non-empty and carries
    no white space at either end, and so does no caption: both are
    stripped, and stripping again changes nothing.  Hence a file whose
    name starts or ends with white space never gets a caption, whatever
    [captions.csv] holds. *)
Theorem caption_keys_are_stripped (csv_reader : string -> list (list string))
    (fs : node) (captions_csv : path) (caps : gmap string string) :
  read_captions csv_reader fs captions_csv = Ok caps ->
  (forall k v, caps !! k = Some v ->
     k <> EmptyString /\ Strip.strip k = k /\ Strip.strip v = v)
  /\ (forall nm, Strip.strip nm <> nm -> caps !! nm = None)
  /\ (forall s, Strip.strip (Strip.strip s) = Strip.strip s).
Proof.
  intros H.
  assert (Hall : map_Forall
            (fun k v => k <> EmptyString /\ Strip.strip k = k /\ Strip.strip v = v) caps).
  { unfold read_captions in H. destruct (lookup_path fs captions_csv) as [[c|es|]|].
    - injection H as <-. apply fold_caption_step_stripped, map_Forall_empty.
    - done.
    - done.
    - injection H as <-. apply map_Forall_empty. }
  split; [exact Hall|]. split; [|apply strip_idem].
  intros nm Hnm. destruct (caps !! nm) as [v|] eqn:E; [|done].
  by destruct (Hall _ _ E) as (_ & ? & _).
Qed.

Lemma caption_keys_are_stripped_witness :
  exists caps,
    read_captions csv_plain example_fs ["proj"; "outputs"; "Gallery"; "captions.csv"]
    = Ok caps
    /\ caps !! " a.png" = None.
Proof.
  assert (H : exists caps,
            read_captions csv_plain example_fs
              ["proj"; "outputs"; "Gallery"; "captions.csv"] = Ok caps)
    by (eexists; reflexivity).
  destruct H as (caps & H). exists caps. split; [exact H|].
  apply (caption_keys_are_stripped csv_plain example_fs
           ["proj"; "outputs"; "Gallery"; "captions.csv"] caps H).
  by vm_compute.
Defined.

Lemma get_or_empty_strip_absent (fieldnames row : list string) (k : string) :
  k ∉ fieldnames ->
  Strip.strip (get_or_empty (row_dict fieldnames row) k) = EmptyString.
Proof. intros H. by rewrite row_dict_absent. Qed.

(** X7: the header decides.  When the header of [captions.csv] does not
    name a [filename] column, or the file holds no record at all, the
    table is empty whatever the rows hold; when it does not name a
    [caption] column, every caption of the table is empty; and the cells
    of a row beyond the last column of the header are ignored. *)
Theorem captions_need_header (csv_reader : string -> list (list string))
    (fs : node) (captions_csv : path) (content : string) :
  lookup_path fs captions_csv = Some (File content) ->
  (match csv_reader content with
   | [] => True
   | fieldnames :: _ => "filename" ∉ fieldnames
   end ->
   read_captions csv_reader fs captions_csv = Ok ∅)
  /\ (forall fieldnames data,
        csv_reader content = fieldnames :: data ->
        "caption" ∉ fieldnames ->
        exists caps,
          read_captions csv_reader fs captions_csv = Ok caps
          /\ forall k v, caps !! k = Some v -> v = EmptyString)
  /\ (forall fieldnames row surplus k,
        length row = length fieldnames ->
        get_or_empty (row_dict fieldnames (row ++ surplus)) k
        = get_or_empty (row_dict fieldnames row) k).
Proof.
  intros H. unfold read_captions. rewrite H. split; [|split].
  3:{ intros fieldnames row surplus k Hlen. f_equal. unfold row_dict.
      rewrite length_app, !drop_ge by lia. simpl. f_equal.
      rewrite <- (app_nil_r fieldnames) at 1.
      rewrite zip_with_app by done. by rewrite app_nil_r. }
  - destruct (csv_reader content) as [|fieldnames data]; [done|]. intros Hf.
    f_equal. unfold dict_reader.
    induction (List.filter _ data) as [|row rows IH]; [done|].
    simpl. unfold caption_step at 2.
    by rewrite get_or_empty_strip_absent.
  - intros fieldnames data -> Hf. eexists. split; [done|].
    intros k v. rewrite fold_caption_step.
    destruct (List.find _ _) as [row|] eqn:E; [|done].
    destruct (String.eqb k EmptyString); [done|]. intros [= <-].
    apply find_some in E as [E _]. apply in_rev in E. unfold dict_reader in E.
    apply in_map_iff in E as (r & <- & _).
    by apply get_or_empty_strip_absent.
Qed.

Lemma captions_need_header_witness :
  read_captions csv_plain
    (Dir [("captions.csv", File "name,caption
a.png,Hello
")])
    ["captions.csv"]
  = Ok ∅.
Proof.
  apply (captions_need_header csv_plain
           (Dir [("captions.csv", File "name,caption
a.png,Hello
")])
           ["captions.csv"] "name,caption
a.png,Hello
" eq_refl).
  change ("filename" ∉ ["name"; "caption"]).
  rewrite !elem_of_cons, elem_of_nil. intros [|[|[]]]; discriminate.
Defined.

(** ** When a write fails *)

Lemma write_file_Some (fs fs' : node) (p : path) (c : string) :
  write_file fs p c = Some fs' -> writable fs p.
Proof.
  revert fs fs'. induction p as [|s p IH]; intros fs fs'; simpl.
  - by destruct fs.
  - destruct fs as [|es|]; try done.
    unfold writable. rewrite stat_cons.
    destruct (find_entry s es) as [n|] eqn:E.
    + destruct (write_file n p c) as [n'|] eqn:W; [|done]. intros _.
      pose proof (IH _ _ W) as Hw. unfold writable in Hw.
      destruct (stat n p); try done. destruct Hw as [Hp Hd].
      split; [done|]. destruct p as [|s' p]; [done|].
      change (removelast (s :: s' :: p)) with (s :: removelast (s' :: p)).
      by rewrite stat_cons, E.
    + destruct p; [|done]. intros _. split; [done|]. simpl. by rewrite stat_nil.
Qed.

Lemma write_file_filelike (fs fs' : node) (p : path) (c : string) :
  write_file fs p c = Some fs' -> filelike (stat fs p) = true.
Proof.
  intros H%write_file_Some. unfold writable in H. by destruct (stat fs p).
Qed.

Lemma make_dirs_dirlike (fs fs' : node) (p : path) :
  make_dirs fs p = Some fs' -> dirlike (stat fs p) = true.
Proof.
  revert fs fs'. induction p as [|s p IH]; intros fs fs'; simpl.
  - by destruct fs.
  - destruct fs as [|es|]; try done. rewrite stat_cons.
    destruct (find_entry s es) as [n|] eqn:E; [|done].
    destruct (make_dirs n p) as [n'|] eqn:W; [|done]. intros _. by eapply IH.
Qed.

Section Failures.
Variable lower : string -> string.
Variable csv_reader : string -> list (list string).

Lemma build_report_not_dir (d : path) (fs : node) :
  is_dir fs d = false ->
  build_report lower csv_reader d fs = (Raise (OSError d), fs, []).
Proof.
  intros H. unfold build_report, io_bind, read.
  by rewrite (list_images_raises lower fs d H).
Qed.

Lemma build_report_captions_fail (d : path) (fs : node) :
  has_images lower fs d = true ->
  filelike (stat fs (d ++ ["captions.csv"])) = false ->
  build_report lower csv_reader d fs
  = (Raise (OSError (d ++ ["captions.csv"])), fs, []).
Proof.
  unfold has_images, build_report, io_bind, read.
  destruct (list_images lower fs d) as [[|img images]|e]; try done. intros _ H.
  rewrite (read_captions_stat csv_reader).
  by destruct (stat fs (d ++ ["captions.csv"])).
Qed.

Lemma build_report_write_fail (d : path) (fs : node) :
  has_images lower fs d = true ->
  filelike (stat fs (d ++ ["captions.csv"])) = true ->
  filelike (stat fs (d ++ ["report.html"])) = false ->
  build_report lower csv_reader d fs
  = (Raise (OSError (d ++ ["report.html"])), fs, []).
Proof.
  unfold has_images, build_report, io_bind, read.
  destruct (list_images lower fs d) as [[|img images]|e]; try done. intros _ Hc Hr.
  rewrite (read_captions_stat csv_reader).
  assert (Hw : forall c, write_file fs (d ++ ["report.html"]) c = None).
  { intros c. destruct (write_file fs (d ++ ["report.html"]) c) eqn:W; [|done].
    apply write_file_filelike in W. congruence. }
  unfold write_text.
  destruct (stat fs (d ++ ["captions.csv"])); try done; by rewrite Hw.
Qed.

(** Whatever [build_report] does: it raises and leaves everything as it
    was, or returns without a write for want of images, or writes the
    report. *)
Lemma build_report_outcome (d : path) (fs fs' : node) (r : result unit)
    (log : list event) :
  build_report lower csv_reader d fs = (r, fs', log) ->
  (fs' = fs /\ log = []
   /\ (r = Ok tt -> list_images lower fs d = Ok []))
  \/ (r = Ok tt /\ has_images lower fs d = true
      /\ log = report_events lower csv_reader fs d
      /\ write_file fs (d ++ ["report.html"]) (report_text lower csv_reader fs d)
         = Some fs').
Proof.
  unfold build_report, report_events, report_text, has_images, io_bind, read.
  destruct (list_images lower fs d) as [[|img images]|e];
    [intros [= <- <- <-]; by left| |intros [= <- <- <-]; by left].
  destruct (read_captions csv_reader fs (d ++ ["captions.csv"])) as [caps|e];
    [|intros [= <- <- <-]; by left].
  unfold write_text, print.
  destruct (write_file fs (d ++ ["report.html"]) _) as [fs1|] eqn:W;
    intros [= <- <- <-]; [by right|by left].
Qed.

End Failures.

(** X8: [build_report] writes its report or nothing at all.  It raises
    [OSError] when the folder is no directory, when the folder has images
    and [captions.csv] is neither a regular file nor missing, and when
    [report.html] is neither; a call that raises leaves the filesystem as
    it was and logs nothing.  Otherwise, with images, it returns, and
    afterwards the filesystem differs at [report.html] only. *)
Theorem build_report_all_or_nothing (lower : string -> string)
    (csv_reader : string -> list (list string)) (d : path) (fs : node) :
  (is_dir fs d = false ->
     build_report lower csv_reader d fs = (Raise (OSError d), fs, []))
  /\ (has_images lower fs d = true ->
      filelike (stat fs (d ++ ["captions.csv"])) = false ->
      build_report lower csv_reader d fs
      = (Raise (OSError (d ++ ["captions.csv"])), fs, []))
  /\ (has_images lower fs d = true ->
      filelike (stat fs (d ++ ["captions.csv"])) = true ->
      filelike (stat fs (d ++ ["report.html"])) = false ->
      build_report lower csv_reader d fs
      = (Raise (OSError (d ++ ["report.html"])), fs, []))
  /\ (has_images lower fs d = true ->
      filelike (stat fs (d ++ ["captions.csv"])) = true ->
      filelike (stat fs (d ++ ["report.html"])) = true ->
      exists fs',
        build_report lower csv_reader d fs
        = (Ok tt, fs', report_events lower csv_reader fs d)
        /\ forall q, stat fs' q
             = if decide (q = d ++ ["report.html"])
               then KFile (report_text lower csv_reader fs d)
               else stat fs q)
  /\ (forall r fs' log,
        build_report lower csv_reader d fs = (r, fs', log) ->
        r = Ok tt \/ (fs' = fs /\ log = [])).
Proof.
  split; [apply build_report_not_dir|].
  split; [apply build_report_captions_fail|].
  split; [apply build_report_write_fail|]. split.
  - intros Hi Hc Hr.
    destruct (build_report_run lower csv_reader fs d Hi) as (fs' & Hrun & Hw).
    { unfold folder_ok. by rewrite Hc, Hr. }
    exists fs'. split; [done|]. by apply write_file_stat.
  - intros r fs' log Hrun.
    destruct (build_report_outcome lower csv_reader d fs fs' r log Hrun)
      as [(-> & -> & _)|(-> & _)]; auto.
Qed.

Lemma build_report_all_or_nothing_witness :
  build_report ascii_lower csv_plain ["proj"; "outputs"; "Zoo"] blocked_fs
  = (Raise (OSError ["proj"; "outputs"; "Zoo"; "captions.csv"]), blocked_fs, [])
  /\ build_report ascii_lower csv_plain ["proj"; "outputs"; "Gallery"; "a.png"] blocked_fs
     = (Raise (OSError ["proj"; "outputs"; "Gallery"; "a.png"]), blocked_fs, []).
Proof.
  split.
  - apply (build_report_all_or_nothing ascii_lower csv_plain
             ["proj"; "outputs"; "Zoo"] blocked_fs); reflexivity.
  - apply (build_report_all_or_nothing ascii_lower csv_plain
             ["proj"; "outputs"; "Gallery"; "a.png"] blocked_fs); reflexivity.
Defined.

(** ** The steps of the index builder and of a run *)

Lemma relative_to_Ok (p base r : path) : relative_to p base = Ok r -> p = base ++ r.
Proof.
  revert p. induction base as [|b base IH]; intros [|s p]; simpl; try done.
  - by intros [= <-].
  - by intros [= <-].
  - destruct (String.eqb_spec b s) as [->|]; [|done]. intros H. by rewrite (IH _ H).
Qed.

Lemma relative_to_Raise (p base : path) (e : exn) :
  relative_to p base = Raise e -> e = ValueError.
Proof.
  revert p. induction base as [|b base IH]; intros [|s p]; simpl; try done.
  - by intros [= <-].
  - destruct (String.eqb b s); [apply IH|by intros [= <-]].
Qed.

Lemma rglob_not_dir (fs : node) (p : path) : is_dir fs p = false -> rglob fs p = [].
Proof.
  unfold is_dir, rglob. by destruct (lookup_path fs p) as [[| |]|].
Qed.

Section Steps.
Variable lower : string -> string.
Variable csv_reader : string -> list (list string).

Lemma report_folders_not_dir (fs : node) (out : path) :
  is_dir fs out = false -> report_folders lower fs out = [].
Proof. intros H. unfold report_folders. by rewrite rglob_not_dir. Qed.

(** The steps of [build_index_pages], one after the other. *)
Lemma build_index_pages_inv (root : path) (ds : list path) (fs fs' : node)
    (r : result unit) (log : list event) :
  let out := root ++ ["outputs"] in
  let site := root ++ ["site"] in
  build_index_pages lower root ds fs = (r, fs', log) ->
  (make_dirs fs site = None /\ r = Raise (OSError site) /\ fs' = fs /\ log = [])
  \/ exists fs1,
       make_dirs fs site = Some fs1
       /\ ((exists e, for_collect (index_item lower out) ds fs1 = (Raise e, fs1, [])
                      /\ r = Raise e /\ fs' = fs1 /\ log = [MadeDir site])
           \/ exists items,
                for_collect (index_item lower out) ds fs1 = (Ok items, fs1, [])
                /\ ((write_file fs1 (site ++ ["index.html"])
                       (make_html (sorted (item_leb lower) items) "../outputs") = None
                     /\ r = Raise (OSError (site ++ ["index.html"]))
                     /\ fs' = fs1 /\ log = [MadeDir site])
                    \/ exists fs2,
                         write_file fs1 (site ++ ["index.html"])
                           (make_html (sorted (item_leb lower) items) "../outputs")
                         = Some fs2
                         /\ ((write_file fs2 (root ++ ["index.html"])
                                (make_html (sorted (item_leb lower) items) "outputs")
                              = None
                              /\ r = Raise (OSError (root ++ ["index.html"]))
                              /\ fs' = fs2
                              /\ log = [ MadeDir site;
                                         Wrote (site ++ ["index.html"])
                                           (make_html (sorted (item_leb lower) items)
                                                      "../outputs");
                                         Printed (index_built
                                                  +:+ path_str (site ++ ["index.html"])) ])
                             \/ (write_file fs2 (root ++ ["index.html"])
                                   (make_html (sorted (item_leb lower) items) "outputs")
                                 = Some fs'
                                 /\ r = Ok tt
                                 /\ log = index_log (sorted (item_leb lower) items)
                                                    root)))).
Proof.
  intros out site. unfold build_index_pages. fold out site.
  unfold io_bind at 1. unfold mkdir.
  destruct (make_dirs fs site) as [fs1|] eqn:Hm; [|intros [= <- <- <-]; by left].
  intros H. right. exists fs1. split; [done|]. revert H.
  unfold io_bind at 1.
  destruct (index_items_outcome lower out ds fs1) as ([items|e] & -> & _).
  2:{ intros [= <- <- <-]. left. by exists e. }
  intros H. right. exists items. split; [done|]. revert H.
  unfold io_bind, write_text, print.
  destruct (write_file fs1 _ _) as [fs2|] eqn:W2; [|intros [= <- <- <-]; by left].
  intros H. right. exists fs2. split; [done|]. revert H.
  destruct (write_file fs2 _ _) as [fs3|] eqn:W3; intros [= <- <- <-];
    [by right|by left].
Qed.

(** A run that found the outputs directory is the loop over the
    discovered folders, the index builder and the final message. *)
Lemma main_inv (root : path) (fs fs' : node) (r : result unit) (log : list event) :
  let ds := report_folders lower fs (root ++ ["outputs"]) in
  exists_ fs (root ++ ["outputs"]) = true ->
  main lower csv_reader root fs = (r, fs', log) ->
  (exists e, for_each (build_report lower csv_reader) ds fs = (Raise e, fs', log)
             /\ r = Raise e)
  \/ exists fs1 l1 l2,
       for_each (build_report lower csv_reader) ds fs = (Ok tt, fs1, l1)
       /\ ((exists e, build_index_pages lower root ds fs1 = (Raise e, fs', l2)
                      /\ r = Raise e /\ log = l1 ++ l2)
           \/ (build_index_pages lower root ds fs1 = (Ok tt, fs', l2)
               /\ r = Ok tt /\ log = l1 ++ l2 ++ [Printed done_message])).
Proof.
  intros ds Hex. unfold main. unfold io_bind at 1. unfold read at 1. rewrite Hex.
  change (negb true) with false. cbv iota beta.
  unfold io_bind at 1. unfold read at 1. rewrite find_report_folders_filter.
  fold (report_folders lower fs (root ++ ["outputs"])). fold ds.
  destruct (io_bind _ _ fs) as [[r1 fs1] l1] eqn:Hrun.
  intros [= <- <- <-]. simpl.
  apply io_bind_inv in Hrun
    as [(e & Hloop & ->)|([] & fs2 & l2 & l3 & Hloop & Hrest & ->)].
  - left. by exists e.
  - right. exists fs2, l2.
    apply io_bind_inv in Hrest as [(e & Hidx & ->)|([] & fs3 & l4 & l5 & Hidx & Hp & ->)].
    + exists l3. split; [done|]. left. by exists e.
    + unfold print in Hp. injection Hp as <- <- <-.
      exists l4. split; [done|]. by right.
Qed.

Lemma index_item_outside (out d : path) (fs : node) :
  (forall r, d <> out ++ r) ->
  index_item lower out d fs = (Raise ValueError, fs, []).
Proof.
  intros H. unfold index_item, io_bind, read.
  destruct (relative_to d out) as [rel|e] eqn:E.
  - apply relative_to_Ok in E. by destruct (H rel).
  - by rewrite (relative_to_Raise _ _ _ E).
Qed.

Lemma index_items_outside (out d : path) (ds : list path) (fs : node) :
  In d ds -> (forall r, d <> out ++ r) ->
  exists e, for_collect (index_item lower out) ds fs = (Raise e, fs, [])
            /\ (Forall (fun d' => is_dir fs d' = true) ds -> e = ValueError).
Proof.
  intros Hin Hd. induction ds as [|d' ds IH]; [done|]. simpl.
  unfold io_bind at 1.
  destruct (index_item_outcome lower out d' fs) as ([it|e] & Hit & Hentry).
  - rewrite Hit. destruct Hin as [->|Hin].
    { destruct (Hentry it eq_refl) as (rel & Hrel%relative_to_Ok & _).
      by destruct (Hd rel). }
    destruct (IH Hin) as (e & He & Hv). unfold io_bind at 1. rewrite He.
    exists e. split; [done|]. intros [_ Hall]%Forall_cons. auto.
  - rewrite Hit. exists e. split; [done|]. intros [Hdir _]%Forall_cons.
    revert Hit. unfold index_item, io_bind, read.
    destruct (relative_to d' out) as [rel|e'] eqn:E.
    + simpl. destruct (list_images_In lower fs d' Hdir) as (imgs & -> & _). done.
    + simpl. intros [= <-]. by eapply relative_to_Raise.
Qed.

Lemma build_index_pages_blocked (root : path) (ds : list path) (fs : node) :
  dirlike (stat fs (root ++ ["site"])) = false ->
  build_index_pages lower root ds fs = (Raise (OSError (root ++ ["site"])), fs, []).
Proof.
  intros H. unfold build_index_pages. unfold io_bind at 1. unfold mkdir.
  destruct (make_dirs fs (root ++ ["site"])) as [fs1|] eqn:Hm; [|done].
  apply make_dirs_dirlike in Hm. congruence.
Qed.

(** The index builder on folders whose entries are known. *)
Lemma build_index_pages_complete (root : path) (ds : list path) (fs : node)
    (items : list item) :
  let out := root ++ ["outputs"] in
  let site := root ++ ["site"] in
  stat fs root = KDir ->
  dirlike (stat fs site) = true ->
  filelike (stat fs (site ++ ["index.html"])) = true ->
  filelike (stat fs (root ++ ["index.html"])) = true ->
  (forall fs1, make_dirs fs site = Some fs1 ->
     for_collect (index_item lower out) ds fs1 = (Ok items, fs1, [])) ->
  exists fs',
    build_index_pages lower root ds fs
    = (Ok tt, fs', index_log (sorted (item_leb lower) items) root).
Proof.
  intros out site Hroot Hsite Hidx1 Hidx2 Hitems.
  destruct (make_dirs_child fs root "site" Hroot) as (fs1 & Hm).
  { fold site. destruct (stat fs site); try done; auto. }
  pose proof (make_dirs_child_stat _ _ _ _ Hroot Hm) as S1. fold site in S1.
  destruct (write_file_writable fs1 (site ++ ["index.html"])
              (make_html (sorted (item_leb lower) items) "../outputs")) as (fs2 & Hw2).
  { apply filelike_writable.
    - by rewrite S1, decide_True.
    - rewrite S1, decide_False; [done|]. subst site. path_neq. }
  pose proof (write_file_stat _ _ _ _ Hw2) as S2.
  destruct (write_file_writable fs2 (root ++ ["index.html"])
              (make_html (sorted (item_leb lower) items) "outputs")) as (fs3 & Hw3).
  { apply filelike_writable.
    - rewrite S2, decide_False, S1, decide_False; [done|..]; subst site; path_neq.
    - rewrite S2, decide_False, S1, decide_False; [done|..]; subst site; path_neq. }
  exists fs3. subst out site. unfold build_index_pages.
  unfold io_bind at 1. unfold mkdir. rewrite Hm.
  unfold io_bind at 1. rewrite (Hitems _ Hm).
  unfold io_bind, write_text, print. by rewrite Hw2, Hw3.
Qed.

End Steps.

(** X9: an [outputs] that is not a directory is not an error.  The
    existence test of [main] passes for a regular file, the discoverer
    returns no folder, no report is written, and both index pages are
    written with the placeholder item in the place of the list. *)
Theorem outputs_not_a_directory (lower : string -> string)
    (csv_reader : string -> list (list string)) (root : path) (fs : node) :
  let out := root ++ ["outputs"] in
  let site := root ++ ["site"] in
  is_dir fs out = false ->
  find_report_folders lower fs out = Ok []
  /\ (exists_ fs out = true ->
      forall r fs' log p c,
        main lower csv_reader root fs = (r, fs', log) ->
        In (Wrote p c) log ->
        (p = site ++ ["index.html"] /\ c = index_page no_reports_li)
        \/ (p = root ++ ["index.html"] /\ c = index_page no_reports_li))
  /\ (exists_ fs out = true ->
      dirlike (stat fs site) = true ->
      filelike (stat fs (site ++ ["index.html"])) = true ->
      filelike (stat fs (root ++ ["index.html"])) = true ->
      exists fs',
        main lower csv_reader root fs
        = (Ok tt, fs',
           [ MadeDir site;
             Wrote (site ++ ["index.html"]) (index_page no_reports_li);
             Printed (index_built +:+ path_str (site ++ ["index.html"]));
             Wrote (root ++ ["index.html"]) (index_page no_reports_li);
             Printed (index_built +:+ path_str (root ++ ["index.html"]));
             Printed done_message ])).
Proof.
  intros out site Hd.
  pose proof (report_folders_not_dir lower fs out Hd) as Hds.
  split; [|split].
  - rewrite find_report_folders_filter. f_equal. exact Hds.
  - intros Hex r fs' log p c Hrun Hin.
    destruct (main_writes lower csv_reader root fs fs' r log p c Hrun Hin)
      as [(d & Hd' & _)|(items & Hall & Hpc)].
    + fold out in Hd'. by rewrite Hds in Hd'.
    + fold out in Hall. rewrite Hds in Hall. apply Forall2_nil_inv_l in Hall as ->.
      exact Hpc.
  - intros Hex Hsite Hi1 Hi2.
    assert (Hroot : stat fs root = KDir).
    { apply (stat_snoc_dir fs root "outputs"). by apply exists_stat. }
    destruct (build_index_pages_complete lower root [] fs [] Hroot Hsite Hi1 Hi2)
      as (fs' & Hidx); [done|].
    exists fs'. unfold main. unfold io_bind at 1. unfold read at 1.
    fold out. rewrite Hex. change (negb true) with false. cbv iota beta.
    unfold io_bind at 1. unfold read at 1. rewrite find_report_folders_filter.
    fold (report_folders lower fs out). rewrite Hds.
    unfold io_bind at 1. simpl for_each. unfold ret at 1.
    unfold io_bind at 1. rewrite Hidx. reflexivity.
Qed.

Lemma outputs_not_a_directory_witness :
  exists fs',
    main ascii_lower csv_plain ["proj"] flat_fs
    = (Ok tt, fs',
       [ MadeDir ["proj"; "site"];
         Wrote ["proj"; "site"; "index.html"] (index_page no_reports_li);
         Printed (index_built +:+ path_str ["proj"; "site"; "index.html"]);
         Wrote ["proj"; "index.html"] (index_page no_reports_li);
         Printed (index_built +:+ path_str ["proj"; "index.html"]);
         Printed done_message ]).
Proof.
  apply (outputs_not_a_directory ascii_lower csv_plain ["proj"] flat_fs); reflexivity.
Defined.

(** X10: a folder that is not below the outputs directory stops the index
    builder.  With such a folder in its list, [build_index_pages] raises
    and writes no index page; the [site] directory has been made by then.
    When every folder of the list is a directory the exception is the
    [ValueError] of [relative_to].  [find_report_folders] returns no such
    folder. *)
Theorem folder_outside_outputs_raises (lower : string -> string) (root : path)
    (ds : list path) (fs : node) (d : path) :
  let out := root ++ ["outputs"] in
  let site := root ++ ["site"] in
  In d ds ->
  (forall r, d <> out ++ r) ->
  (forall r fs' log,
     build_index_pages lower root ds fs = (r, fs', log) ->
     (exists e, r = Raise e) /\ forall p c, ~ In (Wrote p c) log)
  /\ (stat fs root = KDir ->
      dirlike (stat fs site) = true ->
      Forall (fun d' => is_dir fs d' = true) ds ->
      exists fs',
        build_index_pages lower root ds fs = (Raise ValueError, fs', [MadeDir site])
        /\ forall q, stat fs' q = if decide (q = site) then KDir else stat fs q)
  /\ (forall ds', find_report_folders lower fs out = Ok ds' -> ~ In d ds').
Proof.
  intros out site Hin Hd. split; [|split].
  - intros r fs' log Hrun.
    apply build_index_pages_inv in Hrun
      as [(_ & -> & _ & ->)|(fs1 & _ & [(e & _ & -> & _ & ->)|(items & Hitems & _)])].
    + split; [by eexists|]. by intros p c [].
    + split; [by eexists|]. by intros p c [[=]|[]].
    + fold out in Hitems.
      destruct (index_items_outside lower out d ds fs1 Hin Hd) as (e & He & _).
      congruence.
  - intros Hroot Hsite Hall.
    destruct (make_dirs_child fs root "site" Hroot) as (fs1 & Hm).
    { fold site. destruct (stat fs site); try done; auto. }
    pose proof (make_dirs_child_stat _ _ _ _ Hroot Hm) as S1. fold site in S1.
    destruct (index_items_outside lower out d ds fs1 Hin Hd) as (e & He & Hv).
    rewrite Hv in He.
    2:{ eapply Forall_impl; [exact Hall|]. intros d' Hd'. simpl in *.
        apply is_dir_stat. apply is_dir_stat in Hd'. rewrite S1.
        case_decide; [done|exact Hd']. }
    exists fs1. split; [|exact S1].
    subst out site. unfold build_index_pages. unfold io_bind at 1. unfold mkdir.
    rewrite Hm. unfold io_bind at 1. by rewrite He.
  - intros ds'. rewrite find_report_folders_filter. intros [= <-].
    intros [(r & _ & ->) _]%find_report_folders_In. by destruct (Hd r).
Qed.

Lemma folder_outside_outputs_raises_witness :
  exists fs',
    build_index_pages ascii_lower ["proj"] [["proj"; "scripts"]] example_fs
    = (Raise ValueError, fs', [MadeDir ["proj"; "site"]]).
Proof.
  destruct (proj1 (proj2 (folder_outside_outputs_raises ascii_lower ["proj"]
                            [["proj"; "scripts"]] example_fs ["proj"; "scripts"]
                            ltac:(by left)
                            ltac:(intros r H; by injection H)))
              ltac:(reflexivity) ltac:(reflexivity)
              ltac:(repeat constructor)) as (fs' & H & _).
  by exists fs'.
Defined.

(** ** What a run leaves alone *)

Lemma touched_refl (D F : path -> Prop) (fs : node) : touched D F fs fs.
Proof. intros q. by left. Qed.

Lemma touched_weaken (D F D' F' : path -> Prop) (fs fs' : node) :
  (forall q, D q -> D' q) -> (forall q, F q -> F' q) ->
  touched D F fs fs' -> touched D' F' fs fs'.
Proof.
  intros HD HF H q. destruct (H q) as [?|[(? & ?)|(? & ?)]];
    [by left|right; left; auto|right; right; auto].
Qed.

Lemma touched_trans (D F : path -> Prop) (fs1 fs2 fs3 : node) :
  touched D F fs1 fs2 -> touched D F fs2 fs3 -> touched D F fs1 fs3.
Proof.
  intros H12 H23 q.
  destruct (H12 q) as [E1|[(HD & H1 & H1')|(HF & H1 & c1 & H1')]],
           (H23 q) as [E2|[(HD' & H2 & H2')|(HF' & H2 & c2 & H2')]].
  - left. congruence.
  - right. left. by rewrite <- E1.
  - right. right. rewrite <- E1. split; [done|]. split; [done|]. by exists c2.
  - right. left. by rewrite E2.
  - congruence.
  - rewrite H1' in H2. done.
  - right. right. rewrite E2. split; [done|]. split; [done|]. by exists c1.
  - congruence.
  - right. right. split; [done|]. split; [done|]. by exists c2.
Qed.

Lemma write_file_touched (D : path -> Prop) (fs fs' : node) (p : path) (c : string) :
  write_file fs p c = Some fs' -> touched D (fun q => q = p) fs fs'.
Proof.
  intros W q. rewrite (write_file_stat _ _ _ _ W). case_decide as E; [|by left].
  right. right. split; [done|]. subst q.
  split; [by eapply write_file_filelike|]. by exists c.
Qed.

Lemma make_dirs_child_touched (F : path -> Prop) (fs fs' : node) (d : path)
    (s : string) :
  stat fs d = KDir -> make_dirs fs (d ++ [s]) = Some fs' ->
  touched (fun q => q = d ++ [s]) F fs fs'.
Proof.
  intros Hd Hm q. rewrite (make_dirs_child_stat _ _ _ _ Hd Hm).
  case_decide as E; [|by left]. subst q.
  pose proof (make_dirs_dirlike _ _ _ Hm) as Hl.
  destruct (stat fs (d ++ [s])) eqn:Hs; try done; [|by left].
  right. by left.
Qed.

Lemma touched_dir (D F : path -> Prop) (fs fs' : node) (q : path) :
  touched D F fs fs' -> stat fs q = KDir -> stat fs' q = KDir.
Proof.
  intros H Hq. destruct (H q) as [->|[(_ & H1 & _)|(_ & H1 & _)]]; [done|..];
    by rewrite Hq in H1.
Qed.

Lemma touched_file (D F : path -> Prop) (fs fs' : node) (q : path) (c : string) :
  touched D F fs fs' -> stat fs q = KFile c -> exists c', stat fs' q = KFile c'.
Proof.
  intros H Hq. destruct (H q) as [->|[(_ & H1 & _)|(_ & _ & H1)]];
    [by exists c| |done].
  by rewrite Hq in H1.
Qed.

Lemma touched_outside (D F : path -> Prop) (fs fs' : node) (q : path) :
  touched D F fs fs' -> ~ D q -> ~ F q -> stat fs' q = stat fs q.
Proof. intros H HD HF. by destruct (H q) as [?|[(? & _)|(? & _)]]. Qed.

Section Frames.
Variable lower : string -> string.
Variable csv_reader : string -> list (list string).

Lemma build_report_touched (d : path) (fs fs' : node) (r : result unit)
    (log : list event) :
  build_report lower csv_reader d fs = (r, fs', log) ->
  touched (fun _ => False) (fun q => q = d ++ ["report.html"]) fs fs'.
Proof.
  intros [(-> & _)|(_ & _ & _ & W)]%build_report_outcome;
    [apply touched_refl|by eapply write_file_touched].
Qed.

Lemma build_reports_touched (ds : list path) (fs fs' : node) (r : result unit)
    (log : list event) :
  for_each (build_report lower csv_reader) ds fs = (r, fs', log) ->
  touched (fun _ => False)
          (fun q => exists d, In d ds /\ q = d ++ ["report.html"]) fs fs'.
Proof.
  revert fs log. induction ds as [|d ds IH]; intros fs log; simpl.
  - intros [= _ <- _]. apply touched_refl.
  - intros [(e & Hd & _)|(a & fs1 & l1 & l2 & Hd & Hrest & _)]%io_bind_inv.
    + eapply touched_weaken; [| |by eapply build_report_touched]; [done|].
      intros q ->. exists d. by split; [left|].
    + eapply touched_trans.
      * eapply touched_weaken; [| |by eapply build_report_touched]; [done|].
        intros q ->. exists d. by split; [left|].
      * eapply touched_weaken; [| |by eapply IH]; [done|].
        intros q (d' & Hd' & ->). exists d'. by split; [right|].
Qed.

(** A folder with images still has images after files were written and
    directories made. *)
Lemma has_images_touched (D F : path -> Prop) (fs fs' : node) (d : path) :
  touched D F fs fs' -> has_images lower fs d = true -> has_images lower fs' d = true.
Proof.
  intros H [Hd (nm & Hi)]%has_images_spec. apply has_images_spec. split.
  - apply is_dir_stat. apply is_dir_stat in Hd. by eapply touched_dir.
  - exists nm. unfold is_image in *. apply andb_true_iff in Hi as [Hf ->].
    rewrite andb_true_r. apply is_file_stat in Hf as (c & Hc).
    apply is_file_stat. by eapply touched_file.
Qed.

(** A loop that returns has written the report of every folder with
    images. *)
Lemma build_reports_all_written (ds : list path) (fs fs' : node) (log : list event) :
  for_each (build_report lower csv_reader) ds fs = (Ok tt, fs', log) ->
  forall d, In d ds -> has_images lower fs d = true ->
  exists c, In (Wrote (d ++ ["report.html"]) c) log.
Proof.
  revert fs log. induction ds as [|d0 ds IH]; intros fs log; simpl; [done|].
  intros [(e & _ & [=])|([] & fs1 & l1 & l2 & Hd & Hrest & ->)]%io_bind_inv d Hin Himg.
  destruct Hin as [->|Hin].
  - apply build_report_outcome in Hd as [(_ & _ & Hno)|(_ & _ & -> & _)].
    + unfold has_images in Himg. by rewrite (Hno eq_refl) in Himg.
    + eexists. apply in_app_iff. left. by left.
  - destruct (IH _ _ Hrest d Hin) as (c & Hc).
    { eapply has_images_touched; [by eapply build_report_touched|done]. }
    exists c. apply in_app_iff. by right.
Qed.

Lemma build_index_pages_touched (root : path) (ds : list path) (fs fs' : node)
    (r : result unit) (log : list event) :
  stat fs root = KDir ->
  build_index_pages lower root ds fs = (r, fs', log) ->
  touched (fun q => q = root ++ ["site"])
          (fun q => q = (root ++ ["site"]) ++ ["index.html"]
                    \/ q = root ++ ["index.html"]) fs fs'.
Proof.
  intros Hroot Hrun. apply build_index_pages_inv in Hrun.
  destruct Hrun as [(_ & _ & -> & _)|(fs1 & Hm & Hrun)]; [apply touched_refl|].
  pose proof (make_dirs_child_touched
                (fun q => q = (root ++ ["site"]) ++ ["index.html"]
                          \/ q = root ++ ["index.html"]) _ _ _ _ Hroot Hm) as T1.
  destruct Hrun as [(e & _ & _ & -> & _)|(items & _ & Hrun)]; [done|].
  destruct Hrun as [(_ & _ & -> & _)|(fs2 & W2 & Hrun)]; [done|].
  assert (T2 : touched (fun q => q = root ++ ["site"])
                 (fun q => q = (root ++ ["site"]) ++ ["index.html"]
                           \/ q = root ++ ["index.html"]) fs fs2).
  { eapply touched_trans; [exact T1|].
    eapply touched_weaken; [| |by eapply (write_file_touched (fun _ => False))];
      [done|]. intros q ->. auto. }
  destruct Hrun as [(_ & _ & -> & _)|(W3 & _)]; [done|].
  eapply touched_trans; [exact T2|].
  eapply touched_weaken; [| |by eapply (write_file_touched (fun _ => False))];
    [done|]. intros q ->. auto.
Qed.

Lemma main_touched (root : path) (fs fs' : node) (r : result unit) (log : list event) :
  main lower csv_reader root fs = (r, fs', log) ->
  touched (fun q => q = root ++ ["site"])
          (fun q => q = (root ++ ["site"]) ++ ["index.html"]
                    \/ q = root ++ ["index.html"]
                    \/ exists d, In d (report_folders lower fs (root ++ ["outputs"]))
                                 /\ q = d ++ ["report.html"]) fs fs'.
Proof.
  destruct (exists_ fs (root ++ ["outputs"])) eqn:Hex.
  2:{ rewrite (main_abort lower csv_reader root fs Hex). intros [= _ <- _].
      apply touched_refl. }
  intros Hrun. apply (main_inv lower csv_reader root fs fs' r log Hex) in Hrun.
  assert (Hroot : stat fs root = KDir).
  { apply (stat_snoc_dir fs root "outputs"). by apply exists_stat. }
  assert (Hloop : forall fs1 r1 l1,
            for_each (build_report lower csv_reader)
              (report_folders lower fs (root ++ ["outputs"])) fs = (r1, fs1, l1) ->
            touched (fun q => q = root ++ ["site"])
              (fun q => q = (root ++ ["site"]) ++ ["index.html"]
                        \/ q = root ++ ["index.html"]
                        \/ exists d, In d (report_folders lower fs
                                             (root ++ ["outputs"]))
                                     /\ q = d ++ ["report.html"]) fs fs1).
  { intros fs1 r1 l1 H.
    eapply touched_weaken; [| |by eapply build_reports_touched]; [done|].
    intros q ?. auto. }
  destruct Hrun as [(e & Hl & _)|(fs1 & l1 & l2 & Hl & Hidx)]; [by eapply Hloop|].
  eapply touched_trans; [by eapply Hloop|].
  assert (Hroot1 : stat fs1 root = KDir).
  { eapply touched_dir; [by eapply build_reports_touched|done]. }
  destruct Hidx as [(e & Hidx & _)|(Hidx & _)];
    (eapply touched_weaken; [| |by eapply build_index_pages_touched]; [done|]);
    intros q [|]; auto.
Qed.

End Frames.

(** X11: a run changes nothing but its own outputs and deletes nothing.
    Whatever a run does, complete or not, afterwards every path shows
    what it showed before, except that a missing [site] may have been
    made, and that the two index pages and the [report.html] of
    discovered folders may have been created or overwritten as regular
    files.  Hence every directory is still a directory, and every regular
    file that is not named [report.html] or [index.html], an image or a
    [captions.csv] say, still has its content. *)
Theorem main_changes_only_its_outputs (lower : string -> string)
    (csv_reader : string -> list (list string)) (root : path) (fs fs' : node)
    (r : result unit) (log : list event) :
  main lower csv_reader root fs = (r, fs', log) ->
  exists ds,
    find_report_folders lower fs (root ++ ["outputs"]) = Ok ds
    /\ (forall q,
          stat fs' q = stat fs q
          \/ (q = root ++ ["site"] /\ stat fs q = KAbsent /\ stat fs' q = KDir)
          \/ ((q = (root ++ ["site"]) ++ ["index.html"]
               \/ q = root ++ ["index.html"]
               \/ exists d, In d ds /\ q = d ++ ["report.html"])
              /\ filelike (stat fs q) = true
              /\ exists c, stat fs' q = KFile c))
    /\ (forall q, stat fs q = KDir -> stat fs' q = KDir)
    /\ (forall q c, stat fs q = KFile c ->
          name q <> "report.html" -> name q <> "index.html" ->
          stat fs' q = KFile c).
Proof.
  intros Hrun. pose proof (main_touched lower csv_reader root fs fs' r log Hrun) as T.
  exists (report_folders lower fs (root ++ ["outputs"])).
  split; [apply find_report_folders_filter|]. split; [exact T|]. split.
  - intros q Hq. by eapply touched_dir.
  - intros q c Hq Hn1 Hn2.
    destruct (T q) as [->|[(_ & E & _)|(HF & _)]]; [done|congruence|].
    destruct HF as [->|[->|(d & _ & ->)]]; by rewrite name_snoc in *.
Qed.

Lemma main_changes_only_its_outputs_witness :
  stat (main ascii_lower csv_plain ["proj"] example_fs).1.2
       ["proj"; "outputs"; "Gallery"; "a.png"]
  = KFile EmptyString
  /\ stat (main ascii_lower csv_plain ["proj"] example_fs).1.2
          ["proj"; "scripts"; "make_reports.py"]
     = KFile EmptyString.
Proof.
  destruct (main ascii_lower csv_plain ["proj"] example_fs) as [[r fs'] log] eqn:Hrun.
  destruct (main_changes_only_its_outputs ascii_lower csv_plain ["proj"] example_fs
              fs' r log Hrun) as (ds & _ & _ & _ & H).
  split; apply H; by vm_compute.
Defined.

(** X12: an index page is written only after every report.  In any run,
    complete or not, that writes an index page, the report of every
    discovered folder was written before in the same run: no link of a
    written index points at a report the run did not write.  A run in
    which a report fails writes no index page. *)
Theorem index_written_after_all_reports (lower : string -> string)
    (csv_reader : string -> list (list string)) (root : path) (fs fs' : node)
    (r : result unit) (log : list event) (p : path) (c : string) :
  main lower csv_reader root fs = (r, fs', log) ->
  In (Wrote p c) log ->
  p = (root ++ ["site"]) ++ ["index.html"] \/ p = root ++ ["index.html"] ->
  exists ds fs1 l1 l2,
    find_report_folders lower fs (root ++ ["outputs"]) = Ok ds
    /\ for_each (build_report lower csv_reader) ds fs = (Ok tt, fs1, l1)
    /\ log = l1 ++ l2
    /\ (forall d, In d ds -> exists c', In (Wrote (d ++ ["report.html"]) c') l1)
    /\ In (Wrote p c) l2.
Proof.
  intros Hrun Hin Hp.
  exists (report_folders lower fs (root ++ ["outputs"])).
  destruct (exists_ fs (root ++ ["outputs"])) eqn:Hex.
  2:{ rewrite (main_abort lower csv_reader root fs Hex) in Hrun.
      injection Hrun as _ _ <-. done. }
  apply (main_inv lower csv_reader root fs fs' r log Hex) in Hrun.
  assert (Hno : forall g r1 l1,
            for_each (build_report lower csv_reader)
              (report_folders lower fs (root ++ ["outputs"])) fs = (r1, g, l1) ->
            ~ In (Wrote p c) l1).
  { intros g r1 l1 Hl Hin1.
    destruct (build_reports_writes lower csv_reader _ _ _ _ _ p c Hl Hin1)
      as (d & _ & ->).
    destruct Hp as [Hp|Hp]; apply (f_equal name) in Hp; by rewrite !name_snoc in Hp. }
  destruct Hrun as [(e & Hl & _)|(fs1 & l1 & l2 & Hl & Hidx)].
  { by destruct (Hno _ _ _ Hl). }
  assert (Hlog : exists l3, log = l1 ++ l3 /\ (In (Wrote p c) l3)).
  { destruct Hidx as [(e & _ & _ & ->)|(_ & _ & ->)].
    - exists l2. split; [done|]. apply in_app_iff in Hin as [Hin|Hin]; [|done].
      by destruct (Hno _ _ _ Hl).
    - exists (l2 ++ [Printed done_message]). split; [done|].
      apply in_app_iff in Hin as [Hin|Hin]; [|done]. by destruct (Hno _ _ _ Hl). }
  destruct Hlog as (l3 & -> & Hin3). exists fs1, l1, l3.
  split; [apply find_report_folders_filter|]. split; [done|].
  split; [done|]. split; [|done].
  intros d Hd. eapply build_reports_all_written; [exact Hl|exact Hd|].
  by apply report_folders_In in Hd as [_ ?].
Qed.

Lemma index_written_after_all_reports_witness :
  exists c',
    In (Wrote ["proj"; "outputs"; "X"; "exp2"; "report.html"] c')
       (main ascii_lower csv_plain ["proj"] example_fs).2.
Proof.
  destruct (main ascii_lower csv_plain ["proj"] example_fs) as [[r fs'] log] eqn:Hrun.
  assert (Hin : exists c, In (Wrote ["proj"; "index.html"] c) log).
  { vm_compute in Hrun. injection Hrun as _ _ <-. eexists.
    do 9 right. left. reflexivity. }
  destruct Hin as (c & Hin).
  destruct (index_written_after_all_reports ascii_lower csv_plain ["proj"] example_fs
              fs' r log ["proj"; "index.html"] c Hrun Hin ltac:(by right))
    as (ds & fs1 & l1 & l2 & Hds & _ & -> & Hall & _).
  vm_compute in Hds. injection Hds as <-.
  destruct (Hall ["proj"; "outputs"; "X"; "exp2"]) as (c' & Hc'); [by right; right; left|].
  exists c'. apply in_app_iff. by left.
Defined.

(** X13: a [site] that is no directory stops the index builder, not the
    reports.  When [<root>/site] exists and is no directory, a regular
    file say, [build_index_pages] raises [OSError] before it writes
    anything; a run then raises, writes no index page, and, when no
    report fails, has written the report of every discovered folder by
    the time it raises. *)
Theorem site_in_the_way (lower : string -> string)
    (csv_reader : string -> list (list string)) (root : path) (fs : node) :
  let out := root ++ ["outputs"] in
  let site := root ++ ["site"] in
  dirlike (stat fs site) = false ->
  (forall ds, build_index_pages lower root ds fs = (Raise (OSError site), fs, []))
  /\ (forall r fs' log,
        main lower csv_reader root fs = (r, fs', log) ->
        (exists e, r = Raise e)
        /\ forall p c, In (Wrote p c) log ->
             exists d, In d (report_folders lower fs out) /\ p = d ++ ["report.html"])
  /\ (lower ".html" ∉ IMG_EXTS -> wf fs -> exists_ fs out = true ->
      forallb (folder_ok fs) (report_folders lower fs out) = true ->
      exists fs',
        main lower csv_reader root fs
        = (Raise (OSError site), fs',
           flat_map (report_events lower csv_reader fs) (report_folders lower fs out))).
Proof.
  intros out site Hsite.
  assert (Hkeep : forall g r1 l1,
            for_each (build_report lower csv_reader) (report_folders lower fs out) fs
            = (r1, g, l1) -> dirlike (stat g site) = false).
  { intros g r1 l1 Hl.
    rewrite (touched_outside _ _ _ _ site (build_reports_touched _ _ _ _ _ _ _ Hl));
      [done|tauto|].
    intros (d & [(rel & _ & ->) _]%report_folders_In & Hq). revert Hq.
    subst out site. path_neq. }
  split; [intros ds; by apply build_index_pages_blocked|]. split.
  - intros r fs' log Hrun.
    destruct (exists_ fs out) eqn:Hex.
    2:{ rewrite (main_abort lower csv_reader root fs Hex) in Hrun.
        injection Hrun as <- _ <-. split; [by eexists|]. by intros p c []. }
    apply (main_inv lower csv_reader root fs fs' r log Hex) in Hrun.
    destruct Hrun as [(e & Hl & ->)|(fs1 & l1 & l2 & Hl & Hidx)].
    { split; [by eexists|]. intros p c Hin. by eapply build_reports_writes. }
    rewrite (build_index_pages_blocked lower root _ fs1 (Hkeep _ _ _ Hl)) in Hidx.
    destruct Hidx as [(e & [= <- <- <-] & -> & ->)|([=] & _)].
    split; [by eexists|]. intros p c Hin. rewrite app_nil_r in Hin.
    by eapply build_reports_writes.
  - intros Hl W Hex Hok.
    destruct (build_reports_run lower csv_reader Hl out fs (report_folders lower fs out) W)
      with (fs := fs) as (fs1 & Hloop & _); [|done|apply agree_refl|].
    { apply List.Forall_forall. intros d Hd.
      pose proof Hd as [(rel & _ & ->) Hi]%report_folders_In.
      split; [by exists rel|]. split; [done|].
      rewrite forallb_forall in Hok. by apply Hok. }
    exists fs1. unfold main. unfold io_bind at 1. unfold read at 1.
    fold out. rewrite Hex. change (negb true) with false. cbv iota beta.
    unfold io_bind at 1. unfold read at 1. rewrite find_report_folders_filter.
    fold (report_folders lower fs out).
    unfold io_bind at 1. rewrite Hloop. unfold io_bind at 1.
    rewrite (build_index_pages_blocked lower root _ fs1 (Hkeep _ _ _ Hloop)).
    by rewrite !app_nil_r.
Qed.

Lemma site_in_the_way_witness :
  build_index_pages ascii_lower ["proj"] [["proj"; "outputs"; "Gallery"]] blocked_fs
  = (Raise (OSError ["proj"; "site"]), blocked_fs, []).
Proof.
  apply (site_in_the_way ascii_lower csv_plain ["proj"] blocked_fs). reflexivity.
Defined.

(** ** Discovery after a run *)

Section Survives.
Variable lower : string -> string.
Variable csv_reader : string -> list (list string).

Lemma build_report_wf (d : path) (fs fs' : node) (r : result unit) (log : list event) :
  wf fs -> build_report lower csv_reader d fs = (r, fs', log) -> wf fs'.
Proof.
  intros W [(-> & _)|(_ & _ & _ & Hw)]%build_report_outcome; [done|].
  by eapply write_file_wf.
Qed.

Lemma build_reports_wf (ds : list path) (fs fs' : node) (r : result unit)
    (log : list event) :
  wf fs -> for_each (build_report lower csv_reader) ds fs = (r, fs', log) -> wf fs'.
Proof.
  revert fs log. induction ds as [|d ds IH]; intros fs log W; simpl.
  - by intros [= _ <- _].
  - intros [(e & Hd & _)|(a & fs1 & l1 & l2 & Hd & Hrest & _)]%io_bind_inv.
    + by eapply build_report_wf.
    + eapply IH; [|exact Hrest]. by eapply build_report_wf.
Qed.

Lemma build_index_pages_wf (root : path) (ds : list path) (fs fs' : node)
    (r : result unit) (log : list event) :
  wf fs -> build_index_pages lower root ds fs = (r, fs', log) -> wf fs'.
Proof.
  intros W Hrun. apply build_index_pages_inv in Hrun.
  destruct Hrun as [(_ & _ & -> & _)|(fs1 & Hm & Hrun)]; [done|].
  pose proof (make_dirs_wf _ _ _ W Hm) as W1.
  destruct Hrun as [(e & _ & _ & -> & _)|(items & _ & Hrun)]; [done|].
  destruct Hrun as [(_ & _ & -> & _)|(fs2 & W2 & Hrun)]; [done|].
  pose proof (write_file_wf _ _ _ _ W1 W2) as Wf2.
  destruct Hrun as [(_ & _ & -> & _)|(W3 & _)]; [done|].
  by eapply write_file_wf.
Qed.

Lemma main_wf (root : path) (fs fs' : node) (r : result unit) (log : list event) :
  wf fs -> main lower csv_reader root fs = (r, fs', log) -> wf fs'.
Proof.
  intros W. destruct (exists_ fs (root ++ ["outputs"])) eqn:Hex.
  2:{ rewrite (main_abort lower csv_reader root fs Hex). by intros [= _ <- _]. }
  intros Hrun. apply (main_inv lower csv_reader root fs fs' r log Hex) in Hrun.
  destruct Hrun as [(e & Hl & _)|(fs1 & l1 & l2 & Hl & Hidx)];
    [by eapply build_reports_wf|].
  pose proof (build_reports_wf _ _ _ _ _ W Hl) as W1.
  destruct Hidx as [(e & Hidx & _)|(Hidx & _)]; by eapply build_index_pages_wf.
Qed.

Lemma main_agree (root : path) (fs fs' : node) (r : result unit) (log : list event) :
  main lower csv_reader root fs = (r, fs', log) ->
  agree (root ++ ["outputs"]) fs fs'.
Proof.
  intros Hrun rel.
  destruct (main_touched lower csv_reader root fs fs' r log Hrun
              ((root ++ ["outputs"]) ++ rel))
    as [E|[(Hq & _)|(HF & Hfile & c & Hc)]].
  - by left.
  - exfalso. revert Hq. path_neq.
  - destruct HF as [Hq|[Hq|(d & _ & Hq)]].
    + exfalso. revert Hq. path_neq.
    + exfalso. revert Hq. path_neq.
    + right. rewrite Hq, name_snoc. rewrite <- Hq. split; [done|]. split; [done|].
      by rewrite Hc.
Qed.

End Survives.

(** X14: a run does not disturb the discovery, even when it fails half
    way.  After any run, complete or not, [find_report_folders] returns
    the folders it returned before, and [list_images] the images it
    returned before, in every folder below the outputs directory: the
    pages a run writes are no images, so running again after a failure
    starts from the same folders.  No directory comes to list a name
    twice. *)
Theorem discovery_survives_a_run (lower : string -> string)
    (csv_reader : string -> list (list string)) (root : path) (fs fs' : node)
    (r : result unit) (log : list event) :
  lower ".html" ∉ IMG_EXTS ->
  wf fs ->
  main lower csv_reader root fs = (r, fs', log) ->
  wf fs'
  /\ find_report_folders lower fs' (root ++ ["outputs"])
     = find_report_folders lower fs (root ++ ["outputs"])
  /\ (forall rel,
        list_images lower fs' ((root ++ ["outputs"]) ++ rel)
        = list_images lower fs ((root ++ ["outputs"]) ++ rel))
  /\ (forall rel,
        read_captions csv_reader fs' (((root ++ ["outputs"]) ++ rel) ++ ["captions.csv"])
        = read_captions csv_reader fs (((root ++ ["outputs"]) ++ rel) ++ ["captions.csv"])).
Proof.
  intros Hl W Hrun.
  pose proof (main_wf lower csv_reader root fs fs' r log W Hrun) as W'.
  pose proof (main_agree lower csv_reader root fs fs' r log Hrun) as A.
  split; [done|]. split; [|split].
  - rewrite !find_report_folders_filter. f_equal. symmetry.
    by apply report_folders_agree.
  - intros rel. symmetry. by apply list_images_agree.
  - intros rel. symmetry. by apply read_captions_agree.
Qed.

Lemma discovery_survives_a_run_witness :
  find_report_folders ascii_lower
    (main ascii_lower csv_plain ["proj"] blocked_fs).1.2 ["proj"; "outputs"]
  = find_report_folders ascii_lower blocked_fs ["proj"; "outputs"].
Proof.
  destruct (main ascii_lower csv_plain ["proj"] blocked_fs) as [[r fs'] log] eqn:Hrun.
  apply (discovery_survives_a_run ascii_lower csv_plain ["proj"] blocked_fs fs' r log
           ascii_lower_html ltac:(reflexivity) Hrun).
Defined.

(** ** A report depends on its folder only *)

Lemma stat_child (fs : node) (d : path) (es : list (string * node)) (s : string) :
  lookup_path fs d = Some (Dir es) ->
  stat fs (d ++ [s])
  = match find_entry s es with
    | Some (File c) => KFile c
    | Some (Dir _) => KDir
    | Some Other => KOther
    | None => KAbsent
    end.
Proof. intros H. unfold stat. by rewrite lookup_path_snoc, H. Qed.

Section Local.
Variable lower : string -> string.
Variable csv_reader : string -> list (list string).
Variables fs g : node.
Variable d : path.
Hypothesis Hwf : wf fs.
Hypothesis Hwg : wf g.
Hypothesis Hd : stat fs d = stat g d.
Hypothesis Hchildren : forall s, stat fs (d ++ [s]) = stat g (d ++ [s]).

Lemma is_dir_local : is_dir fs d = is_dir g d.
Proof. apply eq_true_iff_eq. by rewrite !is_dir_stat, Hd. Qed.

Lemma is_image_local (s : string) :
  is_image lower fs (d ++ [s]) = is_image lower g (d ++ [s]).
Proof.
  unfold is_image. f_equal. apply eq_true_iff_eq.
  by rewrite !is_file_stat, Hchildren.
Qed.

Lemma list_images_local : list_images lower fs d = list_images lower g d.
Proof.
  destruct (is_dir fs d) eqn:E.
  - pose proof E as E'. rewrite is_dir_local in E'.
    destruct (list_images_In lower _ _ E) as (l1 & E1 & I1).
    destruct (list_images_In lower _ _ E') as (l2 & E2 & I2).
    rewrite E1, E2. f_equal. apply sorted_lt_ext.
    + exact (list_images_sorted lower _ _ _ Hwf E1).
    + exact (list_images_sorted lower _ _ _ Hwg E2).
    + intros q. rewrite I1, I2. split; intros (nm & -> & H); exists nm;
        (split; [done|]); [by rewrite <- is_image_local|by rewrite is_image_local].
  - rewrite (list_images_raises _ _ _ E).
    rewrite is_dir_local in E. by rewrite (list_images_raises _ _ _ E).
Qed.

Lemma report_text_local :
  report_text lower csv_reader fs d = report_text lower csv_reader g d.
Proof.
  unfold report_text.
  by rewrite list_images_local, !(read_captions_stat csv_reader), Hchildren.
Qed.

Lemma build_report_local :
  (build_report lower csv_reader d fs).1.1 = (build_report lower csv_reader d g).1.1
  /\ (build_report lower csv_reader d fs).2 = (build_report lower csv_reader d g).2.
Proof.
  destruct (is_dir fs d) eqn:E.
  2:{ rewrite (build_report_not_dir lower csv_reader d fs E).
      rewrite is_dir_local in E.
      by rewrite (build_report_not_dir lower csv_reader d g E). }
  destruct (has_images lower fs d) eqn:Hi.
  2:{ assert (Hno : list_images lower fs d = Ok []).
      { destruct (list_images_In lower _ _ E) as (l1 & E1 & _).
        unfold has_images in Hi. rewrite E1 in *. by destruct l1. }
      rewrite (build_report_noop lower csv_reader fs d Hno).
      rewrite list_images_local in Hno.
      by rewrite (build_report_noop lower csv_reader g d Hno). }
  pose proof Hi as Hi'. unfold has_images in Hi'. rewrite list_images_local in Hi'.
  fold (has_images lower g d) in Hi'.
  destruct (filelike (stat fs (d ++ ["captions.csv"]))) eqn:Hc.
  2:{ rewrite (build_report_captions_fail lower csv_reader d fs Hi Hc).
      rewrite Hchildren in Hc.
      by rewrite (build_report_captions_fail lower csv_reader d g Hi' Hc). }
  destruct (filelike (stat fs (d ++ ["report.html"]))) eqn:Hr.
  2:{ rewrite (build_report_write_fail lower csv_reader d fs Hi Hc Hr).
      rewrite Hchildren in Hc, Hr.
      by rewrite (build_report_write_fail lower csv_reader d g Hi' Hc Hr). }
  destruct (build_report_run lower csv_reader fs d Hi) as (fs' & -> & _).
  { unfold folder_ok. by rewrite Hc, Hr. }
  rewrite Hchildren in Hc, Hr.
  destruct (build_report_run lower csv_reader g d Hi') as (g' & -> & _).
  { unfold folder_ok. by rewrite Hc, Hr. }
  simpl. split; [done|]. unfold report_events. by rewrite report_text_local.
Qed.

End Local.

(** X15: a report depends on its own folder only.  When two filesystems
    show the same at a folder and at each of its direct entries,
    [list_images] returns the same there and [build_report] gives the
    same result and the same log, hence writes the same bytes: other
    folders, and what lies inside the subfolders of the folder, have no
    influence. *)
Theorem report_depends_on_its_folder (lower : string -> string)
    (csv_reader : string -> list (list string)) (fs g : node) (d : path) :
  wf fs -> wf g ->
  stat fs d = stat g d ->
  (forall s, stat fs (d ++ [s]) = stat g (d ++ [s])) ->
  list_images lower fs d = list_images lower g d
  /\ (build_report lower csv_reader d fs).1.1 = (build_report lower csv_reader d g).1.1
  /\ (build_report lower csv_reader d fs).2 = (build_report lower csv_reader d g).2.
Proof.
  intros W Wg Hd Hc. split; [by apply list_images_local|].
  by apply build_report_local.
Qed.

Lemma report_depends_on_its_folder_witness :
  (build_report ascii_lower csv_plain ["proj"; "outputs"; "Gallery"] gallery_fs).2
  = (build_report ascii_lower csv_plain ["proj"; "outputs"; "Gallery"]
       two_galleries_fs).2.
Proof.
  apply (report_depends_on_its_folder ascii_lower csv_plain gallery_fs two_galleries_fs);
    [reflexivity|reflexivity|reflexivity|].
  intros s.
  rewrite (stat_child gallery_fs ["proj"; "outputs"; "Gallery"] _ s eq_refl).
  rewrite (stat_child two_galleries_fs ["proj"; "outputs"; "Gallery"] _ s eq_refl).
  cbn [find_entry].
  repeat match goal with
         | |- context [String.eqb ?a s] =>
             destruct (String.eqb_spec a s) as [<-|?]; [reflexivity|]
         end.
  reflexivity.
Defined.

(** ** Entries with the same key *)

Lemma insort_filter (lower : string -> string) (k : string) (x : item)
    (l : list item) :
  List.filter (fun it : item => String.eqb (lower it.1.1) k)
              (insort (item_leb lower) x l)
  = if String.eqb (lower x.1.1) k
    then x :: List.filter (fun it : item => String.eqb (lower it.1.1) k) l
    else List.filter (fun it : item => String.eqb (lower it.1.1) k) l.
Proof.
  induction l as [|y l IH]; simpl; [done|].
  destruct (item_leb lower x y) eqn:Hxy; simpl; [done|]. rewrite IH.
  destruct (String.eqb_spec (lower x.1.1) k) as [Hx|Hx];
    destruct (String.eqb_spec (lower y.1.1) k) as [Hy|Hy]; try done.
  unfold item_leb in Hxy. rewrite Hx, Hy in Hxy.
  unfold String.leb in Hxy. by rewrite compare_refl in Hxy.
Qed.

(** [list.sort] is stable: the entries of one key keep their order. *)
Lemma sorted_filter (lower : string -> string) (k : string) (l : list item) :
  List.filter (fun it : item => String.eqb (lower it.1.1) k)
              (sorted (item_leb lower) l)
  = List.filter (fun it : item => String.eqb (lower it.1.1) k) l.
Proof.
  induction l as [|x l IH]; simpl; [done|]. rewrite insort_filter, IH. done.
Qed.

(** X16: entries of the index whose lower-cased relative paths are the
    same, such as those of a folder [Plots] and a folder [plots], stand
    in every index page that is written in the order in which their
    folders were passed to [build_index_pages]: the sort is stable and
    compares nothing but the lower-cased relative path. *)
Theorem index_ties_keep_order (lower : string -> string) (root : path)
    (ds : list path) (fs fs' : node) (r : result unit) (log : list event)
    (p : path) (c : string) :
  build_index_pages lower root ds fs = (r, fs', log) ->
  In (Wrote p c) log ->
  exists collected items prefix_to_outputs,
    Forall2 (entry_of (root ++ ["outputs"])) ds collected
    /\ c = make_html items prefix_to_outputs
    /\ items ≡ₚ collected
    /\ forall k,
         List.filter (fun it : item => String.eqb (lower it.1.1) k) items
         = List.filter (fun it : item => String.eqb (lower it.1.1) k) collected.
Proof.
  intros Hrun Hin.
  destruct (build_index_pages_writes lower root ds fs fs' r log p c Hrun Hin)
    as (collected & Hall & Hpc).
  exists collected, (sorted (item_leb lower) collected).
  destruct Hpc as [[_ ->]|[_ ->]]; eexists; (split; [done|]); (split; [done|]);
    (split; [apply sorted_perm|]); intros k; apply sorted_filter.
Qed.

Lemma index_ties_keep_order_witness :
  exists collected items prefix_to_outputs,
    Forall2 (entry_of ["proj"; "outputs"])
            [["proj"; "outputs"; "plots"]; ["proj"; "outputs"; "Plots"];
             ["proj"; "outputs"; "A"]] collected
    /\ In (Wrote ["proj"; "index.html"] (make_html items prefix_to_outputs))
          (build_index_pages ascii_lower ["proj"]
             [["proj"; "outputs"; "plots"]; ["proj"; "outputs"; "Plots"];
              ["proj"; "outputs"; "A"]] case_fs).2
    /\ List.filter (fun it : item => String.eqb (ascii_lower it.1.1) "plots") items
       = List.filter (fun it : item => String.eqb (ascii_lower it.1.1) "plots")
                     collected.
Proof.
  destruct (build_index_pages ascii_lower ["proj"]
              [["proj"; "outputs"; "plots"]; ["proj"; "outputs"; "Plots"];
               ["proj"; "outputs"; "A"]] case_fs) as [[r fs'] log] eqn:Hrun.
  assert (Hin : exists c, In (Wrote ["proj"; "index.html"] c) log).
  { vm_compute in Hrun. injection Hrun as _ _ <-. eexists.
    do 3 right. left. reflexivity. }
  destruct Hin as (c & Hin).
  destruct (index_ties_keep_order ascii_lower ["proj"] _ case_fs fs' r log
              _ _ Hrun Hin)
    as (collected & items & pre & Hall & -> & _ & Hk).
  exists collected, items, pre. split; [exact Hall|]. split; [exact Hin|apply Hk].
Defined.

(** ** The filesystem after a complete run *)

Lemma find_report (ds : list path) (d : path) :
  In d ds ->
  List.find (fun d' => bool_decide (d' ++ ["report.html"] = d ++ ["report.html"])) ds
  = Some d.
Proof.
  induction ds as [|d0 ds IH]; [done|]. simpl.
  destruct (decide (d0 = d)) as [->|Hne].
  - by rewrite bool_decide_eq_true_2.
  - intros [?|Hin]; [done|]. rewrite bool_decide_eq_false_2; [by apply IH|].
    by intros ?%app_inv_tail.
Qed.

Lemma find_report_none (ds : list path) (q : path) :
  (forall d, In d ds -> q <> d ++ ["report.html"]) ->
  List.find (fun d' => bool_decide (d' ++ ["report.html"] = q)) ds = None.
Proof.
  induction ds as [|d0 ds IH]; [done|]. simpl. intros H.
  rewrite bool_decide_eq_false_2.
  - apply IH. intros d Hd. apply H. by right.
  - intros E. by apply (H d0); [left|].
Qed.

(** X17: what a complete run leaves behind.  When no filesystem
    operation fails, the run returns and afterwards every discovered
    folder holds a [report.html] with the page of that folder as the
    filesystem stood before the run, [site] is a directory, both index
    pages hold the entries of the discovered folders, and every other
    path shows what it showed before: no write of the run is undone by a
    later one. *)
Theorem complete_run_postcondition (lower : string -> string)
    (csv_reader : string -> list (list string)) (root : path) (fs : node) :
  let out := root ++ ["outputs"] in
  let site := root ++ ["site"] in
  lower ".html" ∉ IMG_EXTS ->
  wf fs ->
  exists_ fs out = true ->
  io_ok lower fs root = true ->
  exists fs' log ds,
    main lower csv_reader root fs = (Ok tt, fs', log)
    /\ find_report_folders lower fs out = Ok ds
    /\ (forall d, In d ds ->
          stat fs' (d ++ ["report.html"]) = KFile (report_text lower csv_reader fs d)
          /\ In (Wrote (d ++ ["report.html"]) (report_text lower csv_reader fs d)) log)
    /\ stat fs' site = KDir
    /\ stat fs' (site ++ ["index.html"])
       = KFile (make_html (sorted (item_leb lower) (map (item_of lower fs out) ds))
                          "../outputs")
    /\ stat fs' (root ++ ["index.html"])
       = KFile (make_html (sorted (item_leb lower) (map (item_of lower fs out) ds))
                          "outputs")
    /\ (forall q,
          q <> site -> q <> site ++ ["index.html"] -> q <> root ++ ["index.html"] ->
          (forall d, In d ds -> q <> d ++ ["report.html"]) ->
          stat fs' q = stat fs q).
Proof.
  intros out site Hl W Hex Hok.
  destruct (main_run lower csv_reader Hl root fs W Hex Hok) as (fs' & Hrun & _ & _ & S).
  exists fs', (main_events lower csv_reader fs root), (report_folders lower fs out).
  split; [done|]. split; [apply find_report_folders_filter|].
  fold out in S.
  split; [|split; [|split; [|split]]].
  - intros d Hd. split.
    + rewrite S. unfold final_stat. fold out site.
      pose proof Hd as [(rel & _ & ->) _]%report_folders_In.
      rewrite decide_False by (subst out; path_neq).
      rewrite decide_False by (subst out site; path_neq).
      rewrite decide_False by (subst out site; path_neq).
      by rewrite find_report.
    + apply main_events_In. left. by exists d.
  - rewrite S. unfold final_stat. fold out site.
    rewrite decide_False by (subst site; path_neq).
    rewrite decide_False by (subst site; path_neq).
    by rewrite decide_True.
  - rewrite S. unfold final_stat. fold out site.
    rewrite decide_False by (subst site; path_neq).
    by rewrite decide_True.
  - rewrite S. unfold final_stat. fold out site. by rewrite decide_True.
  - intros q H1 H2 H3 H4. rewrite S. unfold final_stat. fold out site.
    rewrite !decide_False by done. by rewrite find_report_none.
Qed.

Lemma complete_run_postcondition_witness :
  exists fs' log,
    main ascii_lower csv_plain ["proj"] example_fs = (Ok tt, fs', log)
    /\ stat fs' ["proj"; "site"] = KDir
    /\ stat fs' ["proj"; "outputs"; "X"; "exp1"; "report.html"]
       = KFile (report_text ascii_lower csv_plain example_fs
                  ["proj"; "outputs"; "X"; "exp1"]).
Proof.
  destruct (complete_run_postcondition ascii_lower csv_plain ["proj"] example_fs
              ascii_lower_html ltac:(reflexivity) ltac:(reflexivity)
              ltac:(vm_compute; reflexivity))
    as (fs' & log & ds & Hrun & Hds & Hrep & Hsite & _).
  exists fs', log. split; [exact Hrun|]. split; [exact Hsite|].
  apply (Hrep ["proj"; "outputs"; "X"; "exp1"]).
  vm_compute in Hds. injection Hds as <-. by right; left.
Defined.

(** ** Missing parents of [site] *)

Lemma make_dirs_prefixes (fs : node) (p : path) :
  (forall q, q `prefix_of` p -> dirlike (stat fs q) = true) ->
  exists fs', make_dirs fs p = Some fs'.
Proof.
  revert fs. induction p as [|s p IH]; intros fs H.
  - pose proof (H [] (prefix_nil _)) as H0. rewrite stat_nil in H0.
    destruct fs; try done. by eexists.
  - pose proof (H [] (prefix_nil _)) as H0. rewrite stat_nil in H0.
    destruct fs as [|es|]; try done. simpl.
    destruct (find_entry s es) as [n|] eqn:E.
    + destruct (IH n) as (n' & ->); [|by eexists].
      intros q Hq. specialize (H (s :: q) (prefix_cons _ _ _ Hq)).
      by rewrite stat_cons, E in H.
    + destruct (IH (Dir [])) as (n' & ->); [|by eexists].
      intros q _. by destruct q.
Qed.

(** X18: the index builder makes the directories it needs.  When
    [<root>/site], or [<root>] itself, or any directory above is missing
    and nothing else stands in their places,
    [mkdir(parents=True, exist_ok=True)] makes all of them and the two
    index pages are written. *)
Theorem index_builder_makes_parents (lower : string -> string) (root : path)
    (fs : node) :
  let site := root ++ ["site"] in
  (forall q, q `prefix_of` site -> dirlike (stat fs q) = true) ->
  filelike (stat fs (site ++ ["index.html"])) = true ->
  filelike (stat fs (root ++ ["index.html"])) = true ->
  exists fs',
    build_index_pages lower root [] fs = (Ok tt, fs', index_log [] root)
    /\ (forall q, q `prefix_of` site -> stat fs' q = KDir)
    /\ stat fs' (site ++ ["index.html"]) = KFile (index_page no_reports_li)
    /\ stat fs' (root ++ ["index.html"]) = KFile (index_page no_reports_li).
Proof.
  intros site Hpre Hi1 Hi2.
  destruct (make_dirs_prefixes fs site Hpre) as (fs1 & Hm).
  pose proof (make_dirs_stat _ _ _ Hm) as S1.
  assert (N1 : ~ (site ++ ["index.html"]) `prefix_of` site).
  { intros (k & Hk). apply (f_equal length) in Hk. rewrite !length_app in Hk.
    simpl in Hk. lia. }
  assert (N2 : ~ (root ++ ["index.html"]) `prefix_of` site).
  { intros (k & Hk). subst site. rewrite <- app_assoc in Hk.
    apply app_inv_head in Hk. discriminate Hk. }
  assert (P0 : root `prefix_of` site) by (by exists ["site"]).
  destruct (write_file_writable fs1 (site ++ ["index.html"])
              (make_html (sorted (item_leb lower) []) "../outputs")) as (fs2 & Hw2).
  { apply filelike_writable.
    - by rewrite S1, decide_True.
    - by rewrite S1, decide_False. }
  pose proof (write_file_stat _ _ _ _ Hw2) as S2.
  destruct (write_file_writable fs2 (root ++ ["index.html"])
              (make_html (sorted (item_leb lower) []) "outputs")) as (fs3 & Hw3).
  { apply filelike_writable.
    - rewrite S2, decide_False, S1, decide_True; [done..|]. subst site. path_neq.
    - rewrite S2, decide_False, S1, decide_False; [done..|]. subst site. path_neq. }
  pose proof (write_file_stat _ _ _ _ Hw3) as S3.
  exists fs3. split; [|split; [|split]].
  - unfold build_index_pages. fold site.
    unfold io_bind at 1. unfold mkdir. rewrite Hm.
    unfold io_bind at 1. simpl for_collect. unfold ret at 1.
    unfold io_bind, write_text, print. by rewrite Hw2, Hw3.
  - intros q Hq. rewrite S3, decide_False, S2, decide_False, S1, decide_True; try done.
    + by intros ->.
    + by intros ->.
  - rewrite S3, decide_False, S2, decide_True; [done..|]. subst site. path_neq.
  - by rewrite S3, decide_True.
Qed.

Lemma index_builder_makes_parents_witness :
  exists fs',
    build_index_pages ascii_lower ["new"; "proj"] [] (Dir [])
    = (Ok tt, fs', index_log [] ["new"; "proj"])
    /\ stat fs' ["new"; "proj"; "site"] = KDir.
Proof.
  destruct (index_builder_makes_parents ascii_lower ["new"; "proj"] (Dir []))
    as (fs' & Hrun & Hdirs & _).
  - intros q _. by destruct q.
  - reflexivity.
  - reflexivity.
  - exists fs'. split; [exact Hrun|]. by apply Hdirs.
Defined.

(** ** The exceptions of a run *)

Section Raises.
Variable lower : string -> string.
Variable csv_reader : string -> list (list string).

Lemma build_report_raises (d : path) (fs fs' : node) (e : exn) (log : list event) :
  is_dir fs d = true ->
  build_report lower csv_reader d fs = (Raise e, fs', log) ->
  e = OSError (d ++ ["captions.csv"]) \/ e = OSError (d ++ ["report.html"]).
Proof.
  intros Hd. unfold build_report, io_bind, read.
  destruct (list_images_In lower fs d Hd) as (images & -> & _).
  destruct images as [|img images]; [done|].
  unfold read_captions.
  destruct (lookup_path fs (d ++ ["captions.csv"])) as [[content|es|]|];
    try (intros [= <- _ _]; by left).
  - unfold write_text, print.
    destruct (write_file fs (d ++ ["report.html"]) _); [done|].
    intros [= <- _ _]. by right.
  - unfold write_text, print.
    destruct (write_file fs (d ++ ["report.html"]) _); [done|].
    intros [= <- _ _]. by right.
Qed.

Lemma build_reports_raise (ds : list path) (fs fs' : node) (e : exn)
    (log : list event) :
  Forall (fun d => is_dir fs d = true) ds ->
  for_each (build_report lower csv_reader) ds fs = (Raise e, fs', log) ->
  exists d, In d ds
            /\ (e = OSError (d ++ ["captions.csv"]) \/ e = OSError (d ++ ["report.html"])).
Proof.
  revert fs log. induction ds as [|d ds IH]; intros fs log Hall; simpl; [done|].
  apply Forall_cons in Hall as [Hd Hall].
  intros [(e' & Hrun & [= <-])|(a & fs1 & l1 & l2 & Hrun & Hrest & _)]%io_bind_inv.
  - exists d. split; [by left|]. by eapply build_report_raises.
  - destruct (IH fs1 l2) as (d' & Hd' & He); [|done|].
    + eapply Forall_impl; [exact Hall|]. intros d' Hd'. simpl in *.
      apply is_dir_stat. apply is_dir_stat in Hd'.
      eapply touched_dir; [by eapply build_report_touched|done].
    + exists d'. split; [by right|done].
Qed.

Lemma index_items_return (out : path) (ds : list path) (fs : node) :
  Forall (fun d => (exists rel, d = out ++ rel) /\ is_dir fs d = true) ds ->
  exists items, for_collect (index_item lower out) ds fs = (Ok items, fs, []).
Proof.
  induction 1 as [|d ds ((rel & ->) & Hd) _ (items & IH)]; [by eexists|].
  simpl. unfold io_bind at 1. unfold index_item at 1. unfold io_bind, read.
  rewrite relative_to_app. simpl.
  destruct (list_images_In lower fs _ Hd) as (images & -> & _).
  rewrite IH. by eexists.
Qed.

End Raises.

(** X19: the exceptions of a run.  A run that raises stopped for want of
    the outputs directory, with [SystemExit] and nothing done, or on an
    [OSError] at one of the paths it reads or writes: the
    [captions.csv] or the [report.html] of a discovered folder, [site],
    or one of the two index pages.  Among the failures of the embedding
    (permissions and decoding are outside it) it raises nothing else:
    [relative_to] never raises its [ValueError] in a run, and no listing
    of a discovered folder fails. *)
Theorem main_raises_only (lower : string -> string)
    (csv_reader : string -> list (list string)) (root : path) (fs fs' : node)
    (e : exn) (log : list event) :
  let out := root ++ ["outputs"] in
  let site := root ++ ["site"] in
  main lower csv_reader root fs = (Raise e, fs', log) ->
  (e = SystemExit exit_message /\ exists_ fs out = false /\ fs' = fs /\ log = [])
  \/ (exists d,
        In d (report_folders lower fs out)
        /\ (e = OSError (d ++ ["captions.csv"]) \/ e = OSError (d ++ ["report.html"])))
  \/ e = OSError site
  \/ e = OSError (site ++ ["index.html"])
  \/ e = OSError (root ++ ["index.html"]).
Proof.
  intros out site Hrun.
  destruct (exists_ fs out) eqn:Hex.
  2:{ rewrite (main_abort lower csv_reader root fs Hex) in Hrun.
      injection Hrun as <- <- <-. by left. }
  right.
  assert (Hdirs : Forall (fun d => (exists rel, d = out ++ rel) /\ is_dir fs d = true)
                         (report_folders lower fs out))
    by apply report_folders_under.
  assert (Hroot : stat fs root = KDir).
  { apply (stat_snoc_dir fs root "outputs"). by apply exists_stat. }
  apply (main_inv lower csv_reader root fs fs' _ log Hex) in Hrun.
  destruct Hrun as [(e' & Hl & [= <-])|(fs1 & l1 & l2 & Hl & Hidx)].
  { left. eapply build_reports_raise; [|exact Hl].
    eapply Forall_impl; [exact Hdirs|]. by intros d [_ ?]. }
  destruct Hidx as [(e' & Hidx & [= <-] & _)|(_ & [=] & _)].
  right. apply build_index_pages_inv in Hidx.
  destruct Hidx as [(_ & [= ->] & _)|(fs2 & Hm & Hidx)]; [by left|].
  destruct Hidx as [(e' & Hitems & _)|(items & _ & Hidx)].
  { exfalso. destruct (index_items_return lower out (report_folders lower fs out) fs2)
      as (items & Hok); [|fold out in Hitems; congruence].
    eapply Forall_impl; [exact Hdirs|]. intros d [Hu Hd]. split; [done|].
    apply is_dir_stat. apply is_dir_stat in Hd.
    eapply touched_dir.
    - eapply (make_dirs_child_touched (fun _ => False)); [|exact Hm].
      eapply touched_dir; [by eapply build_reports_touched|done].
    - eapply touched_dir; [by eapply build_reports_touched|done]. }
  destruct Hidx as [(_ & [= ->] & _)|(fs3 & _ & Hidx)]; [by right; left|].
  destruct Hidx as [(_ & [= ->] & _)|(_ & [=] & _)]. by right; right.
Qed.

Lemma main_raises_only_witness :
  (main ascii_lower csv_plain ["proj"] blocked_fs).1.1
  = Raise (OSError ["proj"; "outputs"; "Zoo"; "captions.csv"]).
Proof.
  destruct (main ascii_lower csv_plain ["proj"] blocked_fs) as [[r fs'] log] eqn:Hrun.
  assert (He : exists e, r = Raise e).
  { vm_compute in Hrun. injection Hrun as <- _ _. by eexists. }
  destruct He as (e & ->).
  destruct (main_raises_only ascii_lower csv_plain ["proj"] blocked_fs fs' e log Hrun)
    as [(_ & Hex & _)|H]; [discriminate Hex|].
  vm_compute in Hrun. by injection Hrun as <- _ _.
Defined.

(** ** Percent-encoding *)

Lemma quoter_encode_byte (c : ascii) : quoter "/" c = encode_byte c.
Proof. by destruct c as [[] [] [] [] [] [] [] []]. Qed.

Lemma quote_percent_encode (s : string) : quote s = percent_encode s.
Proof.
  induction s as [|c s IH]; [done|].
  rewrite quote_cons. simpl. by rewrite quoter_encode_byte, IH.
Qed.

Lemma percent_encode_count_slash (s : string) :
  Str.count "/" (percent_encode s) = Str.count "/" s.
Proof. rewrite <- quote_percent_encode. apply quote_count_slash. Qed.

(** C2 (amended): [url_path] encodes every segment on its own, byte after
    byte, and joins the results with slashes.  An ASCII letter, a digit,
    one of [_.-~] and the slash stand for themselves, every other byte
    becomes [%] and its two upper-case hexadecimal digits.  The slashes of
    the result are the [length parts - 1] separators and the slashes of the
    segments; for segments without a slash, as file and directory names
    are, no encoded segment holds a slash and the slashes of the result are
    exactly the separators. *)
Theorem url_path_per_segment (parts : list string) :
  url_path parts = String.concat "/" (map percent_encode parts)
  /\ Str.count "/" (url_path parts)
     = (length parts - 1) + list_sum (map (Str.count "/") parts)
  /\ (Forall (fun p => Str.mem "/" p = false) parts ->
      Forall (fun p => Str.mem "/" (percent_encode p) = false) parts
      /\ Str.count "/" (url_path parts) = length parts - 1).
Proof.
  split; [|split].
  - unfold url_path. f_equal. apply map_ext, quote_percent_encode.
  - rewrite url_path_count_slash. lia.
  - intros Hfree. split.
    + eapply Forall_impl; [exact Hfree|]. intros p Hp.
      apply str_mem_count. rewrite percent_encode_count_slash.
      by apply str_mem_count.
    + rewrite url_path_count_slash.
      assert (list_sum (map (Str.count "/") parts) = 0) as ->; [|lia].
      induction Hfree as [|p parts Hp _ IH]; [done|]. simpl.
      apply str_mem_count in Hp. lia.
Qed.

Lemma url_path_per_segment_witness :
  url_path ["../outputs"; "a b&c"; "é.png"] = "../outputs/a%20b%26c/%C3%A9.png"
  /\ Str.count "/" (url_path ["../outputs"; "a b&c"; "é.png"]) = 2 + 1
  /\ Str.mem "/" (percent_encode "a&b.png") = false
  /\ Str.count "/" (url_path ["Modeling outputs"; "a&b.png"]) = 2 - 1.
Proof.
  split; [|split; [|split]].
  - by rewrite (proj1 (url_path_per_segment ["../outputs"; "a b&c"; "é.png"])).
  - by rewrite (proj1 (proj2 (url_path_per_segment ["../outputs"; "a b&c"; "é.png"]))).
  - destruct (proj2 (proj2 (url_path_per_segment ["Modeling outputs"; "a&b.png"])))
      as [H _]; [repeat constructor|].
    by apply Forall_cons in H as [_ [H _]%Forall_cons].
  - apply (url_path_per_segment ["Modeling outputs"; "a&b.png"]).
    repeat constructor.
Defined.

(** ** Short rows *)

Lemma row_dict_from (fieldnames row : list string)
    (d0 : gmap string (option string)) (k : string) :
  fold_left (fun d k => <[k := None]> d) (drop (length row) fieldnames)
    (fold_left (fun d kv => <[kv.1 := Some kv.2]> d) (zip fieldnames row) d0) !! k
  = match last_index k fieldnames with
    | Some i => Some (row !! i)
    | None => d0 !! k
    end.
Proof.
  revert row d0. induction fieldnames as [|f fieldnames IH]; intros row d0.
  - by rewrite drop_nil.
  - destruct row as [|v row].
    + pose proof (IH [] (<[f := None]> d0)) as IH0.
      rewrite zip_with_nil_r in IH0. simpl in IH0. rewrite drop_0 in IH0.
      simpl. rewrite IH0.
      destruct (last_index k fieldnames) as [i|]; [done|].
      destruct (String.eqb_spec f k) as [->|Hne].
      * by rewrite lookup_insert_eq.
      * by rewrite lookup_insert_ne.
    + simpl. rewrite IH. destruct (last_index k fieldnames) as [i|]; [done|].
      destruct (String.eqb_spec f k) as [->|Hne].
      * by rewrite lookup_insert_eq.
      * by rewrite lookup_insert_ne.
Qed.

(** Reading a field of a row of [csv.DictReader] with [row.get(k) or ""]
    gives the cell of the record. *)
Lemma row_dict_cell (fieldnames row : list string) (k : string) :
  get_or_empty (row_dict fieldnames row) k = cell fieldnames row k.
Proof.
  unfold get_or_empty, row_dict, cell. rewrite row_dict_from.
  destruct (last_index k fieldnames) as [i|]; [|by rewrite lookup_empty].
  by destruct (row !! i).
Qed.

Lemma find_map {A B : Type} (f : A -> B) (p : B -> bool) (l : list A) :
  List.find p (map f l) = option_map f (List.find (fun x => p (f x)) l).
Proof. induction l as [|x l IH]; simpl; [done|]. by destruct (p (f x)). Qed.

Lemma find_ext {A : Type} (p q : A -> bool) (l : list A) :
  (forall x, p x = q x) -> List.find p l = List.find q l.
Proof. intros H. induction l as [|x l IH]; simpl; [done|]. by rewrite H, IH. Qed.

(** The table [read_captions] builds from the records of a file. *)
Lemma captions_of_records (records : list (list string)) (k : string) :
  fold_left caption_step (dict_reader records) ∅ !! k = caption_of records k.
Proof.
  rewrite fold_caption_step, lookup_empty.
  destruct records as [|fieldnames data]; [done|].
  unfold dict_reader, caption_of. rewrite <- map_rev, find_map.
  rewrite (List.filter_ext _ (fun row => negb (Nat.eqb (length row) 0)))
    by (by intros []).
  rewrite (find_ext _ (fun row =>
             String.eqb (Strip.strip (cell fieldnames row "filename")) k))
    by (intros row; by rewrite row_dict_cell).
  destruct (List.find _ _) as [row|]; simpl; [|done].
  rewrite row_dict_cell. by destruct (String.eqb k EmptyString).
Qed.

(** C6: [read_captions] returns on a missing file and on every regular
    file, whatever records the reader finds in it.  A missing file gives
    the empty mapping.  For a file, the caption of a name is the stripped
    caption field of the last record whose stripped file name field is that
    name, where a field the record is too short for, or that the header
    does not name, reads as the empty string: a short record is kept, with
    the empty caption, and a record whose stripped file name is empty, as
    one of white space only is, gives no entry.  In every report that is
    written, the card of an image whose name the mapping does not hold has
    the empty caption. *)
Theorem read_captions_tolerant (lower : string -> string)
    (csv_reader : string -> list (list string)) (fs : node) (captions_csv : path) :
  (lookup_path fs captions_csv = None ->
     read_captions csv_reader fs captions_csv = Ok ∅)
  /\ (forall content, lookup_path fs captions_csv = Some (File content) ->
        exists caps,
          read_captions csv_reader fs captions_csv = Ok caps
          /\ (forall k, caps !! k = caption_of (csv_reader content) k)
          /\ caps !! EmptyString = None)
  /\ (forall fieldnames row k,
        get_or_empty (row_dict fieldnames row) k = cell fieldnames row k)
  /\ (forall fieldnames row k i,
        last_index k fieldnames = Some i -> length row <= i ->
        cell fieldnames row k = EmptyString)
  /\ (forall fn earlier,
        Strip.strip fn <> EmptyString ->
        caption_of (["filename"; "caption"] :: earlier ++ [[fn]]) (Strip.strip fn)
        = Some EmptyString)
  /\ (forall s,
        Str.all (fun c => Ascii.eqb c " " || Ascii.eqb c "009" || Ascii.eqb c "010"
                          || Ascii.eqb c "013") s = true ->
        Strip.strip s = EmptyString)
  /\ Strip.strip (String "009" " a.png  ") = "a.png"
  /\ (forall d r fs' log p c,
        build_report lower csv_reader d fs = (r, fs', log) ->
        In (Wrote p c) log ->
        exists images caps,
          list_images lower fs d = Ok images
          /\ read_captions csv_reader fs (d ++ ["captions.csv"]) = Ok caps
          /\ c = report_page (name d) (length images)
                   (map (fun img =>
                           card_html (quote (name img)) (html_escape (name img))
                             match caps !! name img with
                             | Some cap => html_escape cap
                             | None => EmptyString
                             end) images))
  /\ (forall href alt,
        exists before,
          card_html href alt EmptyString
          = before +:+ "<figcaption></figcaption>
            </figure>").
Proof.
  split; [|split; [|split; [|split; [|split; [|split; [|split; [|split]]]]]]].
  - intros H. unfold read_captions. by rewrite H.
  - intros content H. unfold read_captions. rewrite H. eexists. split; [done|].
    split; [apply captions_of_records|].
    rewrite captions_of_records. unfold caption_of.
    destruct (csv_reader content) as [|fieldnames data]; [done|].
    by destruct (List.find _ _).
  - apply row_dict_cell.
  - intros fieldnames row k i Hi Hlen. unfold cell. rewrite Hi.
    by rewrite lookup_ge_None_2.
  - intros fn earlier Hne. unfold caption_of.
    rewrite List.filter_app, rev_app_distr. simpl.
    change (cell ["filename"; "caption"] [fn] "filename") with fn.
    rewrite String.eqb_refl.
    destruct (String.eqb_spec (Strip.strip fn) EmptyString) as [E|_]; [done|].
    reflexivity.
  - intros s Hs. unfold Strip.strip.
    assert (Strip.lstrip s = EmptyString) as ->; [|done].
    induction s as [|c s IH]; [done|]. simpl in Hs.
    apply andb_true_iff in Hs as [Hc Hs]. rewrite lstrip_space; [by apply IH|].
    repeat (apply orb_true_iff in Hc as [Hc|Hc]);
      apply Ascii.eqb_eq in Hc; by subst c.
  - reflexivity.
  - intros d r fs' log p c Hrun Hin.
    destruct (build_report_writes lower csv_reader d fs fs' r log p c Hrun Hin)
      as (images & caps & Hi & Hc & _ & ->).
    exists images, caps. split; [done|]. split; [done|]. f_equal.
    apply map_ext. intros img.
    rewrite card_stripped. by destruct (caps !! name img).
  - intros href alt.
    exists ("<figure class=" +:+ DQ +:+ "card" +:+ DQ +:+ ">
              <a href=" +:+ DQ +:+ href +:+ DQ +:+ " target=" +:+ DQ +:+ "_blank" +:+ DQ +:+ " rel=" +:+ DQ +:+ "noopener" +:+ DQ +:+ ">
                <img src=" +:+ DQ +:+ href +:+ DQ +:+ " alt=" +:+ DQ +:+ alt +:+ DQ +:+ ">
              </a>
              ").
    unfold card_html. rewrite !str_app_assoc. reflexivity.
Qed.

Lemma read_captions_tolerant_witness :
  read_captions csv_plain example_fs ["proj"; "outputs"; "X"; "exp1"; "captions.csv"]
  = Ok ∅
  /\ (exists caps,
        read_captions csv_plain example_fs
          ["proj"; "outputs"; "Gallery"; "captions.csv"] = Ok caps
        /\ caps !! "a.png" = Some "Hello <script>"
        /\ caps !! "b.jpg" = Some EmptyString
        /\ caps !! "dropped" = None
        /\ caps !! EmptyString = None)
  /\ cell ["filename"; "caption"] ["b.jpg"] "caption" = EmptyString.
Proof.
  split; [|split].
  - apply (read_captions_tolerant ascii_lower csv_plain example_fs
             ["proj"; "outputs"; "X"; "exp1"; "captions.csv"]).
    reflexivity.
  - destruct (proj1 (proj2 (read_captions_tolerant ascii_lower csv_plain example_fs
                ["proj"; "outputs"; "Gallery"; "captions.csv"])) _ eq_refl)
      as (caps & Hread & Hk & Hempty).
    exists caps. split; [exact Hread|].
    split; [by rewrite Hk|]. split; [by rewrite Hk|]. split; [by rewrite Hk|].
    exact Hempty.
  - apply (proj1 (proj2 (proj2 (proj2
             (read_captions_tolerant ascii_lower csv_plain example_fs []))))
             ["filename"; "caption"] ["b.jpg"] "caption" 1); [reflexivity|simpl; lia].
Defined.

(** ** The test for the outputs directory and the runs that fail *)

(** C7 (as stated) fails in both directions.  Where [outputs] is a regular
    file there is no directory [<root>/outputs], yet the run does not
    abort: it returns after writing both index pages.  Where the directory
    exists and a directory stands in the place of one [captions.csv], the
    run does not complete: it raises after the first report, and no index
    page is written. *)
Lemma main_outputs_claim_fails :
  (is_dir flat_fs ["proj"; "outputs"] = false
   /\ exists fs' c1 c2,
        main ascii_lower csv_plain ["proj"] flat_fs
        = (Ok tt, fs',
           [ MadeDir ["proj"; "site"];
             Wrote ["proj"; "site"; "index.html"] c1;
             Printed (index_built +:+ "/proj/site/index.html");
             Wrote ["proj"; "index.html"] c2;
             Printed (index_built +:+ "/proj/index.html");
             Printed done_message ]))
  /\ (is_dir blocked_fs ["proj"; "outputs"] = true
      /\ exists fs' c,
           main ascii_lower csv_plain ["proj"] blocked_fs
           = (Raise (OSError ["proj"; "outputs"; "Zoo"; "captions.csv"]), fs',
              [ Wrote ["proj"; "outputs"; "Gallery"; "report.html"] c;
                Printed (report_built +:+ "/proj/outputs/Gallery/report.html") ])).
Proof.
  split; (split; [reflexivity|]).
  - eexists _, _, _. vm_compute. reflexivity.
  - eexists _, _. vm_compute. reflexivity.
Qed.

(** ** Counting in the text of a page *)

Lemma decide_prefix_sound (pat s r : string) (b : bool) :
  decide_prefix pat s = Some b -> String.prefix pat (s +:+ r) = b.
Proof.
  revert s. induction pat as [|a pat IH]; intros s; simpl.
  - intros [= <-]. by destruct (s +:+ r).
  - destruct s as [|c s]; [done|]. rewrite str_app_cons. cbn [String.prefix].
    destruct (Ascii.eqb_spec a c) as [->|Hne].
    + intros H. destruct (ascii_dec c c); [by apply IH|done].
    + intros [= <-]. by destruct (ascii_dec a c).
Qed.

Lemma count_within_sound (pat s r : string) (n : nat) :
  count_within pat s = Some n -> count_sub pat (s +:+ r) = n + count_sub pat r.
Proof.
  revert n. induction s as [|c s IH]; intros n.
  - by intros [= <-].
  - cbn [count_within].
    destruct (decide_prefix pat (String c s)) as [b|] eqn:Hb; [|done].
    destruct (count_within pat s) as [m|]; [|done]. intros [= <-].
    rewrite str_app_cons. cbn [count_sub]. rewrite <- str_app_cons.
    rewrite (decide_prefix_sound _ _ r _ Hb), (IH m eq_refl). lia.
Qed.

Lemma count_sub_free (a : ascii) (pat x r : string) :
  Str.mem a x = false ->
  count_sub (String a pat) (x +:+ r) = count_sub (String a pat) r.
Proof.
  induction x as [|c x IH]; [done|]. simpl.
  intros [Hc Hx]%orb_false_iff. rewrite (IH Hx).
  destruct (ascii_dec a c) as [->|_]; [|done]. by rewrite Ascii.eqb_refl in Hc.
Qed.

Lemma count_sub_nil_r (pat s : string) (n : nat) :
  count_within pat s = Some n -> count_sub pat s = n.
Proof.
  intros H. rewrite <- (str_app_nil_r s), (count_within_sound _ _ _ _ H).
  simpl. lia.
Qed.

Lemma markup_free (s : string) : markup s = EmptyString -> Str.mem "<" s = false.
Proof.
  induction s as [|c s IH]; [done|]. unfold markup. simpl.
  destruct (is_markup c) eqn:Hc; [done|]. intros H.
  rewrite (IH H), orb_false_r. unfold is_markup in Hc.
  apply orb_false_iff in Hc as [[[Hc _]%orb_false_iff _]%orb_false_iff _].
  exact Hc.
Qed.

Lemma concat_empty_cons (x : string) (l : list string) :
  String.concat EmptyString (x :: l) = x +:+ String.concat EmptyString l.
Proof. destruct l; simpl; [by rewrite str_app_nil_r|done]. Qed.

Lemma concat_empty_app (l1 l2 : list string) :
  String.concat EmptyString (l1 ++ l2)
  = String.concat EmptyString l1 +:+ String.concat EmptyString l2.
Proof.
  induction l1 as [|x l1 IH]; [done|].
  rewrite <- app_comm_cons, !concat_empty_cons, IH. by rewrite str_app_assoc.
Qed.

Ltac count_step :=
  first
    [ erewrite count_within_sound by (vm_compute; reflexivity)
    | rewrite count_sub_free by
        first [ apply markup_free, markup_html_escape
              | apply markup_free, markup_quote
              | apply markup_free, markup_url_path
              | apply markup_free, markup_of_nat
              | assumption ] ].

(** A card holds one [figure] element. *)
Lemma count_sub_card (href alt caption r : string) :
  Str.mem "<" href = false -> Str.mem "<" alt = false ->
  Str.mem "<" caption = false ->
  count_sub "<figure" (card_html href alt caption +:+ r)
  = 1 + count_sub "<figure" r.
Proof.
  intros Hh Ha Hc. unfold card_html. rewrite !str_app_assoc.
  repeat count_step. reflexivity.
Qed.

Lemma count_sub_cards {A : Type} (card_of : A -> string) (l : list A) (r : string) :
  (forall x, exists href alt caption,
      card_of x = card_html href alt caption
      /\ Str.mem "<" href = false /\ Str.mem "<" alt = false
      /\ Str.mem "<" caption = false) ->
  count_sub "<figure" (String.concat EmptyString (map card_of l) +:+ r)
  = length l + count_sub "<figure" r.
Proof.
  intros Hcard. induction l as [|x l IH]; [done|].
  cbn [map]. rewrite concat_empty_cons, str_app_assoc.
  destruct (Hcard x) as (href & alt & caption & -> & Hh & Ha & Hc).
  rewrite count_sub_card, IH by done. reflexivity.
Qed.

(** A report holds as many [figure] elements as it has cards. *)
Lemma count_sub_report_page {A : Type} (card_of : A -> string) (title : string)
    (n : nat) (l : list A) :
  (forall x, exists href alt caption,
      card_of x = card_html href alt caption
      /\ Str.mem "<" href = false /\ Str.mem "<" alt = false
      /\ Str.mem "<" caption = false) ->
  count_sub "<figure" (report_page title n (map card_of l)) = length l.
Proof.
  intros Hcard. unfold report_page.
  repeat count_step. rewrite (count_sub_cards _ _ _ Hcard).
  rewrite (count_sub_nil_r _ _ 0) by (vm_compute; reflexivity). lia.
Qed.

Lemma occurs_in_app_r (x l r : string) : occurs_in x r -> occurs_in x (l +:+ r).
Proof.
  intros (b & a & ->). exists (l +:+ b), a. by rewrite !str_app_assoc.
Qed.

Lemma occurs_in_app_l (x l r : string) : occurs_in x l -> occurs_in x (l +:+ r).
Proof.
  intros (b & a & ->). exists b, (a +:+ r). by rewrite !str_app_assoc.
Qed.

Lemma occurs_in_cons (x : string) (a : ascii) (s : string) :
  occurs_in x s -> occurs_in x (String a s).
Proof. intros (b & c & ->). by exists (String a b), c. Qed.

Lemma occurs_in_here (x r : string) : occurs_in x (x +:+ r).
Proof. by exists EmptyString, r. Qed.

Lemma occurs_in_concat (x : string) (l : list string) :
  In x l -> occurs_in x (String.concat EmptyString l).
Proof.
  intros (l1 & l2 & ->)%in_split.
  rewrite concat_empty_app, concat_empty_cons.
  apply occurs_in_app_r, occurs_in_here.
Qed.

Ltac find_occurrence :=
  first [ solve [ exists EmptyString; eexists; rewrite !str_app_assoc; reflexivity ]
        | apply occurs_in_app_r; find_occurrence ].

(** The header of a report shows the number it was given. *)
Lemma report_page_header (title : string) (n : nat) (cards : list string) :
  occurs_in (">تعداد تصاویر: " +:+ Str.of_nat n +:+ "</p>")
            (report_page title n cards).
Proof.
  unfold report_page. find_occurrence.
Qed.

(** ** Numerals *)

Lemma read_decimal_from_uint (d : Decimal.uint) (acc : nat) :
  read_decimal_from acc (NilEmpty.string_of_uint d) = Some (Nat.of_uint_acc d acc).
Proof.
  revert acc. induction d; intros acc; [done|..];
    cbn [NilEmpty.string_of_uint read_decimal_from Nat.of_uint_acc];
    rewrite Nat.tail_mul_spec;
    match goal with
    | |- match digit_value ?c with _ => _ end = _ =>
        change (digit_value c) with (Some (nat_of_ascii c - 48))
    end;
    cbv beta iota; rewrite IHd; do 2 f_equal; simpl; lia.
Qed.

(** [str(n)] is a decimal numeral of [n]. *)
Lemma read_decimal_of_nat (n : nat) : read_decimal (Str.of_nat n) = Some n.
Proof.
  unfold Str.of_nat. pose proof (Unsigned.of_to n) as Hn. unfold Nat.of_uint in Hn.
  destruct (Nat.to_uint n) as [|d|d|d|d|d|d|d|d|d|d] eqn:E;
    [simpl in Hn; by subst n|..];
    unfold NilZero.string_of_uint, read_decimal;
    cbn [NilEmpty.string_of_uint];
    rewrite <- Hn;
    match goal with
    | |- read_decimal_from 0 (String ?c (NilEmpty.string_of_uint d)) = Some (Nat.of_uint_acc ?D 0) =>
        change (String c (NilEmpty.string_of_uint d)) with (NilEmpty.string_of_uint D)
    end; apply read_decimal_from_uint.
Qed.

(** ** The list of an index page *)

Lemma count_sub_index_li (href label : string) (n : nat) (r : string) :
  Str.mem "<" href = false -> Str.mem "<" label = false ->
  count_sub "<li>" (index_li href label n +:+ r) = 1 + count_sub "<li>" r.
Proof.
  intros Hh Hl. unfold index_li. rewrite !str_app_assoc.
  repeat count_step. reflexivity.
Qed.

Lemma count_sub_index_lis (prefix_to_outputs : string) (items : list item) (r : string) :
  count_sub "<li>"
    (String.concat EmptyString
       (map (fun it : item =>
               index_li (url_path (prefix_to_outputs :: Str.split "/" it.1.2))
                        (html_escape it.1.1) it.2) items) +:+ r)
  = length items + count_sub "<li>" r.
Proof.
  induction items as [|it items IH]; [done|].
  cbn [map]. rewrite concat_empty_cons, str_app_assoc.
  rewrite count_sub_index_li, IH;
    [reflexivity|apply markup_free, markup_url_path
    |apply markup_free, markup_html_escape].
Qed.

(** An index page holds one list item for each entry, and one when there
    is no entry. *)
Lemma count_sub_make_html (items : list item) (prefix_to_outputs : string) :
  count_sub "<li>" (make_html items prefix_to_outputs) = Nat.max 1 (length items).
Proof.
  rewrite make_html_unfold. destruct items as [|it items]; [by vm_compute|].
  unfold index_page. repeat count_step. rewrite count_sub_index_lis.
  rewrite (count_sub_nil_r _ _ 0) by (vm_compute; reflexivity).
  cbn [length]. lia.
Qed.

(** Without entries the list of an index page is the placeholder item. *)
Lemma make_html_placeholder (prefix_to_outputs : string) :
  occurs_in "<ul>
    <li>گزارشی پیدا نشد.</li>
  </ul>" (make_html [] prefix_to_outputs).
Proof.
  rewrite make_html_unfold.
  match goal with
  | |- occurs_in ?x ?s => let s' := eval vm_compute in s in change (occurs_in x s')
  end.
  repeat first [ solve [ exists EmptyString; eexists; reflexivity ]
               | apply occurs_in_cons ].
Qed.

(** Every entry is rendered in the list of the page. *)
Lemma make_html_entry (items : list item) (prefix_to_outputs : string) (it : item) :
  In it items ->
  occurs_in (index_li (url_path (prefix_to_outputs :: Str.split "/" it.1.2))
                      (html_escape it.1.1) it.2)
            (make_html items prefix_to_outputs).
Proof.
  intros Hin. rewrite make_html_unfold.
  destruct items as [|it0 items]; [done|].
  assert (Hbody : occurs_in
            (index_li (url_path (prefix_to_outputs :: Str.split "/" it.1.2))
                      (html_escape it.1.1) it.2)
            (String.concat EmptyString
               (map (fun it : item =>
                       index_li (url_path (prefix_to_outputs :: Str.split "/" it.1.2))
                                (html_escape it.1.1) it.2) (it0 :: items)))).
  { apply occurs_in_concat, in_map_iff. by exists it. }
  unfold index_page.
  repeat first [ apply occurs_in_app_l; exact Hbody | apply occurs_in_app_r ].
Qed.

(** C8: every index page that [build_index_pages] writes, for any list of
    folders in any order, renders one list of entries, one per folder,
    sorted by lower-cased relative path, and its text holds one list item
    for each folder.  When there is no folder the text holds one list
    item all the same: the list of the page is the placeholder item, not
    an empty list.  When the folders are directories below the outputs
    directory and no filesystem operation fails, the call returns after
    writing both pages over the same sorted entries. *)
Theorem index_pages_sorted (lower : string -> string) (root : path)
    (ds : list path) (fs : node) :
  let out := root ++ ["outputs"] in
  let site := root ++ ["site"] in
  let key_le := fun x y : item => String.leb (lower x.1.1) (lower y.1.1) = true in
  let render := fun (items : list item) (prefix_to_outputs : string) =>
    index_page
      match items with
      | [] => no_reports_li
      | _ =>
          String.concat EmptyString
            (map (fun it : item =>
                    index_li (url_path (prefix_to_outputs :: Str.split "/" it.1.2))
                             (html_escape it.1.1) it.2) items)
      end in
  (forall r fs' log p c,
      build_index_pages lower root ds fs = (r, fs', log) ->
      In (Wrote p c) log ->
      exists collected items,
        Forall2 (entry_of out) ds collected
        /\ items ≡ₚ collected
        /\ StronglySorted key_le items
        /\ ((p = site ++ ["index.html"] /\ c = render items "../outputs")
            \/ (p = root ++ ["index.html"] /\ c = render items "outputs"))
        /\ (ds = [] -> items = [])
        /\ count_sub "<li>" c = Nat.max 1 (length ds)
        /\ (ds = [] ->
            occurs_in "<ul>
    <li>گزارشی پیدا نشد.</li>
  </ul>" c))
  /\ (lower ".html" ∉ IMG_EXTS ->
      wf fs ->
      Forall (fun d => (exists r, d = out ++ r) /\ is_dir fs d = true) ds ->
      stat fs root = KDir ->
      dirlike (stat fs site) = true ->
      filelike (stat fs (site ++ ["index.html"])) = true ->
      filelike (stat fs (root ++ ["index.html"])) = true ->
      exists fs' items,
        build_index_pages lower root ds fs
        = (Ok tt, fs',
           [ MadeDir site;
             Wrote (site ++ ["index.html"]) (render items "../outputs");
             Printed (index_built +:+ path_str (site ++ ["index.html"]));
             Wrote (root ++ ["index.html"]) (render items "outputs");
             Printed (index_built +:+ path_str (root ++ ["index.html"])) ])
        /\ items ≡ₚ map (item_of lower fs out) ds
        /\ StronglySorted key_le items).
Proof.
  intros out site key_le render.
  assert (Hsorted : forall items, StronglySorted key_le (sorted (item_leb lower) items)).
  { intros items. apply (sorted_sorted (item_leb lower));
      [apply item_leb_total|apply item_leb_trans]. }
  split.
  - intros r fs' log p c Hrun Hin.
    destruct (build_index_pages_writes lower root ds fs fs' r log p c Hrun Hin)
      as (collected & Hall & Hpc).
    assert (Hlen : length (sorted (item_leb lower) collected) = length ds).
    { rewrite (Permutation_length (sorted_perm (item_leb lower) collected)).
      symmetry. by eapply Forall2_length. }
    exists collected, (sorted (item_leb lower) collected).
    split; [done|]. split; [apply sorted_perm|]. split; [apply Hsorted|].
    split; [|split; [|split]].
    + unfold render. rewrite <- !make_html_unfold. exact Hpc.
    + intros ->. by apply Forall2_nil_inv_l in Hall as ->.
    + rewrite <- Hlen.
      destruct Hpc as [[_ ->]|[_ ->]]; apply count_sub_make_html.
    + intros ->. apply Forall2_nil_inv_l in Hall as ->.
      destruct Hpc as [[_ ->]|[_ ->]]; apply make_html_placeholder.
  - intros Hl W Hds Hroot Hsite Hi1 Hi2.
    destruct (build_index_pages_run lower Hl root fs fs ds W W (agree_refl _ _)
                Hds Hroot Hsite Hi1 Hi2) as (fs' & Hrun & _).
    exists fs', (sorted (item_leb lower) (map (item_of lower fs out) ds)).
    split; [|split; [apply sorted_perm|apply Hsorted]].
    unfold render. rewrite <- !make_html_unfold. exact Hrun.
Qed.

Lemma index_pages_sorted_witness :
  (exists fs' items,
     build_index_pages ascii_lower ["proj"]
       [["proj"; "outputs"; "X"; "exp2"]; ["proj"; "outputs"; "Gallery"]] example_fs
     = (Ok tt, fs', index_log items ["proj"])
     /\ StronglySorted
          (fun x y : item => String.leb (ascii_lower x.1.1) (ascii_lower y.1.1) = true)
          items)
  /\ (exists fs' c,
        build_index_pages ascii_lower ["proj"] [] bare_fs
        = (Ok tt, fs',
           [ MadeDir ["proj"; "site"];
             Wrote ["proj"; "site"; "index.html"] c;
             Printed (index_built +:+ "/proj/site/index.html");
             Wrote ["proj"; "index.html"] c;
             Printed (index_built +:+ "/proj/index.html") ])
        /\ count_sub "<li>" c = 1
        /\ occurs_in "<ul>
    <li>گزارشی پیدا نشد.</li>
  </ul>" c).
Proof.
  split.
  - destruct (proj2 (index_pages_sorted ascii_lower ["proj"]
                [["proj"; "outputs"; "X"; "exp2"]; ["proj"; "outputs"; "Gallery"]]
                example_fs) ascii_lower_html ltac:(vm_compute; reflexivity))
      as (fs' & items & H1 & _ & H3); try (vm_compute; reflexivity).
    + repeat constructor; try reflexivity.
      * by exists ["X"; "exp2"].
      * by exists ["Gallery"].
    + exists fs', items. split; [|exact H3].
      rewrite H1. unfold index_log. by rewrite !make_html_unfold.
  - destruct (build_index_pages ascii_lower ["proj"] [] bare_fs)
      as [[r fs'] log] eqn:Hrun.
    pose proof (proj1 (index_pages_sorted ascii_lower ["proj"] [] bare_fs)
                  r fs' log) as Hpages.
    vm_compute in Hrun. injection Hrun as <- <- <-.
    eexists _, _. split; [reflexivity|].
    destruct (Hpages _ _ eq_refl ltac:(right; left; reflexivity))
      as (_ & _ & _ & _ & _ & _ & _ & Hcount & Hul).
    split; [exact Hcount|exact (Hul eq_refl)].
Defined.

(** ** The three counts of a folder *)

(** C10: in a complete run, for every discovered folder, one decimal
    numeral of the number of its images stands in the header of its
    report and in its entry of both index pages, and the text of the
    report holds that many [figure] elements, one card for each image.
    The entry is the one that carries the relative path of the folder, and
    there is one entry for each folder.  The index builder lists the
    folder again after the reports were written and finds the same
    images. *)
Theorem image_counts_agree (lower : string -> string)
    (csv_reader : string -> list (list string)) (root : path) (fs : node) :
  lower ".html" ∉ IMG_EXTS ->
  wf fs ->
  exists_ fs (root ++ ["outputs"]) = true ->
  io_ok lower fs root = true ->
  exists fs' log items ds,
    main lower csv_reader root fs = (Ok tt, fs', log)
    /\ find_report_folders lower fs (root ++ ["outputs"]) = Ok ds
    /\ In (Wrote ((root ++ ["site"]) ++ ["index.html"]) (make_html items "../outputs")) log
    /\ In (Wrote (root ++ ["index.html"]) (make_html items "outputs")) log
    /\ length items = length ds
    /\ forall d, In d ds ->
         exists images (caps : gmap string string) r page num,
           d = (root ++ ["outputs"]) ++ r
           /\ list_images lower fs d = Ok images
           /\ list_images lower fs' d = Ok images
           /\ read_decimal num = Some (length images)
           /\ In (Wrote (d ++ ["report.html"]) page) log
           /\ page = report_page (name d) (length images)
                       (map (fun img =>
                               card_html (quote (name img)) (html_escape (name img))
                                 (html_escape (default EmptyString (caps !! name img))))
                            images)
           /\ count_sub "<figure" page = length images
           /\ occurs_in (">تعداد تصاویر: " +:+ num +:+ "</p>") page
           /\ In (as_posix r, as_posix r +:+ "/report.html", length images) items
           /\ forall prefix_to_outputs,
                occurs_in
                  ("<li><a href=" +:+ DQ
                   +:+ url_path (prefix_to_outputs
                                 :: Str.split "/" (as_posix r +:+ "/report.html"))
                   +:+ DQ +:+ ">" +:+ html_escape (as_posix r)
                   +:+ "</a> <span class=" +:+ DQ +:+ "muted" +:+ DQ +:+ ">("
                   +:+ num +:+ " تصویر)</span></li>")
                  (make_html items prefix_to_outputs).
Proof.
  intros Hl W Hex Hok. set (out := root ++ ["outputs"]).
  destruct (main_run lower csv_reader Hl root fs W Hex Hok) as (fs' & Hrun & W' & A & _).
  exists fs', (main_events lower csv_reader fs root), (index_items lower fs out),
         (report_folders lower fs out).
  split; [done|]. split; [apply find_report_folders_filter|].
  split; [apply main_events_In; tauto|]. split; [apply main_events_In; tauto|].
  split.
  { unfold index_items.
    by rewrite (Permutation_length (sorted_perm (item_leb lower) _)), length_map. }
  intros d Hd. pose proof Hd as [(r & _ & ->) Himg]%report_folders_In.
  pose proof (io_ok_folders lower fs root Hok) as Hall.
  rewrite List.Forall_forall in Hall.
  destruct (Hall _ Hd) as (_ & _ & [Hcap _]%andb_true_iff).
  pose proof Himg as [Hdir _]%has_images_spec.
  destruct (list_images_In lower fs _ Hdir) as (images & Himages & _).
  destruct (report_text_page lower csv_reader fs _ images Himages Hcap)
    as (caps & _ & Htext).
  rewrite (map_ext _ (fun img =>
             card_html (quote (name img)) (html_escape (name img))
               (html_escape (default EmptyString (caps !! name img))))) in Htext
    by (intros img; apply card_stripped).
  assert (Hitem : In (as_posix r, as_posix r +:+ "/report.html", length images)
                     (index_items lower fs out)).
  { unfold index_items. apply sorted_In, in_map_iff. exists (out ++ r).
    split; [|done]. unfold item_of. by rewrite relative_to_app, Himages. }
  exists images, caps, r, (report_text lower csv_reader fs (out ++ r)),
         (Str.of_nat (length images)).
  split; [done|]. split; [done|].
  split; [by rewrite <- (list_images_agree lower Hl out fs fs' W W' A)|].
  split; [apply read_decimal_of_nat|].
  split; [apply main_events_In; left; by exists (out ++ r)|].
  split; [exact Htext|]. rewrite Htext.
  split; [|split; [apply report_page_header|split; [exact Hitem|]]].
  - rewrite count_sub_report_page; [done|]. intros img. eexists _, _, _.
    split; [reflexivity|].
    split; [apply markup_free, markup_quote|].
    split; apply markup_free, markup_html_escape.
  - intros prefix_to_outputs.
    exact (make_html_entry _ prefix_to_outputs _ Hitem).
Qed.

Lemma image_counts_agree_witness :
  exists fs' log items page num,
    main ascii_lower csv_plain ["proj"] example_fs = (Ok tt, fs', log)
    /\ In (Wrote ["proj"; "outputs"; "Gallery"; "report.html"] page) log
    /\ In (Wrote ["proj"; "index.html"] (make_html items "outputs")) log
    /\ read_decimal num = Some 2
    /\ count_sub "<figure" page = 2
    /\ occurs_in (">تعداد تصاویر: " +:+ num +:+ "</p>") page
    /\ occurs_in
         ("<li><a href=" +:+ DQ +:+ "outputs/Gallery/report.html" +:+ DQ
          +:+ ">Gallery</a> <span class=" +:+ DQ +:+ "muted" +:+ DQ +:+ ">("
          +:+ num +:+ " تصویر)</span></li>")
         (make_html items "outputs").
Proof.
  destruct (image_counts_agree ascii_lower csv_plain ["proj"] example_fs
              ascii_lower_html ltac:(vm_compute; reflexivity)
              ltac:(vm_compute; reflexivity) ltac:(vm_compute; reflexivity))
    as (fs' & log & items & ds & H1 & H2 & _ & H4 & _ & Hfolders).
  assert (Hin : In ["proj"; "outputs"; "Gallery"] ds).
  { vm_compute in H2. injection H2 as <-. by left. }
  destruct (Hfolders _ Hin)
    as (images & caps & r & page & num & Hr & Hi & _ & Hnum & Hw & _ & Hc & Hh & _ & Hli).
  assert (Hlen : length images = 2).
  { vm_compute in Hi. by injection Hi as <-. }
  assert (r = ["Gallery"]) as ->.
  { change ["proj"; "outputs"; "Gallery"] with ((["proj"] ++ ["outputs"]) ++ ["Gallery"]) in Hr.
    by apply app_inv_head in Hr. }
  rewrite Hlen in Hnum, Hc.
  exists fs', log, items, page, num.
  split; [exact H1|]. split; [exact Hw|]. split; [exact H4|].
  split; [exact Hnum|]. split; [exact Hc|]. split; [exact Hh|].
  exact (Hli "outputs").
Defined.
